(** * aide-next: the RTDB-to-Firestore migration and the Telegram energy alerts

    A shallow embedding of the scripts of the repository and the properties
    its specification states about them.

    - [JS]       : the fragment of the JavaScript runtime the scripts rely on
                   (truthiness, [parseInt], [Number.prototype.toFixed],
                   [String.prototype.trim], stable [Array.prototype.sort]).
    - [Eff]      : a state-and-exception monad for [async] code with
                   [try]/[catch].
    - [Telegram] : lib/telegram (sendTelegramMessage, sendEnergyAlert).
    - [Migrate]  : scripts/migrate-rtdb-to-firestore.ts.
    - [Alerts]   : scripts/test-energy-alerts.ts.
    - [Chats]    : lib/firebase/telegram-chats.ts (Firestore and RTDB variants)
                   and the registration step of scripts/test-telegram-discovery.ts.
    - [ChatStore]: lib/firebase/telegram-chats.ts, the functions that read
                   and clean the registry (both variants).
    - [Bot]      : lib/telegram (sendWelcomeMessage, getUpdates).
    - [Discovery]: scripts/test-telegram-discovery.ts.
    - [SendAlert]: scripts/test-send-alert.ts.
    - [Devices]  : lib/firebase/firestore.ts.

    JS objects used as maps are [gmap string _]; [Object.keys]/[Object.entries]
    enumerate them through [map_to_list].  JS numbers that carry measurements
    are binary64 floats; numbers that carry integers (timestamps, chat ids,
    counters) are [Z] or [nat], with the rounding to a Number written out
    where a key is read without radix ([JS.parseInt_number]). *)

From Stdlib Require Import ZArith List String Ascii Lia.
From Stdlib Require Import PrimFloat FloatOps SpecFloat DecimalString DecimalN DecimalPos.
From stdpp Require Import base option list gmap strings sorting.
From Stdlib Require OrderedTypeEx.

Set Warnings "-inexact-float".

(* ================================================================== *)
(** * The JavaScript runtime fragment *)
(* ================================================================== *)

Module JS.

Abbreviation number := float (only parsing).

(** The result of [parseInt]: [None] is NaN. *)
Abbreviation jsint := (option Z) (only parsing).

(** What a [throw] carries. *)
Inductive error :=
| Error (msg : string)
| TypeError (msg : string).

(** ToBoolean on a number: [+0], [-0] and [NaN] are falsy. *)
Definition truthy_number (x : number) : bool :=
  negb (PrimFloat.is_zero x || PrimFloat.is_nan x).

(** ToBoolean on a string: only the empty string is falsy. *)
Definition truthy_string (s : string) : bool :=
  negb (String.eqb s "").

(** A primitive value of unknown type (a field typed [any]). *)
Inductive value :=
| VNumber (x : number)
| VString (s : string)
| VBool (b : bool).

Definition truthy_value (v : value) : bool :=
  match v with
  | VNumber x => truthy_number x
  | VString s => truthy_string s
  | VBool b => b
  end.

(** ToBoolean on a possibly [undefined] value. *)
Definition truthy_opt {A} (t : A → bool) (x : option A) : bool :=
  match x with Some v => t v | None => false end.

(** [x || d]. *)
Definition or_else {A} (t : A → bool) (x : option A) (d : A) : A :=
  match x with
  | Some v => if t v then v else d
  | None => d
  end.

(** [a > b] on numbers (false as soon as one side is NaN). *)
Definition gt (a b : number) : bool := PrimFloat.ltb b a.

(** [Object.keys], [Object.entries] and [Object.keys(o).length]. *)
Definition entries {V} (o : gmap string V) : list (string * V) := map_to_list o.
Definition keys {V} (o : gmap string V) : list string := (entries o).*1.

(** ** parseInt(s, 10) *)

Fixpoint skip_spaces (s : string) : string :=
  match s with
  | String c s' => if Ascii.is_space c then skip_spaces s' else s
  | EmptyString => EmptyString
  end.

Fixpoint parse_digits (acc : option Z) (s : string) : option Z :=
  match s with
  | String c s' =>
      match Ascii.is_nat c with
      | Some d => parse_digits (Some (10 * default 0 acc + Z.of_nat d)%Z) s'
      | None => acc
      end
  | EmptyString => acc
  end.

(** Leading white space, an optional sign, then the longest run of decimal
    digits; NaN when there is no digit.  The value is kept exact. *)
Definition parseInt (s : string) : jsint :=
  match skip_spaces s with
  | String "-"%char s' => Z.opp <$> parse_digits None s'
  | String "+"%char s' => parse_digits None s'
  | s' => parse_digits None s'
  end.

(** ** parseInt(s): no radix

    Without a radix the digits are decimal, unless they follow [0x] or [0X]:
    then they are hexadecimal. *)

Definition hex_digit (c : ascii) : option Z :=
  match Ascii.is_nat c with
  | Some d => Some (Z.of_nat d)
  | None =>
      let n := N_of_ascii c in
      if (97 <=? n)%N && (n <=? 102)%N then Some (Z.of_N n - 87)%Z       (* a-f *)
      else if (65 <=? n)%N && (n <=? 70)%N then Some (Z.of_N n - 55)%Z   (* A-F *)
      else None
  end.

Fixpoint parse_hex (acc : option Z) (s : string) : option Z :=
  match s with
  | String c s' =>
      match hex_digit c with
      | Some d => parse_hex (Some (16 * default 0 acc + d)%Z) s'
      | None => acc
      end
  | EmptyString => acc
  end.

(** The digits after the sign, in the radix their prefix selects. *)
Definition parse_prefixed (s : string) : option Z :=
  match s with
  | String "0"%char (String "x"%char s') => parse_hex None s'
  | String "0"%char (String "X"%char s') => parse_hex None s'
  | _ => parse_digits None s
  end.

(** The mathematical integer [parseInt(s)] reads: leading white space, an
    optional sign, an optional [0x], then the longest run of digits; NaN when
    there is no digit. *)
Definition parseInt_integer (s : string) : option Z :=
  match skip_spaces s with
  | String "-"%char s' => Z.opp <$> parse_prefixed s'
  | String "+"%char s' => parse_prefixed s'
  | s' => parse_prefixed s'
  end.

(** The Number value of a mathematical integer: the nearest binary64 value,
    ties to even.  An integer below 2^53 is its own value; a larger one keeps
    its 53 leading bits; [2^1024] stands for [Infinity]. *)
Definition nearest_number (n : Z) : Z :=
  let e := (Z.log2 n - 52)%Z in
  if (e <=? 0)%Z then n
  else
    let q := (n / 2 ^ e)%Z in
    let r := (n mod 2 ^ e)%Z in
    let q := if (2 ^ e <? 2 * r)%Z || ((2 * r =? 2 ^ e)%Z && Z.odd q) then (q + 1)%Z else q in
    Z.min (q * 2 ^ e) (2 ^ 1024).

Definition integer_number (z : Z) : Z := (Z.sgn z * nearest_number (Z.abs z))%Z.

(** [parseInt(s)] as a Number: [None] is NaN, [2^1024] and [-2^1024] are the
    infinities. *)
Definition parseInt_number (s : string) : jsint := integer_number <$> parseInt_integer s.

(** ** String.prototype.trim *)

Definition trim (s : string) : string :=
  String.rev (skip_spaces (String.rev (skip_spaces s))).

(** ** Array.prototype.sort(compare)

    The sort is stable; with a consistent comparator every stable sort gives
    the same array, here by insertion.  A comparator result that is NaN counts
    as [+0]. *)

Section Sort.
Context {A : Type} (compare : A → A → Z).

Fixpoint insert_sorted (x : A) (l : list A) : list A :=
  match l with
  | [] => [x]
  | y :: l' => if (compare x y <=? 0)%Z then x :: y :: l' else y :: insert_sorted x l'
  end.

Definition sort (l : list A) : list A := foldr insert_sorted [] l.

End Sort.

(** ** Number.prototype.toFixed *)

Definition decimal (n : Z) : string :=
  NilZero.string_of_uint (N.to_uint (Z.to_N n)).

Fixpoint zeros (k : nat) : string :=
  match k with O => "" | S k' => String "0"%char (zeros k') end.

(** The integer [n] for which [n / 10^f] is closest to [m * 2^e], the larger
    one on a tie. *)
Definition scaled (f : nat) (m : positive) (e : Z) : Z :=
  if (0 <=? e)%Z then Z.pos m * 2 ^ e * 10 ^ Z.of_nat f
  else (2 * Z.pos m * 10 ^ Z.of_nat f + 2 ^ (- e)) / 2 ^ (- e + 1).

(** [m * 2^e >= 10^21]. *)
Definition at_least_1e21 (m : positive) (e : Z) : bool :=
  if (0 <=? e)%Z then (10 ^ 21 <=? Z.pos m * 2 ^ e)%Z
  else (10 ^ 21 * 2 ^ (- e) <=? Z.pos m)%Z.

(** Steps 11.b and 11.c of toFixed: the digits of [n] with a point before the
    last [f] of them. *)
Definition fixed_digits (f : nat) (n : Z) : string :=
  let m := decimal n in
  if (f =? 0)%nat then m
  else
    let k := String.length m in
    let m := if (k <=? f)%nat then zeros (f + 1 - k) +:+ m else m in
    let k := String.length m in
    substring 0 (k - f) m +:+ "." +:+ substring (k - f) f m.

Section Runtime.
(** [Number::toString], which [toFixed] falls back to for values that are not
    finite or whose magnitude is at least 10^21 (exponent notation). *)
Variable Number_toString : number → string.

Definition toFixed (f : nat) (x : number) : string :=
  match Prim2SF x with
  | S754_zero _ => fixed_digits f 0
  | S754_finite sg m e =>
      let s := if sg then "-" else "" in
      if at_least_1e21 m e then s +:+ Number_toString (PrimFloat.abs x)
      else s +:+ fixed_digits f (scaled f m e)
  | _ => Number_toString x
  end.

End Runtime.


End JS.

(* ================================================================== *)
(** * Asynchronous code with exceptions *)
(* ================================================================== *)

Module Eff.

Inductive outcome (S A : Type) :=
| Ret (a : A) (s : S)
| Throw (e : JS.error) (s : S).
Arguments Ret {S A} a s.
Arguments Throw {S A} e s.

Definition M (S A : Type) : Type := S → outcome S A.

Definition ret {S A} (a : A) : M S A := λ s, Ret a s.

Definition throw {S A} (e : JS.error) : M S A := λ s, Throw e s.

Definition bind {S A B} (m : M S A) (k : A → M S B) : M S B :=
  λ s, match m s with
       | Ret a s' => k a s'
       | Throw e s' => Throw e s'
       end.

(** [try { m } catch (e) { h e }] *)
Definition try_catch {S A} (m : M S A) (h : JS.error → M S A) : M S A :=
  λ s, match m s with
       | Ret a s' => Ret a s'
       | Throw e s' => h e s'
       end.

Definition get {S} : M S S := λ s, Ret s s.

Definition modify {S} (f : S → S) : M S unit := λ s, Ret tt (f s).

(** [for (const x of l) { ... }] over the variables [b] the body updates. *)
Fixpoint foldM {S A B} (body : B → A → M S B) (l : list A) (b : B) : M S B :=
  match l with
  | [] => ret b
  | x :: l' => bind (body b x) (foldM body l')
  end.

Definition state_of {S A} (o : outcome S A) : S :=
  match o with Ret _ s => s | Throw _ s => s end.

Definition returned {S A} (o : outcome S A) : option A :=
  match o with Ret a _ => Some a | Throw _ _ => None end.

(** stdpp's monad notation: [x ← m; k] and [m;; k]. *)
#[global] Instance M_ret {S} : MRet (M S) := @ret S.
#[global] Instance M_bind {S} : MBind (M S) := λ A B k m, bind m k.

End Eff.

(* ================================================================== *)
(** * lib/telegram: the Bot API client *)
(* ================================================================== *)

Module Telegram.
Import Eff.

(** The JSON body of a Bot API reply, as far as the client looks at it:
    the truthiness of [data.ok] and [data.description]. *)
Record Body := { ok : bool; description : string }.

(** [await response.json()]: rejects, or yields [null] or an object. *)
Inductive Response :=
| JsonError
| Json (data : option Body).

(** [await fetch(...)]: rejects, or yields a response. *)
Inductive FetchResult :=
| NetworkError
| Responded (r : Response).

Record Request := { chat_id : JS.jsint; text : string; parse_mode : string }.

(** The process environment and the network: the bot token, the reply of the
    Bot API to the [n]-th request, and the wall clock as
    [toLocaleString('en-US', {timeZone: 'UTC', ...})] prints it. *)
Record Env := {
  TELEGRAM_BOT_TOKEN : option string;
  sendMessage : nat → Request → FetchResult;
  now_utc : string;
}.

Record State := { posted : list Request; console : list string }.

Definition console_error (line : string) : M State unit :=
  modify (λ s, {| posted := posted s; console := console s ++ [line] |}).

Definition fetch (env : Env) (req : Request) : M State Response :=
  λ s,
    let s' := {| posted := posted s ++ [req]; console := console s |} in
    match sendMessage env (length (posted s)) req with
    | NetworkError => Throw (JS.Error "fetch failed") s'
    | Responded r => Ret r s'
    end.

Definition response_json (r : Response) : M State (option Body) :=
  match r with
  | JsonError => throw (JS.Error "invalid json")
  | Json data => ret data
  end.

(** [data.ok]: a TypeError when [data] is [null]. *)
Definition data_ok (data : option Body) : M State bool :=
  match data with
  | None => throw (JS.TypeError "Cannot read properties of null (reading 'ok')")
  | Some b => ret (ok b)
  end.

Definition sendTelegramMessage (env : Env)
    (chatId : JS.jsint) (text : string) (parseMode : string) : M State bool :=
  if negb (JS.truthy_opt JS.truthy_string (TELEGRAM_BOT_TOKEN env)) then
    console_error "TELEGRAM_BOT_TOKEN is not set";;
    ret false
  else
    try_catch
      (response ← fetch env {| chat_id := chatId; text := text; parse_mode := parseMode |};
       data ← response_json response;
       ok ← data_ok data;
       if negb ok then
         console_error "Failed to send message";;
         ret false
       else ret true)
      (λ _, console_error "Error sending Telegram message";; ret false).

Definition nl : string := String "010"%char "".

Section Runtime.
Variable Number_toString : JS.number → string.

(** The alert text: the template literal of [sendEnergyAlert], trimmed. *)
Definition alert_message (deviceName : string) (currentEnergy limit : JS.number)
    (timestamp : string) : string :=
  let overBy := (currentEnergy - limit)%float in
  JS.trim
    (nl +:+ "⚠️ <b>Energy Limit Exceeded</b>" +:+ nl +:+
     nl +:+ "Device: <b>" +:+ deviceName +:+ "</b>" +:+
     nl +:+ "Current: <b>" +:+ JS.toFixed Number_toString 2 currentEnergy +:+ " kWh</b>" +:+
     nl +:+ "Limit: <b>" +:+ JS.toFixed Number_toString 2 limit +:+ " kWh</b>" +:+
     nl +:+ "Over by: <b>" +:+ JS.toFixed Number_toString 2 overBy +:+ " kWh</b>" +:+
     nl +:+
     nl +:+ "Time: " +:+ timestamp +:+ " UTC" +:+
     nl +:+
     nl +:+ "Please check your device to reduce energy consumption." +:+ nl).

Definition sendEnergyAlert (env : Env) (chatId : JS.jsint) (deviceName : string)
    (currentEnergy limit : JS.number) : M State bool :=
  sendTelegramMessage env chatId
    (alert_message deviceName currentEnergy limit (now_utc env)) "HTML".

End Runtime.

End Telegram.

(* ================================================================== *)
(** * The notification registry entries *)
(* ================================================================== *)

Module Registry.

Record ChatEntry := {
  chatId : Z;
  username : option string;
  firstName : option string;
  lastActive : Z;
  addedAt : Z;
}.

End Registry.

(* ================================================================== *)
(** * scripts/migrate-rtdb-to-firestore.ts *)
(* ================================================================== *)

Module Migrate.
Import Eff.

(** ** The source tree (Realtime Database) *)

Record RTDBDevice := {
  name : string;
  isOn : option bool;
  energyLimit : option JS.number;
  last_updated : option JS.value;
  user_ids : option (gmap string bool);
}.

Record RTDBUser := {
  email : string;
  username : string;
  devices : option (gmap string string);
}.

(** A reading is an object with numeric fields; an entry of a readings map may
    also be [null]. *)
Abbreviation Reading := (gmap string JS.number) (only parsing).

(** [snapshot.val()] at each path the script reads: [None] is [null]. *)
Record RTDB := {
  ref_users : option (gmap string RTDBUser);
  ref_devices : option (gmap string RTDBDevice);
  ref_readings_daily : option (gmap string (gmap string (option Reading)));
  ref_telegram_active_chats : option (gmap string Registry.ChatEntry);
  ref_telegram_last_update_id : option Z;
}.

(** ** The destination (Firestore) *)

Module Doc.

(** The [last_updated] field of a written device: the source's value, or
    [FieldValue.serverTimestamp()], which the server replaces by its clock
    when it applies the write. *)
Inductive LastUpdated :=
| Copied (v : JS.value)
| ServerTimestamp
| WrittenAt (t : Z).

Record User := {
  email : string;
  username : string;
  devices : gmap string string;
}.

Record Item := {
  name : string;
  isOn : bool;
  energyLimit : JS.number;
  last_updated : LastUpdated;
  user_ids : list string;
}.

Record Daily := {
  current : JS.number;
  energy : JS.number;
  frequency : JS.number;
  power : JS.number;
  power_factor : JS.number;
  voltage : JS.number;
}.

Record Telegram := {
  chats : gmap string Registry.ChatEntry;
  last_update_id : Z;
}.

End Doc.

Record Firestore := {
  user_data : gmap string Doc.User;                 (* user-data/{id} *)
  item_data : gmap string Doc.Item;                 (* item-data/{id} *)
  daily : gmap string (gmap string Doc.Daily);      (* item-data/{id}/daily/{timestamp} *)
  telegram_active_chats : option Doc.Telegram;      (* telegram/active_chats *)
}.

(** A [WriteBatch] of the Admin SDK: the writes queued by [set], and whether
    [commit] has been called on it. *)
Record WriteBatch := {
  writes : list (string * string * Doc.Daily);
  committed : bool;
}.

(** The requests the script sends. *)
Inductive IO :=
| RtdbOnce (path : string)
| FsSet (collection doc : string)
| FsCommit (nth : nat)
| FsGet (path : string).

(** What the script prints, one constructor per [console] call that carries
    data (banners and static lines are left out). *)
Inductive Log :=
| LogMigrated (collection id : string)
| LogRecordError (collection id : string)
| LogCommitted (batchCount : nat)
| LogCommitError
| LogCommittedFinal (batchCount : nat)
| LogCommitFinalError
| LogDeviceTotal (id : string) (deviceReadingCount : nat)
| LogTelegram (chatCount : nat) (lastUpdateId : Z)
| LogTelegramError
| LogUsers (rtdbCount firestoreCount : nat) (same : bool)
| LogDevices (rtdbCount firestoreCount : nat) (same : bool)
| LogSample (id : string) (rtdbCount firestoreCount : nat) (same : bool)
| LogValidation (passed : bool)
| LogSummary (users devices readings chats : nat) (passed : bool)
| LogCritical.

(** The world the script runs in.
    - [rejects] tells which requests fail (the promise rejects);
    - [clock] is the Firestore server's clock, which moves on with every
      request it serves;
    - [reuse_rejected]: the Admin SDK refuses to modify a [WriteBatch] once
      [commit] was called on it ("Cannot modify a WriteBatch that has been
      committed."); with [false] the world is one whose SDK keeps queueing
      onto the committed batch instead;
    - [batch] is the batch object of the device being migrated;
    - [commits] lists every [batch.commit()]: the number of writes it carried
      and whether it was accepted. *)
Record World := {
  rtdb : RTDB;
  firestore : Firestore;
  clock : Z;
  rejects : IO → bool;
  reuse_rejected : bool;
  batch : WriteBatch;
  commits : list (nat * bool);
  console : list Log;
}.

Definition set_firestore (f : Firestore → Firestore) (w : World) : World :=
  {| rtdb := rtdb w; firestore := f (firestore w); clock := (clock w + 1)%Z;
     rejects := rejects w; reuse_rejected := reuse_rejected w; batch := batch w;
     commits := commits w; console := console w |}.

Definition set_batch (b : WriteBatch) (w : World) : World :=
  {| rtdb := rtdb w; firestore := firestore w; clock := clock w;
     rejects := rejects w; reuse_rejected := reuse_rejected w; batch := b;
     commits := commits w; console := console w |}.

Definition add_commit (c : nat * bool) (w : World) : World :=
  {| rtdb := rtdb w; firestore := firestore w; clock := clock w;
     rejects := rejects w; reuse_rejected := reuse_rejected w; batch := batch w;
     commits := commits w ++ [c]; console := console w |}.

Definition console_log (line : Log) : M World unit :=
  modify (λ w,
    {| rtdb := rtdb w; firestore := firestore w; clock := clock w;
       rejects := rejects w; reuse_rejected := reuse_rejected w; batch := batch w;
       commits := commits w; console := console w ++ [line] |}).

(** [(await rtdb.ref(path).once('value')).val()] *)
Definition once {A} (path : string) (val : RTDB → A) : M World A :=
  λ w, if rejects w (RtdbOnce path)
       then Throw (JS.Error "rtdb read failed") w
       else Ret (val (rtdb w)) w.

(** [await firestore.collection(c).doc(id).set(data)]: the whole document is
    replaced. *)
Definition doc_set (collection id : string) (write : Z → Firestore → Firestore)
  : M World unit :=
  λ w, if rejects w (FsSet collection id)
       then Throw (JS.Error "firestore write failed") w
       else Ret tt (set_firestore (write (clock w)) w).

(** [(await firestore.collection(...).get()).size] *)
Definition get_size (path : string) (size : Firestore → nat) : M World nat :=
  λ w, if rejects w (FsGet path)
       then Throw (JS.Error "firestore read failed") w
       else Ret (size (firestore w)) w.

Definition resolve (t : Z) (d : Doc.Item) : Doc.Item :=
  {| Doc.name := Doc.name d; Doc.isOn := Doc.isOn d;
     Doc.energyLimit := Doc.energyLimit d;
     Doc.last_updated :=
       match Doc.last_updated d with
       | Doc.ServerTimestamp => Doc.WrittenAt t
       | lu => lu
       end;
     Doc.user_ids := Doc.user_ids d |}.

Definition put_user (id : string) (d : Doc.User) (fs : Firestore) : Firestore :=
  {| user_data := <[id := d]> (user_data fs); item_data := item_data fs;
     daily := daily fs; telegram_active_chats := telegram_active_chats fs |}.

Definition put_item (id : string) (d : Doc.Item) (t : Z) (fs : Firestore) : Firestore :=
  {| user_data := user_data fs; item_data := <[id := resolve t d]> (item_data fs);
     daily := daily fs; telegram_active_chats := telegram_active_chats fs |}.

Definition put_daily (fs : Firestore) (wr : string * string * Doc.Daily) : Firestore :=
  let '(deviceId, timestamp, d) := wr in
  {| user_data := user_data fs; item_data := item_data fs;
     daily := <[deviceId := <[timestamp := d]> (default ∅ (daily fs !! deviceId))]> (daily fs);
     telegram_active_chats := telegram_active_chats fs |}.

Definition put_telegram (d : Doc.Telegram) (fs : Firestore) : Firestore :=
  {| user_data := user_data fs; item_data := item_data fs;
     daily := daily fs; telegram_active_chats := Some d |}.

(** [firestore.batch()] *)
Definition new_batch : M World unit :=
  modify (set_batch {| writes := []; committed := false |}).

(** [batch.set(ref, data)] *)
Definition batch_set (deviceId timestamp : string) (d : Doc.Daily) : M World unit :=
  λ w, if committed (batch w) && reuse_rejected w
       then Throw (JS.Error "Cannot modify a WriteBatch that has been committed.") w
       else Ret tt (set_batch {| writes := writes (batch w) ++ [(deviceId, timestamp, d)];
                                 committed := committed (batch w) |} w).

(** [await batch.commit()]: marks the batch committed, then sends all its
    writes as one atomic request. *)
Definition batch_commit : M World unit :=
  λ w,
    let b := batch w in
    let w1 := set_batch {| writes := writes b; committed := true |} w in
    if rejects w (FsCommit (length (commits w)))
    then Throw (JS.Error "commit failed") (add_commit (length (writes b), false) w1)
    else Ret tt (add_commit (length (writes b), true)
                   (set_firestore (λ fs, foldl put_daily fs (writes b)) w1)).

(** ** The migrators *)

Record Tally := { migratedCount : nat; errorCount : nat }.

Definition migrateUser (t : Tally) (entry : string * RTDBUser) : M World Tally :=
  let '(userId, user) := entry in
  try_catch
    (doc_set "user-data" userId
       (λ _, put_user userId
          {| Doc.email := email user;
             Doc.username := username user;
             Doc.devices := default ∅ (devices user) |});;
     console_log (LogMigrated "user-data" userId);;
     mret {| migratedCount := S (migratedCount t); errorCount := errorCount t |})
    (λ _,
     console_log (LogRecordError "user-data" userId);;
     mret {| migratedCount := migratedCount t; errorCount := S (errorCount t) |}).

Definition migrateUsers : M World Tally :=
  users ← once "users" (λ db, default ∅ (ref_users db));
  foldM migrateUser (JS.entries users) {| migratedCount := 0; errorCount := 0 |}.

(** [device.user_ids ? Object.keys(device.user_ids).filter(id => id) : []] *)
Definition userIdsArray (device : RTDBDevice) : list string :=
  match user_ids device with
  | Some ids => filter (λ id, JS.truthy_string id) (JS.keys ids)
  | None => []
  end.

(** The object literal handed to [set] for a device. *)
Definition device_doc (device : RTDBDevice) : Doc.Item :=
  {| Doc.name := name device;
     Doc.isOn := match isOn device with Some b => b | None => true end;
     Doc.energyLimit := JS.or_else JS.truthy_number (energyLimit device) 0%float;
     Doc.last_updated :=
       match last_updated device with
       | Some v => if JS.truthy_value v then Doc.Copied v else Doc.ServerTimestamp
       | None => Doc.ServerTimestamp
       end;
     Doc.user_ids := userIdsArray device |}.

Definition migrateDevice (t : Tally) (entry : string * RTDBDevice) : M World Tally :=
  let '(deviceId, device) := entry in
  try_catch
    (doc_set "item-data" deviceId (λ now, put_item deviceId (device_doc device) now);;
     console_log (LogMigrated "item-data" deviceId);;
     mret {| migratedCount := S (migratedCount t); errorCount := errorCount t |})
    (λ _,
     console_log (LogRecordError "item-data" deviceId);;
     mret {| migratedCount := migratedCount t; errorCount := S (errorCount t) |}).

Definition migrateDevices : M World Tally :=
  devices ← once "devices" (λ db, default ∅ (ref_devices db));
  foldM migrateDevice (JS.entries devices) {| migratedCount := 0; errorCount := 0 |}.

(** The variables of [migrateDailyReadings]: the three totals of the function
    and the two counters each device iteration declares. *)
Module Vars.
Record t := {
  totalReadings : nat;
  totalDevices : nat;
  errorCount : nat;
  batchCount : nat;
  deviceReadingCount : nat;
}.
End Vars.

Module ReadingsResult.
Record t := { totalReadings : nat; totalDevices : nat; errorCount : nat }.
End ReadingsResult.

(** [!reading || Object.keys(reading).length === 0] *)
Definition is_empty_reading (reading : option Reading) : bool :=
  match reading with
  | None => true
  | Some r => (length (JS.keys r) =? 0)%nat
  end.

Definition field (r : Reading) (f : string) : JS.number :=
  JS.or_else JS.truthy_number (r !! f) 0%float.

(** The object literal handed to [batch.set] for a reading. *)
Definition reading_doc (r : Reading) : Doc.Daily :=
  {| Doc.current := field r "current";
     Doc.energy := field r "energy";
     Doc.frequency := field r "frequency";
     Doc.power := field r "power";
     Doc.power_factor := field r "power_factor";
     Doc.voltage := field r "voltage" |}.

Definition counted (v : Vars.t) : Vars.t :=
  {| Vars.totalReadings := Vars.totalReadings v; Vars.totalDevices := Vars.totalDevices v;
     Vars.errorCount := Vars.errorCount v;
     Vars.batchCount := S (Vars.batchCount v);
     Vars.deviceReadingCount := S (Vars.deviceReadingCount v) |}.

Definition with_batchCount (n : nat) (v : Vars.t) : Vars.t :=
  {| Vars.totalReadings := Vars.totalReadings v; Vars.totalDevices := Vars.totalDevices v;
     Vars.errorCount := Vars.errorCount v;
     Vars.batchCount := n;
     Vars.deviceReadingCount := Vars.deviceReadingCount v |}.

Definition with_error (v : Vars.t) : Vars.t :=
  {| Vars.totalReadings := Vars.totalReadings v; Vars.totalDevices := Vars.totalDevices v;
     Vars.errorCount := S (Vars.errorCount v);
     Vars.batchCount := Vars.batchCount v;
     Vars.deviceReadingCount := Vars.deviceReadingCount v |}.

(** The body of the loop over one device's readings. *)
Definition migrateReading (deviceId : string) (v : Vars.t)
    (entry : string * option Reading) : M World Vars.t :=
  let '(timestamp, reading) := entry in
  if is_empty_reading reading then mret v
  else
    batch_set deviceId timestamp (reading_doc (default ∅ reading));;
    let v := counted v in
    if (500 <=? Vars.batchCount v)%nat then
      try_catch
        (batch_commit;;
         console_log (LogCommitted (Vars.batchCount v));;
         mret (with_batchCount 0 v))
        (λ _,
         console_log LogCommitError;;
         mret (with_error v))
    else mret v.

(** The body of the loop over the devices of [readings_daily]. *)
Definition migrateDeviceReadings (v : Vars.t)
    (entry : string * gmap string (option Reading)) : M World Vars.t :=
  let '(deviceId, readingsMap) := entry in
  new_batch;;
  let v :=
    {| Vars.totalReadings := Vars.totalReadings v; Vars.totalDevices := Vars.totalDevices v;
       Vars.errorCount := Vars.errorCount v;
       Vars.batchCount := 0; Vars.deviceReadingCount := 0 |} in
  v ← foldM (migrateReading deviceId) (JS.entries readingsMap) v;
  v ← (if (0 <? Vars.batchCount v)%nat then
         try_catch
           (batch_commit;;
            console_log (LogCommittedFinal (Vars.batchCount v));;
            mret v)
           (λ _,
            console_log LogCommitFinalError;;
            mret (with_error v))
       else mret v);
  console_log (LogDeviceTotal deviceId (Vars.deviceReadingCount v));;
  mret {| Vars.totalReadings := Vars.totalReadings v + Vars.deviceReadingCount v;
          Vars.totalDevices := S (Vars.totalDevices v);
          Vars.errorCount := Vars.errorCount v;
          Vars.batchCount := Vars.batchCount v;
          Vars.deviceReadingCount := Vars.deviceReadingCount v |}.

Definition migrateDailyReadings : M World ReadingsResult.t :=
  devices ← once "readings_daily" (λ db, default ∅ (ref_readings_daily db));
  v ← foldM migrateDeviceReadings (JS.entries devices)
        {| Vars.totalReadings := 0; Vars.totalDevices := 0; Vars.errorCount := 0;
           Vars.batchCount := 0; Vars.deviceReadingCount := 0 |};
  mret {| ReadingsResult.totalReadings := Vars.totalReadings v;
          ReadingsResult.totalDevices := Vars.totalDevices v;
          ReadingsResult.errorCount := Vars.errorCount v |}.

Record TelegramResult := { chatCount : nat; error : option JS.error }.

Definition migrateTelegramData : M World TelegramResult :=
  try_catch
    (chats ← once "telegram/active_chats" (λ db, default ∅ (ref_telegram_active_chats db));
     lastUpdateId ← once "telegram/last_update_id"
                      (λ db, default 0%Z (ref_telegram_last_update_id db));
     doc_set "telegram" "active_chats"
       (λ _, put_telegram {| Doc.chats := chats; Doc.last_update_id := lastUpdateId |});;
     console_log (LogTelegram (length (JS.keys chats)) lastUpdateId);;
     mret {| chatCount := length (JS.keys chats); error := None |})
    (λ e,
     console_log LogTelegramError;;
     mret {| chatCount := 0; error := Some e |}).

(** ** The validator *)

Definition validateMigration : M World bool :=
  rtdbUsersCount ← once "users" (λ db, length (JS.keys (default ∅ (ref_users db))));
  firestoreUsersCount ← get_size "user-data" (λ fs, size (user_data fs));
  console_log (LogUsers rtdbUsersCount firestoreUsersCount
                 (rtdbUsersCount =? firestoreUsersCount)%nat);;
  rtdbDevices ← once "devices" (λ db, default ∅ (ref_devices db));
  let rtdbDevicesCount := length (JS.keys rtdbDevices) in
  firestoreDevicesCount ← get_size "item-data" (λ fs, size (item_data fs));
  console_log (LogDevices rtdbDevicesCount firestoreDevicesCount
                 (rtdbDevicesCount =? firestoreDevicesCount)%nat);;
  (* Sample check: the first device's readings *)
  match head (JS.keys rtdbDevices) with
  | Some firstDeviceId =>
      if JS.truthy_string firstDeviceId then
        rtdbReadingsCount ←
          once ("readings_daily/" +:+ firstDeviceId)
            (λ db, length (JS.keys
                     (default ∅ (default ∅ (ref_readings_daily db) !! firstDeviceId))));
        firestoreReadingsCount ←
          get_size ("item-data/" +:+ firstDeviceId +:+ "/daily")
            (λ fs, size (default ∅ (daily fs !! firstDeviceId)));
        console_log (LogSample firstDeviceId rtdbReadingsCount firestoreReadingsCount
                       (rtdbReadingsCount =? firestoreReadingsCount)%nat)
      else mret tt
  | None => mret tt
  end;;
  let isValid := (rtdbUsersCount =? firestoreUsersCount)%nat
                 && (rtdbDevicesCount =? firestoreDevicesCount)%nat in
  console_log (LogValidation isValid);;
  mret isValid.

(** ** The orchestrator

    The value returned is the code handed to [process.exit]. *)
Definition migrate : M World Z :=
  try_catch
    (usersResult ← migrateUsers;
     devicesResult ← migrateDevices;
     readingsResult ← migrateDailyReadings;
     telegramResult ← migrateTelegramData;
     isValid ← validateMigration;
     console_log (LogSummary (migratedCount usersResult) (migratedCount devicesResult)
                    (ReadingsResult.totalReadings readingsResult)
                    (chatCount telegramResult) isValid);;
     mret (if (isValid : bool) then 0%Z else 1%Z))
    (λ _,
     console_log LogCritical;;
     mret 1%Z).

End Migrate.

(* ================================================================== *)
(** * scripts/test-energy-alerts.ts: the alert evaluator *)
(* ================================================================== *)

Module Alerts.
Import Eff.

Record DeviceData := {
  name : string;
  energyLimit : option JS.number;
  isOn : bool;
  user_ids : option (gmap string bool);
}.

Record ReadingData := {
  energy : option JS.number;
  timestamp : option JS.number;
  voltage : option JS.number;
  current : option JS.number;
  power : option JS.number;
}.

(** [users/{id}], as far as the evaluator reads it. *)
Record UserData := { devices : option (gmap string string) }.

(** [getFirebaseData(path)]: throws when the request fails, else yields the
    JSON at the path ([None] is [null]). *)
Inductive Fetched (A : Type) :=
| RequestFailed
| Got (json : option A).
Arguments RequestFailed {A}.
Arguments Got {A} json.

Record Env := {
  TELEGRAM_BOT_TOKEN : option string;
  FIREBASE_DB_URL : option string;
  telegram_active_chats : Fetched (gmap string Registry.ChatEntry);
  all_devices : Fetched (gmap string DeviceData);
  readings_daily : string → Fetched (gmap string ReadingData);
  users : string → Fetched UserData;
  sendMessage : nat → Telegram.Request → Telegram.FetchResult;
  now_utc : string;
}.

Inductive Log :=
| LogChecking (deviceId : string)
| LogSkippedNoLimit
| LogSkippedNoReadings
| LogCurrentEnergy (text : string)
| LogOverLimit (text : string)
| LogCustomName (customName : string)
| LogBroadcasting (chats : nat)
| LogSent (chatId : JS.jsint)
| LogNotSent (chatId : JS.jsint)
| LogSendError (chatId : JS.jsint)
| LogWithinLimit
| LogDeviceError (deviceId : string)
| LogTotals (devicesChecked devicesOverLimit alertsSent activeChats : nat)
| LogError (what : string).

(** The requests posted to the Bot API, the console, and the three counters
    of [testEnergyAlerts]. *)
Record State := {
  posted : list Telegram.Request;
  console : list Log;
  devicesChecked : nat;
  devicesOverLimit : nat;
  alertsSent : nat;
}.

Definition console_log (line : Log) : M State unit :=
  modify (λ s,
    {| posted := posted s; console := console s ++ [line];
       devicesChecked := devicesChecked s; devicesOverLimit := devicesOverLimit s;
       alertsSent := alertsSent s |}).

Definition incr_devicesChecked : M State unit :=
  modify (λ s,
    {| posted := posted s; console := console s;
       devicesChecked := S (devicesChecked s); devicesOverLimit := devicesOverLimit s;
       alertsSent := alertsSent s |}).

Definition incr_devicesOverLimit : M State unit :=
  modify (λ s,
    {| posted := posted s; console := console s;
       devicesChecked := devicesChecked s; devicesOverLimit := S (devicesOverLimit s);
       alertsSent := alertsSent s |}).

Definition incr_alertsSent : M State unit :=
  modify (λ s,
    {| posted := posted s; console := console s;
       devicesChecked := devicesChecked s; devicesOverLimit := devicesOverLimit s;
       alertsSent := S (alertsSent s) |}).

(** [let devicesChecked = 0; let devicesOverLimit = 0; let alertsSent = 0;] *)
Definition declare_counters : M State unit :=
  modify (λ s,
    {| posted := posted s; console := console s;
       devicesChecked := 0; devicesOverLimit := 0; alertsSent := 0 |}).

Definition getFirebaseData {A} (r : Fetched A) : M State (option A) :=
  match r with
  | RequestFailed => throw (JS.Error "Firebase request failed")
  | Got json => mret json
  end.

Definition fetch (env : Env) (req : Telegram.Request) : M State Telegram.Response :=
  λ s,
    let s' := {| posted := posted s ++ [req]; console := console s;
                 devicesChecked := devicesChecked s;
                 devicesOverLimit := devicesOverLimit s;
                 alertsSent := alertsSent s |} in
    match sendMessage env (length (posted s)) req with
    | Telegram.NetworkError => Throw (JS.Error "fetch failed") s'
    | Telegram.Responded r => Ret r s'
    end.

Definition response_json (r : Telegram.Response) : M State (option Telegram.Body) :=
  match r with
  | Telegram.JsonError => throw (JS.Error "invalid json")
  | Telegram.Json data => mret data
  end.

Definition data_ok (data : option Telegram.Body) : M State bool :=
  match data with
  | None => throw (JS.TypeError "Cannot read properties of null (reading 'ok')")
  | Some b => mret (Telegram.ok b)
  end.

(** [Object.keys(readings).sort((a, b) => parseInt(b) - parseInt(a))]:
    the comparator.  The subtraction of two Numbers is rounded, which keeps
    the sign of the difference, and the sort reads only that sign; NaN (a key
    that is no number, or [Infinity - Infinity]) is read as [+0]. *)
Definition newest_first (a b : string) : Z :=
  match JS.parseInt_number b, JS.parseInt_number a with
  | Some x, Some y => (x - y)%Z
  | _, _ => 0%Z
  end.

Section Runtime.
Variable Number_toString : JS.number → string.

(** The script's own [sendEnergyAlert]: the same text as lib/telegram's, posted
    directly; it returns [data.ok]. *)
Definition sendEnergyAlert (env : Env) (chatId : JS.jsint) (deviceName : string)
    (currentEnergy limit : JS.number) : M State bool :=
  let message :=
    Telegram.alert_message Number_toString deviceName currentEnergy limit (now_utc env) in
  try_catch
    (response ← fetch env {| Telegram.chat_id := chatId; Telegram.text := message;
                             Telegram.parse_mode := "HTML" |};
     data ← response_json response;
     data_ok data)
    (λ _, console_log (LogError "Error sending Telegram message");; mret false).

(** The custom name of the device in its first user's list, or the device's
    own name. *)
Definition displayName (env : Env) (deviceId : string) (device : DeviceData)
  : M State string :=
  match user_ids device with
  | Some ids =>
      match JS.keys ids with
      | userId :: _ =>
          userData ← getFirebaseData (users env userId);
          match userData with
          | Some u =>
              match default ∅ (devices u) !! deviceId with
              | Some customName =>
                  if JS.truthy_string customName then
                    console_log (LogCustomName customName);;
                    mret customName
                  else mret (name device)
              | None => mret (name device)
              end
          | None => mret (name device)
          end
      | [] => mret (name device)
      end
  | None => mret (name device)
  end.

(** The body of the loop over the chat ids. *)
Definition alertChat (env : Env) (deviceDisplayName : string)
    (energy limit : JS.number) (_ : unit) (chatId : JS.jsint) : M State unit :=
  try_catch
    (sent ← sendEnergyAlert env chatId deviceDisplayName energy limit;
     if (sent : bool) then
       console_log (LogSent chatId);;
       incr_alertsSent
     else console_log (LogNotSent chatId))
    (λ _, console_log (LogSendError chatId)).

(** The body of the loop over the devices. *)
Definition checkDevice (env : Env) (chatIds : list JS.jsint) (_ : unit)
    (entry : string * DeviceData) : M State unit :=
  let '(deviceId, device) := entry in
  incr_devicesChecked;;
  console_log (LogChecking deviceId);;
  match energyLimit device with
  | Some limit =>
      if negb (JS.truthy_number limit) || PrimFloat.eqb limit 0%float then
        console_log LogSkippedNoLimit
      else
        try_catch
          (readings ← getFirebaseData (readings_daily env deviceId);
           match readings with
           | None => console_log LogSkippedNoReadings
           | Some readings =>
               match JS.sort newest_first (JS.keys readings) with
               | [] => console_log LogSkippedNoReadings
               | latestTimestamp :: _ =>
                   match readings !! latestTimestamp ≫= energy with
                   | None => throw (JS.TypeError "Cannot read properties of undefined")
                   | Some latestEnergy =>
                       console_log
                         (LogCurrentEnergy (JS.toFixed Number_toString 2 latestEnergy));;
                       if JS.gt latestEnergy limit then
                         console_log
                           (LogOverLimit
                              (JS.toFixed Number_toString 2 (latestEnergy - limit)%float));;
                         incr_devicesOverLimit;;
                         deviceDisplayName ← displayName env deviceId device;
                         console_log (LogBroadcasting (length chatIds));;
                         foldM (alertChat env deviceDisplayName latestEnergy limit)
                           chatIds tt
                       else console_log LogWithinLimit
                   end
               end
           end)
          (λ _, console_log (LogDeviceError deviceId))
  | None => console_log LogSkippedNoLimit
  end.

(** How a run ends: [process.exit(code)] from inside the function, an early
    [return], or the summary. *)
Inductive Run :=
| Exited (code : Z)
| NoActiveChats
| NoDevices
| Completed (devicesChecked devicesOverLimit alertsSent activeChats : nat).

Definition testEnergyAlerts (env : Env) : M State Run :=
  if negb (JS.truthy_opt JS.truthy_string (TELEGRAM_BOT_TOKEN env)) then
    console_log (LogError "TELEGRAM_BOT_TOKEN is not set");;
    mret (Exited 1)
  else if negb (JS.truthy_opt JS.truthy_string (FIREBASE_DB_URL env)) then
    console_log (LogError "NEXT_PUBLIC_FIREBASE_DATABASE_URL is not set");;
    mret (Exited 1)
  else
    try_catch
      (activeChats ← getFirebaseData (telegram_active_chats env);
       match activeChats with
       | None => mret NoActiveChats
       | Some activeChats =>
           let chatIds := JS.parseInt <$> JS.keys activeChats in
           devices ← getFirebaseData (all_devices env);
           match devices with
           | None => mret NoDevices
           | Some devices =>
               declare_counters;;
               foldM (checkDevice env chatIds) (JS.entries devices) tt;;
               s ← get;
               console_log (LogTotals (devicesChecked s) (devicesOverLimit s)
                              (alertsSent s) (length chatIds));;
               mret (Completed (devicesChecked s) (devicesOverLimit s)
                       (alertsSent s) (length chatIds))
           end
       end)
      (λ _, console_log (LogError "Error during energy alerts test");; mret (Exited 1)).

End Runtime.

Definition initial : State :=
  {| posted := []; console := []; devicesChecked := 0; devicesOverLimit := 0;
     alertsSent := 0 |}.

End Alerts.

(* ================================================================== *)
(** * lib/firebase/telegram-chats.ts and the discovery script *)
(* ================================================================== *)

Module Chats.
Import Eff.

Inductive IO :=
| GetDoc
| SetDoc
| UpdateDoc
| RtdbSet (path : string)
| RestPut (path : string).

(** The two stores the registry lives in, the clock read by [Date.now()], and
    the requests that fail. *)
Record World := {
  doc : option Migrate.Doc.Telegram;             (* Firestore: telegram/active_chats *)
  active_chats : gmap string Registry.ChatEntry; (* RTDB: telegram/active_chats *)
  now : Z;
  rejects : IO → bool;
  console : list string;
}.

Definition console_error (line : string) : M World unit :=
  modify (λ w,
    {| doc := doc w; active_chats := active_chats w; now := now w;
       rejects := rejects w; console := console w ++ [line] |}).

Definition Date_now : M World Z := λ w, Ret (now w) w.

(** The property name a chat id becomes: [`${chatId}`]. *)
Definition key (chatId : Z) : string :=
  if (chatId <? 0)%Z then "-" +:+ JS.decimal (- chatId) else JS.decimal chatId.

(** [x || null] on an optional string. *)
Definition or_null (x : option string) : option string :=
  match x with
  | Some v => if JS.truthy_string v then Some v else None
  | None => None
  end.

(** ** The Firestore variant *)

Definition getDoc : M World (option Migrate.Doc.Telegram) :=
  λ w, if rejects w GetDoc then Throw (JS.Error "getDoc failed") w else Ret (doc w) w.

Definition setDoc (d : Migrate.Doc.Telegram) : M World unit :=
  λ w, if rejects w SetDoc then Throw (JS.Error "setDoc failed") w
       else Ret tt {| doc := Some d; active_chats := active_chats w; now := now w;
                      rejects := rejects w; console := console w |}.

(** [updateDoc(ref, { [`chats.${k}`]: entry })]: replaces that one nested
    field; fails when the document does not exist. *)
Definition updateDoc_chat (k : string) (entry : Registry.ChatEntry) : M World unit :=
  λ w, if rejects w UpdateDoc then Throw (JS.Error "updateDoc failed") w
       else match doc w with
            | None => Throw (JS.Error "No document to update") w
            | Some d =>
                Ret tt {| doc := Some {| Migrate.Doc.chats := <[k := entry]> (Migrate.Doc.chats d);
                                         Migrate.Doc.last_update_id :=
                                           Migrate.Doc.last_update_id d |};
                          active_chats := active_chats w; now := now w;
                          rejects := rejects w; console := console w |}
            end.

Definition truthy_Z (z : Z) : bool := negb (z =? 0)%Z.

Definition saveActiveChatId (chatId : Z) (username firstName : option string)
  : M World unit :=
  try_catch
    (now ← Date_now;
     chatDoc ← getDoc;
     match chatDoc with
     | None =>
         setDoc
           {| Migrate.Doc.chats :=
                {[ key chatId :=
                     {| Registry.chatId := chatId;
                        Registry.username := or_null username;
                        Registry.firstName := or_null firstName;
                        Registry.lastActive := now;
                        Registry.addedAt := now |} ]};
              Migrate.Doc.last_update_id := 0 |}
     | Some data =>
         updateDoc_chat (key chatId)
           {| Registry.chatId := chatId;
              Registry.username := or_null username;
              Registry.firstName := or_null firstName;
              Registry.lastActive := now;
              Registry.addedAt :=
                JS.or_else truthy_Z
                  (Registry.addedAt <$> Migrate.Doc.chats data !! key chatId) now |}
     end)
    (λ error, console_error "Error saving chat ID";; throw error).

(** ** The RTDB variant *)

(** [set(ref(db, `telegram/active_chats/${chatId}`), entry)]: the node is
    replaced. *)
Definition rtdb_set_chat (io : IO) (k : string) (entry : Registry.ChatEntry) : M World unit :=
  λ w, if rejects w io then Throw (JS.Error "write failed") w
       else Ret tt {| doc := doc w; active_chats := <[k := entry]> (active_chats w);
                      now := now w; rejects := rejects w; console := console w |}.

Definition saveActiveChatId_rtdb (chatId : Z) (username firstName : option string)
  : M World unit :=
  try_catch
    (now ← Date_now;
     rtdb_set_chat (RtdbSet ("telegram/active_chats/" +:+ key chatId)) (key chatId)
       {| Registry.chatId := chatId;
          Registry.username := or_null username;
          Registry.firstName := or_null firstName;
          Registry.lastActive := now;
          Registry.addedAt := now |})
    (λ error, console_error "Error saving chat ID";; throw error).

(** ** scripts/test-telegram-discovery.ts, the registration of a private chat
    (the [setFirebaseData] call of the update loop) *)
Definition discovery_save (chatId : Z) (username firstName : option string)
  : M World unit :=
  now ← Date_now;
  rtdb_set_chat (RestPut ("/telegram/active_chats/" +:+ key chatId)) (key chatId)
    {| Registry.chatId := chatId;
       Registry.username := or_null username;
       Registry.firstName := or_null firstName;
       Registry.lastActive := now;
       Registry.addedAt := now |}.

End Chats.

(* ================================================================== *)
(** * lib/firebase/telegram-chats.ts: reading and cleaning the registry *)
(* ================================================================== *)

Module ChatStore.
Import Eff.

(** The document [telegram/active_chats] of Firestore as these functions find
    it: an entry of [chats] may be [null]; a missing [chats] reads as [{}] and
    a missing [last_update_id] as [0], which is how every function of the file
    reads them. *)
Record Doc := {
  chats : gmap string (option Registry.ChatEntry);
  last_update_id : Z;
}.

Inductive IO :=
| GetDoc
| SetDoc
| UpdateDoc
| RtdbGet (path : string)
| RtdbSet (path : string)
| RtdbUpdate.

(** The two stores, the clock read by [Date.now()], and the requests that
    fail.  In the Realtime Database a node without children does not exist, so
    the empty map is the absent [telegram/active_chats]. *)
Record World := {
  doc : option Doc;                               (* Firestore: telegram/active_chats *)
  active_chats : gmap string Registry.ChatEntry;  (* RTDB: telegram/active_chats *)
  rtdb_last_update_id : option Z;                 (* RTDB: telegram/last_update_id *)
  now : Z;
  rejects : IO → bool;
  console : list string;
}.

Definition console_error (line : string) : M World unit :=
  modify (λ w,
    {| doc := doc w; active_chats := active_chats w;
       rtdb_last_update_id := rtdb_last_update_id w; now := now w;
       rejects := rejects w; console := console w ++ [line] |}).

Definition Date_now : M World Z := λ w, Ret (now w) w.

Definition set_doc (d : Doc) (w : World) : World :=
  {| doc := Some d; active_chats := active_chats w;
     rtdb_last_update_id := rtdb_last_update_id w; now := now w;
     rejects := rejects w; console := console w |}.

Definition set_active_chats (m : gmap string Registry.ChatEntry) (w : World) : World :=
  {| doc := doc w; active_chats := m;
     rtdb_last_update_id := rtdb_last_update_id w; now := now w;
     rejects := rejects w; console := console w |}.

Definition set_rtdb_last_update_id (v : option Z) (w : World) : World :=
  {| doc := doc w; active_chats := active_chats w;
     rtdb_last_update_id := v; now := now w;
     rejects := rejects w; console := console w |}.

(** ** The Firestore variant *)

(** [await getDoc(chatDocRef)]: [None] when [!chatDoc.exists()]. *)
Definition getDoc : M World (option Doc) :=
  λ w, if rejects w GetDoc then Throw (JS.Error "getDoc failed") w else Ret (doc w) w.

Definition setDoc (d : Doc) : M World unit :=
  λ w, if rejects w SetDoc then Throw (JS.Error "setDoc failed") w
       else Ret tt (set_doc d w).

(** A property name that is one segment of a field path: not empty, and
    without the dot that separates segments and the characters a path must
    not contain. *)
Definition field_name (k : string) : bool :=
  negb (String.eqb k "")
  && forallb (λ c, negb (bool_decide (c ∈ ["."; "~"; "*"; "/"; "["; "]"]%char)))
       (list_ascii_of_string k).

(** [updateDoc(ref, { last_update_id: v })] *)
Definition updateDoc_last_update_id (v : Z) : M World unit :=
  λ w, if rejects w UpdateDoc then Throw (JS.Error "updateDoc failed") w
       else match doc w with
            | None => Throw (JS.Error "No document to update") w
            | Some d => Ret tt (set_doc {| chats := chats d; last_update_id := v |} w)
            end.

(** [updateDoc(ref, updates)] where [updates] maps [`chats.${k}`] to [null]
    for each [k] of [ks]: the fields are set to [null], not deleted (that
    takes [deleteField()]).  The keys of the registry are chat ids in decimal;
    a key that is no single path segment would address another field or be
    refused, and is refused here. *)
Definition updateDoc_null (ks : list string) : M World unit :=
  λ w, if rejects w UpdateDoc then Throw (JS.Error "updateDoc failed") w
       else if negb (forallb field_name ks) then Throw (JS.Error "Invalid field path") w
       else match doc w with
            | None => Throw (JS.Error "No document to update") w
            | Some d =>
                Ret tt (set_doc {| chats := foldr (λ k m, <[k := None]> m) (chats d) ks;
                                   last_update_id := last_update_id d |} w)
            end.

Definition getAllActiveChatIds : M World (list JS.jsint) :=
  try_catch
    (chatDoc ← getDoc;
     match chatDoc with
     | None => mret []
     | Some data => mret (JS.parseInt <$> JS.keys (chats data))
     end)
    (λ _, console_error "Error getting active chat IDs";; mret []).

Definition getLastUpdateId : M World Z :=
  try_catch
    (chatDoc ← getDoc;
     match chatDoc with
     | None => mret 0%Z
     | Some data => mret (JS.or_else Chats.truthy_Z (Some (last_update_id data)) 0%Z)
     end)
    (λ _, console_error "Error getting last update ID";; mret 0%Z).

Definition setLastUpdateId (updateId : Z) : M World unit :=
  try_catch
    (chatDoc ← getDoc;
     match chatDoc with
     | None => setDoc {| chats := ∅; last_update_id := updateId |}
     | Some _ => updateDoc_last_update_id updateId
     end)
    (λ error, console_error "Error setting last update ID";; throw error).

(** [Date.now() - daysOld * 24 * 60 * 60 * 1000], for a whole number of
    days. *)
Definition cutoffTime (now daysOld : Z) : Z := (now - daysOld * 24 * 60 * 60 * 1000)%Z.

(** The callback of [Object.keys(chats).forEach]: [chat.lastActive] throws
    when [chat] is [null]. *)
Definition markInactive (chats : gmap string (option Registry.ChatEntry)) (cutoff : Z)
    (acc : list string * nat) (chatId : string) : M World (list string * nat) :=
  let '(updates, removedCount) := acc in
  match chats !! chatId with
  | Some (Some chat) =>
      if (Registry.lastActive chat <? cutoff)%Z
      then mret (updates ++ [chatId], S removedCount)
      else mret (updates, removedCount)
  | _ => throw (JS.TypeError "Cannot read properties of null (reading 'lastActive')")
  end.

Definition removeInactiveChats (daysOld : Z) : M World nat :=
  try_catch
    (chatDoc ← getDoc;
     match chatDoc with
     | None => mret 0
     | Some data =>
         let chats := chats data in
         now ← Date_now;
         '(updates, removedCount) ←
           foldM (markInactive chats (cutoffTime now daysOld)) (JS.keys chats) ([], 0);
         (if (0 <? removedCount)%nat then updateDoc_null updates else mret tt);;
         mret removedCount
     end)
    (λ _, console_error "Error removing inactive chats";; mret 0).

(** ** The RTDB variant *)

(** [await get(ref(db, path))] *)
Definition rtdb_get {A} (path : string) (val : World → A) : M World A :=
  λ w, if rejects w (RtdbGet path) then Throw (JS.Error "get failed") w
       else Ret (val w) w.

(** [snapshot.exists()] on a node with children. *)
Definition snapshot_exists {V} (m : gmap string V) : bool := negb (size m =? 0)%nat.

Definition getAllActiveChatIds_rtdb : M World (list JS.jsint) :=
  try_catch
    (chats ← rtdb_get "telegram/active_chats" active_chats;
     if negb (snapshot_exists chats) then mret []
     else mret (JS.parseInt <$> JS.keys chats))
    (λ _, console_error "Error getting active chat IDs";; mret []).

Definition getLastUpdateId_rtdb : M World Z :=
  try_catch
    (snapshot ← rtdb_get "telegram/last_update_id" rtdb_last_update_id;
     match snapshot with
     | None => mret 0%Z
     | Some val => mret val
     end)
    (λ _, console_error "Error getting last update ID";; mret 0%Z).

Definition setLastUpdateId_rtdb (updateId : Z) : M World unit :=
  try_catch
    (λ w, if rejects w (RtdbSet "telegram/last_update_id")
          then Throw (JS.Error "set failed") w
          else Ret tt (set_rtdb_last_update_id (Some updateId) w))
    (λ error, console_error "Error setting last update ID";; throw error).

(** [update(ref(db), updates)] where [updates] maps
    [`telegram/active_chats/${k}`] to [null] for each [k] of [ks]: one atomic
    write that deletes these nodes. *)
Definition rtdb_update_null (ks : list string) : M World unit :=
  λ w, if rejects w RtdbUpdate then Throw (JS.Error "update failed") w
       else Ret tt (set_active_chats (foldr delete (active_chats w) ks) w).

Definition markInactive_rtdb (chats : gmap string Registry.ChatEntry) (cutoff : Z)
    (acc : list string * nat) (chatId : string) : M World (list string * nat) :=
  let '(updates, removedCount) := acc in
  match chats !! chatId with
  | Some chat =>
      if (Registry.lastActive chat <? cutoff)%Z
      then mret (updates ++ [chatId], S removedCount)
      else mret (updates, removedCount)
  | None => throw (JS.TypeError "Cannot read properties of undefined (reading 'lastActive')")
  end.

Definition removeInactiveChats_rtdb (daysOld : Z) : M World nat :=
  try_catch
    (chats ← rtdb_get "telegram/active_chats" active_chats;
     if negb (snapshot_exists chats) then mret 0
     else
       now ← Date_now;
       '(updates, removedCount) ←
         foldM (markInactive_rtdb chats (cutoffTime now daysOld)) (JS.keys chats) ([], 0);
       (if (0 <? removedCount)%nat then rtdb_update_null updates else mret tt);;
       mret removedCount)
    (λ _, console_error "Error removing inactive chats";; mret 0).

End ChatStore.

(* ================================================================== *)
(** * lib/telegram, continued: the welcome message and the update poll *)
(* ================================================================== *)

Module Bot.
Import Eff.

(** ** sendWelcomeMessage *)

(** [firstName ? `Hi ${firstName}!` : 'Hi there!'] *)
Definition greeting (firstName : option string) : string :=
  match firstName with
  | Some name => if JS.truthy_string name then "Hi " +:+ name +:+ "!" else "Hi there!"
  | None => "Hi there!"
  end.

(** The welcome text: the template literal of [sendWelcomeMessage], trimmed. *)
Definition welcome_message (firstName : option string) : string :=
  let nl := Telegram.nl in
  JS.trim
    (nl +:+ greeting firstName +:+ " 👋" +:+ nl +:+
     nl +:+ "Welcome to <b>AIDE Energy Monitor Bot</b>!" +:+ nl +:+
     nl +:+ "You will receive notifications when any device exceeds its energy limit." +:+ nl +:+
     nl +:+ "Your chat has been registered for alerts. You'll be notified every 30 minutes about devices that are over their energy limits." +:+ nl +:+
     nl +:+ "To stop receiving notifications, you can block this bot anytime." +:+ nl).

Definition sendWelcomeMessage (env : Telegram.Env) (chatId : JS.jsint)
    (firstName : option string) : M Telegram.State bool :=
  Telegram.sendTelegramMessage env chatId (welcome_message firstName) "HTML".

(** ** getUpdates *)

(** An update of the Bot API, as far as the code reads it. *)
Record Chat := {
  id : Z;
  type : string;
  username : option string;
  first_name : option string;
}.

Record Message := { chat : Chat; text : option string }.

Record Update := { update_id : Z; message : option Message }.

(** The JSON body of the reply to [getUpdates]: the truthiness of [data.ok],
    [data.description], and [data.result] ([None]: missing or [null]). *)
Record Body := { ok : bool; description : string; result : option (list Update) }.

Inductive Response :=
| JsonError
| Json (data : option Body).

Inductive FetchResult :=
| NetworkError
| Responded (r : Response).

(** The query string built by [new URLSearchParams({ timeout, ...offset })]. *)
Record Query := { timeout : string; offset : option string }.

(** [timeout: number = 30]: the parameters default when left out.
    [n.toString()] on an integer: *)
Definition toString (n : Z) : string := Chats.key n.

(** [new URLSearchParams({ timeout: timeout.toString(),
                           ...(offset && { offset: offset.toString() }) })]:
    spreading a falsy [offset] ([undefined], [0]) adds nothing. *)
Definition params (offset : option Z) (timeout : Z) : Query :=
  {| timeout := toString timeout;
     offset := match offset with
               | Some o => if Chats.truthy_Z o then Some (toString o) else None
               | None => None
               end |}.

(** The bot token, and the reply of the Bot API to the [n]-th poll. *)
Record Env := {
  TELEGRAM_BOT_TOKEN : option string;
  poll : nat → Query → FetchResult;
}.

Record State := { polled : list Query; console : list string }.

Definition console_error (line : string) : M State unit :=
  modify (λ s, {| polled := polled s; console := console s ++ [line] |}).

Definition fetch (env : Env) (q : Query) : M State Response :=
  λ s,
    let s' := {| polled := polled s ++ [q]; console := console s |} in
    match poll env (length (polled s)) q with
    | NetworkError => Throw (JS.Error "fetch failed") s'
    | Responded r => Ret r s'
    end.

Definition response_json {S} (r : Response) : M S (option Body) :=
  match r with
  | JsonError => throw (JS.Error "invalid json")
  | Json data => ret data
  end.

(** [data.ok]: a TypeError when [data] is [null]. *)
Definition data_ok {S} (data : option Body) : M S Body :=
  match data with
  | None => throw (JS.TypeError "Cannot read properties of null (reading 'ok')")
  | Some b => ret b
  end.

Definition getUpdates (env : Env) (offset : option Z) (timeout : option Z)
  : M State (option (list Update)) :=
  let timeout := default 30%Z timeout in
  if negb (JS.truthy_opt JS.truthy_string (TELEGRAM_BOT_TOKEN env)) then
    console_error "TELEGRAM_BOT_TOKEN is not set";;
    mret None
  else
    try_catch
      (response ← fetch env (params offset timeout);
       data ← response_json response;
       data ← data_ok data;
       if negb (ok data) then
         console_error "Failed to get updates";;
         mret None
       else mret (result data))
      (λ _, console_error "Error getting Telegram updates";; mret None).

End Bot.

(* ================================================================== *)
(** * scripts/test-telegram-discovery.ts *)
(* ================================================================== *)

Module Discovery.
Import Eff.

(** The process environment and the services: the settings, the GET requests
    to the database that fail, the reply of the Bot API to the [n]-th poll and
    to the [n]-th message, and what [Date.now()] answers at its [n]-th call. *)
Record Env := {
  TELEGRAM_BOT_TOKEN : option string;
  FIREBASE_DB_URL : option string;
  get_fails : string → bool;
  poll : nat → Bot.Query → Bot.FetchResult;
  sendMessage : nat → Telegram.Request → Telegram.FetchResult;
  clock : nat → Z;
}.

Inductive Log :=
| LogError (what : string)
| LogLastUpdateId (lastUpdateId : Z)
| LogNoUpdates
| LogFound (updates : nat)
| LogProcessing (update_id : Z)
| LogSkippedNoMessage
| LogSkippedChat (type : string)
| LogChat (chatId : Z) (username firstName messageText : string)
| LogSaved
| LogWelcomeSent
| LogWelcomeFailed
| LogChatError (chatId : Z)
| LogUpdating (lastUpdateId latestUpdateId : Z)
| LogUpdated
| LogTotals (processed newChats : nat) (latestUpdateId : Z).

(** The database behind the REST API ([registry] holds
    [/telegram/active_chats] and the PUT requests that fail), the requests
    sent to the Bot API, the number of [Date.now()] calls so far, and the
    console. *)
Record World := {
  registry : Chats.World;
  last_update_id : option Z;          (* /telegram/last_update_id *)
  polled : list Bot.Query;
  posted : list Telegram.Request;
  ticks : nat;
  console : list Log;
}.

Definition console_log (line : Log) : M World unit :=
  modify (λ w,
    {| registry := registry w; last_update_id := last_update_id w; polled := polled w;
       posted := posted w; ticks := ticks w; console := console w ++ [line] |}).

(** [await getFirebaseData('/telegram/last_update_id')] *)
Definition get_last_update_id (env : Env) : M World (option Z) :=
  λ w, if get_fails env "/telegram/last_update_id"
       then Throw (JS.Error "Firebase request failed") w
       else Ret (last_update_id w) w.

(** [await setFirebaseData('/telegram/last_update_id', latestUpdateId)] *)
Definition put_last_update_id (latestUpdateId : Z) : M World unit :=
  λ w, if Chats.rejects (registry w) (Chats.RestPut "/telegram/last_update_id")
       then Throw (JS.Error "Firebase request failed") w
       else Ret tt {| registry := registry w; last_update_id := Some latestUpdateId;
                      polled := polled w; posted := posted w; ticks := ticks w;
                      console := console w |}.

(** The registry at the time of the next [Date.now()]. *)
Definition at_time (t : Z) (r : Chats.World) : Chats.World :=
  {| Chats.doc := Chats.doc r; Chats.active_chats := Chats.active_chats r;
     Chats.now := t; Chats.rejects := Chats.rejects r; Chats.console := Chats.console r |}.

(** [const now = Date.now(); await setFirebaseData(`/telegram/active_chats/${chatId}`, ...)]:
    the registration step, on the registry of this world. *)
Definition saveChat (env : Env) (chatId : Z) (username firstName : option string)
  : M World unit :=
  λ w,
    let at_registry r :=
      {| registry := r; last_update_id := last_update_id w; polled := polled w;
         posted := posted w; ticks := S (ticks w); console := console w |} in
    match Chats.discovery_save chatId username firstName
            (at_time (clock env (ticks w)) (registry w)) with
    | Ret _ r => Ret tt (at_registry r)
    | Throw e r => Throw e (at_registry r)
    end.

Definition fetch_updates (env : Env) (q : Bot.Query) : M World Bot.Response :=
  λ w,
    let w' := {| registry := registry w; last_update_id := last_update_id w;
                 polled := polled w ++ [q]; posted := posted w; ticks := ticks w;
                 console := console w |} in
    match poll env (length (polled w)) q with
    | Bot.NetworkError => Throw (JS.Error "fetch failed") w'
    | Bot.Responded r => Ret r w'
    end.

(** The script's own [getUpdates]: the library's, without the token check. *)
Definition getUpdates (env : Env) (offset : option Z) (timeout : option Z)
  : M World (option (list Bot.Update)) :=
  let timeout := default 30%Z timeout in
  try_catch
    (response ← fetch_updates env (Bot.params offset timeout);
     data ← Bot.response_json response;
     data ← Bot.data_ok data;
     if negb (Bot.ok data) then
       console_log (LogError "Failed to get updates");;
       mret None
     else mret (Bot.result data))
    (λ _, console_log (LogError "Error getting Telegram updates");; mret None).

Definition fetch_message (env : Env) (req : Telegram.Request) : M World Telegram.Response :=
  λ w,
    let w' := {| registry := registry w; last_update_id := last_update_id w;
                 polled := polled w; posted := posted w ++ [req]; ticks := ticks w;
                 console := console w |} in
    match sendMessage env (length (posted w)) req with
    | Telegram.NetworkError => Throw (JS.Error "fetch failed") w'
    | Telegram.Responded r => Ret r w'
    end.

Definition message_json (r : Telegram.Response) : M World (option Telegram.Body) :=
  match r with
  | Telegram.JsonError => throw (JS.Error "invalid json")
  | Telegram.Json data => mret data
  end.

Definition message_ok (data : option Telegram.Body) : M World bool :=
  match data with
  | None => throw (JS.TypeError "Cannot read properties of null (reading 'ok')")
  | Some b => mret (Telegram.ok b)
  end.

(** The script's own [sendWelcomeMessage]: the library's text, posted
    directly; it returns [data.ok]. *)
Definition sendWelcomeMessage (env : Env) (chatId : Z) (firstName : option string)
  : M World bool :=
  let message := Bot.welcome_message firstName in
  try_catch
    (response ← fetch_message env {| Telegram.chat_id := Some chatId;
                                     Telegram.text := message;
                                     Telegram.parse_mode := "HTML" |};
     data ← message_json response;
     message_ok data)
    (λ _, console_log (LogError "Error sending welcome message");; mret false).

(** [x || d] on an optional string. *)
Definition or_text (x : option string) (d : string) : string :=
  JS.or_else JS.truthy_string x d.

(** The body of the loop over the updates, on the variables [newChatsCount]
    and [latestUpdateId]. *)
Definition processUpdate (env : Env) (vars : nat * Z) (update : Bot.Update)
  : M World (nat * Z) :=
  let '(newChatsCount, latestUpdateId) := vars in
  console_log (LogProcessing (Bot.update_id update));;
  let latestUpdateId :=
    if (latestUpdateId <? Bot.update_id update)%Z then Bot.update_id update
    else latestUpdateId in
  match Bot.message update with
  | None =>
      console_log LogSkippedNoMessage;;
      mret (newChatsCount, latestUpdateId)
  | Some message =>
      let chat := Bot.chat message in
      if negb (String.eqb (Bot.type chat) "private") then
        console_log (LogSkippedChat (Bot.type chat));;
        mret (newChatsCount, latestUpdateId)
      else
        let chatId := Bot.id chat in
        let username := Bot.username chat in
        let firstName := Bot.first_name chat in
        console_log (LogChat chatId (or_text username "none") (or_text firstName "none")
                       (or_text (Bot.text message) "[no text]"));;
        try_catch
          (saveChat env chatId username firstName;;
           console_log LogSaved;;
           sent ← sendWelcomeMessage env chatId firstName;
           if (sent : bool) then
             console_log LogWelcomeSent;;
             mret (S newChatsCount, latestUpdateId)
           else
             console_log LogWelcomeFailed;;
             mret (newChatsCount, latestUpdateId))
          (λ _,
           console_log (LogChatError chatId);;
           mret (newChatsCount, latestUpdateId))
  end.

(** How a run ends: [process.exit(1)] from inside the function, the early
    [return], or the summary. *)
Inductive Run :=
| Exited (code : Z)
| NoUpdates
| Completed (processed newChats : nat) (latestUpdateId : Z).

Definition testTelegramDiscovery (env : Env) : M World Run :=
  if negb (JS.truthy_opt JS.truthy_string (TELEGRAM_BOT_TOKEN env)) then
    console_log (LogError "TELEGRAM_BOT_TOKEN is not set");;
    mret (Exited 1)
  else if negb (JS.truthy_opt JS.truthy_string (FIREBASE_DB_URL env)) then
    console_log (LogError "NEXT_PUBLIC_FIREBASE_DATABASE_URL is not set");;
    mret (Exited 1)
  else
    try_catch
      (stored ← get_last_update_id env;
       let lastUpdateId := JS.or_else Chats.truthy_Z stored 0%Z in
       console_log (LogLastUpdateId lastUpdateId);;
       let offset := if (0 <? lastUpdateId)%Z then Some (lastUpdateId + 1)%Z else None in
       updates ← getUpdates env offset (Some 30%Z);
       match updates with
       | None | Some [] =>
           console_log LogNoUpdates;;
           mret NoUpdates
       | Some updates =>
           console_log (LogFound (length updates));;
           '(newChatsCount, latestUpdateId) ←
             foldM (processUpdate env) updates (0, lastUpdateId);
           (if (lastUpdateId <? latestUpdateId)%Z then
              console_log (LogUpdating lastUpdateId latestUpdateId);;
              put_last_update_id latestUpdateId;;
              console_log LogUpdated
            else mret tt);;
           console_log (LogTotals (length updates) newChatsCount latestUpdateId);;
           mret (Completed (length updates) newChatsCount latestUpdateId)
       end)
      (λ _, console_log (LogError "Error during discovery test");; mret (Exited 1)).

End Discovery.

(* ================================================================== *)
(** * scripts/test-send-alert.ts *)
(* ================================================================== *)

Module SendAlert.
Import Eff.

(** The settings, [/telegram/active_chats] as the REST API answers, the reply
    of the Bot API to the [n]-th message, and the wall clock as
    [toLocaleString] prints it when the [n]-th message is written. *)
Record Env := {
  TELEGRAM_BOT_TOKEN : option string;
  FIREBASE_DB_URL : option string;
  telegram_active_chats : Alerts.Fetched (gmap string Registry.ChatEntry);
  sendMessage : nat → Telegram.Request → Telegram.FetchResult;
  now_utc : nat → string;
}.

Inductive Log :=
| LogError (what : string)
| LogFound (chats : list JS.jsint)
| LogSending (chatId : JS.jsint)
| LogSent
| LogFailed
| LogTotals (totalChats alertsSent : nat).

Record State := { posted : list Telegram.Request; console : list Log }.

Definition console_log (line : Log) : M State unit :=
  modify (λ s, {| posted := posted s; console := console s ++ [line] |}).

Definition getFirebaseData {A} (r : Alerts.Fetched A) : M State (option A) :=
  match r with
  | Alerts.RequestFailed => throw (JS.Error "Firebase request failed")
  | Alerts.Got json => mret json
  end.

Definition fetch (env : Env) (req : Telegram.Request) : M State Telegram.Response :=
  λ s,
    let s' := {| posted := posted s ++ [req]; console := console s |} in
    match sendMessage env (length (posted s)) req with
    | Telegram.NetworkError => Throw (JS.Error "fetch failed") s'
    | Telegram.Responded r => Ret r s'
    end.

Definition response_json (r : Telegram.Response) : M State (option Telegram.Body) :=
  match r with
  | Telegram.JsonError => throw (JS.Error "invalid json")
  | Telegram.Json data => mret data
  end.

Definition data_ok (data : option Telegram.Body) : M State bool :=
  match data with
  | None => throw (JS.TypeError "Cannot read properties of null (reading 'ok')")
  | Some b => mret (Telegram.ok b)
  end.

Section Runtime.
Variable Number_toString : JS.number → string.

(** The script's own [sendEnergyAlert]: the library's text, posted directly;
    it returns [data.ok]. *)
Definition sendEnergyAlert (env : Env) (chatId : JS.jsint) (deviceName : string)
    (currentEnergy limit : JS.number) : M State bool :=
  λ s,
    let message :=
      Telegram.alert_message Number_toString deviceName currentEnergy limit
        (now_utc env (length (posted s))) in
    try_catch
      (response ← fetch env {| Telegram.chat_id := chatId; Telegram.text := message;
                               Telegram.parse_mode := "HTML" |};
       data ← response_json response;
       data_ok data)
      (λ _, console_log (LogError "Error sending Telegram message");; mret false) s.

(** [dummyData] *)
Definition dummy_deviceName : string := "Living Room AC (TEST)".
Definition dummy_currentEnergy : JS.number := 1250.50%float.
Definition dummy_limit : JS.number := 1000.00%float.

(** The body of the loop over the chat ids, on the variable [successCount]. *)
Definition alertChat (env : Env) (successCount : nat) (chatId : JS.jsint) : M State nat :=
  console_log (LogSending chatId);;
  sent ← sendEnergyAlert env chatId dummy_deviceName dummy_currentEnergy dummy_limit;
  if (sent : bool) then
    console_log LogSent;;
    mret (S successCount)
  else
    console_log LogFailed;;
    mret successCount.

(** How a run ends: [process.exit(1)] from inside the function, the early
    [return], or the summary. *)
Inductive Run :=
| Exited (code : Z)
| NoActiveChats
| Completed (totalChats alertsSent : nat).

Definition testSendAlert (env : Env) : M State Run :=
  if negb (JS.truthy_opt JS.truthy_string (TELEGRAM_BOT_TOKEN env)) then
    console_log (LogError "TELEGRAM_BOT_TOKEN is not set");;
    mret (Exited 1)
  else if negb (JS.truthy_opt JS.truthy_string (FIREBASE_DB_URL env)) then
    console_log (LogError "NEXT_PUBLIC_FIREBASE_DATABASE_URL is not set");;
    mret (Exited 1)
  else
    try_catch
      (activeChats ← getFirebaseData (telegram_active_chats env);
       match activeChats with
       | None => mret NoActiveChats
       | Some activeChats =>
           let chatIds := JS.parseInt <$> JS.keys activeChats in
           console_log (LogFound chatIds);;
           successCount ← foldM (alertChat env) chatIds 0;
           console_log (LogTotals (length chatIds) successCount);;
           mret (Completed (length chatIds) successCount)
       end)
      (λ _, console_log (LogError "Error during test");; mret (Exited 1)).

End Runtime.

End SendAlert.

(* ================================================================== *)
(** * lib/firebase/firestore.ts: the devices of a user *)
(* ================================================================== *)

Module Devices.
Import Eff.

Inductive IO :=
| GetDoc (collection id : string)
| UpdateDoc (collection id : string).

(** The destination of the migration, and the requests that fail. *)
Record World := {
  firestore : Migrate.Firestore;
  rejects : IO → bool;
}.

(** An id that is one segment of a document path: not empty and without
    slash.  ([doc(firestore, `item-data/${id}`)] throws on an empty id; an id
    with a slash names a document elsewhere or none at all, which the model
    leaves out: it refuses such an id.) *)
Definition doc_id (id : string) : bool :=
  negb (String.eqb id "")
  && forallb (λ c, negb (Ascii.eqb c "/")) (list_ascii_of_string id).

(** [doc(firestore, `${collection}/${id}`)] *)
Definition doc (collection id : string) : M World unit :=
  if doc_id id then mret tt
  else throw (JS.Error "Invalid document reference").

(** [error.message] *)
Definition message (e : JS.error) : string :=
  match e with JS.Error msg => msg | JS.TypeError msg => msg end.

(** [catch (error) { throw new Error(error instanceof Error ? error.message : ...) }]:
    whatever is thrown in these functions is an [Error]. *)
Definition rethrow {A} (e : JS.error) : M World A := throw (JS.Error (message e)).

Definition set_user_data (m : gmap string Migrate.Doc.User) (w : World) : World :=
  {| firestore :=
       {| Migrate.user_data := m;
          Migrate.item_data := Migrate.item_data (firestore w);
          Migrate.daily := Migrate.daily (firestore w);
          Migrate.telegram_active_chats := Migrate.telegram_active_chats (firestore w) |};
     rejects := rejects w |}.

Definition set_item_data (m : gmap string Migrate.Doc.Item) (w : World) : World :=
  {| firestore :=
       {| Migrate.user_data := Migrate.user_data (firestore w);
          Migrate.item_data := m;
          Migrate.daily := Migrate.daily (firestore w);
          Migrate.telegram_active_chats := Migrate.telegram_active_chats (firestore w) |};
     rejects := rejects w |}.


Definition getDoc_item (itemId : string) : M World (option Migrate.Doc.Item) :=
  λ w, if rejects w (GetDoc "item-data" itemId)
       then Throw (JS.Error "getDoc failed") w
       else Ret (Migrate.item_data (firestore w) !! itemId) w.

(** [await updateDoc(userRef, ...)]: the document must exist. *)
Definition updateDoc_user (userId : string) (f : Migrate.Doc.User → Migrate.Doc.User)
  : M World unit :=
  λ w, if rejects w (UpdateDoc "user-data" userId)
       then Throw (JS.Error "updateDoc failed") w
       else match Migrate.user_data (firestore w) !! userId with
            | None => Throw (JS.Error "No document to update") w
            | Some u =>
                Ret tt (set_user_data (<[userId := f u]> (Migrate.user_data (firestore w))) w)
            end.

Definition updateDoc_item (itemId : string) (f : Migrate.Doc.Item → Migrate.Doc.Item)
  : M World unit :=
  λ w, if rejects w (UpdateDoc "item-data" itemId)
       then Throw (JS.Error "updateDoc failed") w
       else match Migrate.item_data (firestore w) !! itemId with
            | None => Throw (JS.Error "No document to update") w
            | Some d =>
                Ret tt (set_item_data (<[itemId := f d]> (Migrate.item_data (firestore w))) w)
            end.

(** The field path [`devices.${itemId}`] is well formed when [itemId] is one
    segment of it. *)
Definition devices_field (itemId : string) : M World unit :=
  if ChatStore.field_name itemId then mret tt
  else throw (JS.Error "Invalid field path").

(** [{ [`devices.${itemId}`]: name }] and [{ [`devices.${itemId}`]: deleteField() }] *)
Definition set_device (itemId name : string) (u : Migrate.Doc.User) : Migrate.Doc.User :=
  {| Migrate.Doc.email := Migrate.Doc.email u;
     Migrate.Doc.username := Migrate.Doc.username u;
     Migrate.Doc.devices := <[itemId := name]> (Migrate.Doc.devices u) |}.

Definition delete_device (itemId : string) (u : Migrate.Doc.User) : Migrate.Doc.User :=
  {| Migrate.Doc.email := Migrate.Doc.email u;
     Migrate.Doc.username := Migrate.Doc.username u;
     Migrate.Doc.devices := delete itemId (Migrate.Doc.devices u) |}.

Definition set_user_ids (f : list string → list string) (d : Migrate.Doc.Item)
  : Migrate.Doc.Item :=
  {| Migrate.Doc.name := Migrate.Doc.name d;
     Migrate.Doc.isOn := Migrate.Doc.isOn d;
     Migrate.Doc.energyLimit := Migrate.Doc.energyLimit d;
     Migrate.Doc.last_updated := Migrate.Doc.last_updated d;
     Migrate.Doc.user_ids := f (Migrate.Doc.user_ids d) |}.

(** [arrayUnion(x)]: appended unless already there.  [arrayRemove(x)]: every
    occurrence removed. *)
Definition arrayUnion (x : string) (l : list string) : list string :=
  if bool_decide (x ∈ l) then l else l ++ [x].

Definition arrayRemove (x : string) (l : list string) : list string :=
  filter (λ y, y ≠ x) l.

Definition set_energyLimit (limit : JS.number) (d : Migrate.Doc.Item) : Migrate.Doc.Item :=
  {| Migrate.Doc.name := Migrate.Doc.name d;
     Migrate.Doc.isOn := Migrate.Doc.isOn d;
     Migrate.Doc.energyLimit := limit;
     Migrate.Doc.last_updated := Migrate.Doc.last_updated d;
     Migrate.Doc.user_ids := Migrate.Doc.user_ids d |}.

Definition set_isOn (newState : bool) (d : Migrate.Doc.Item) : Migrate.Doc.Item :=
  {| Migrate.Doc.name := Migrate.Doc.name d;
     Migrate.Doc.isOn := newState;
     Migrate.Doc.energyLimit := Migrate.Doc.energyLimit d;
     Migrate.Doc.last_updated := Migrate.Doc.last_updated d;
     Migrate.Doc.user_ids := Migrate.Doc.user_ids d |}.

Definition getDeviceMetadata (itemId : string) : M World Migrate.Doc.Item :=
  doc "item-data" itemId;;
  snapshot ← getDoc_item itemId;
  match snapshot with
  | None => throw (JS.Error "Device not found")
  | Some data => mret data
  end.

Definition addDevice (userId itemId customName : string) : M World unit :=
  try_catch
    (doc "item-data" itemId;;
     itemSnapshot ← getDoc_item itemId;
     match itemSnapshot with
     | None => throw (JS.Error "Device ID does not exist")
     | Some _ =>
         doc "user-data" userId;;
         devices_field itemId;;
         updateDoc_user userId (set_device itemId customName);;
         updateDoc_item itemId (set_user_ids (arrayUnion userId))
     end)
    rethrow.


Definition deleteDevice (userId itemId : string) : M World unit :=
  try_catch
    (doc "user-data" userId;;
     devices_field itemId;;
     updateDoc_user userId (delete_device itemId);;
     doc "item-data" itemId;;
     updateDoc_item itemId (set_user_ids (arrayRemove userId)))
    rethrow.

Definition setEnergyLimit (itemId : string) (limit : JS.number) : M World unit :=
  try_catch
    (doc "item-data" itemId;;
     updateDoc_item itemId (set_energyLimit limit))
    rethrow.

Definition toggleDevice (itemId : string) (newState : bool) : M World unit :=
  try_catch
    (doc "item-data" itemId;;
     updateDoc_item itemId (set_isOn newState))
    rethrow.

(** ** The snapshot callback of [subscribeToDailyReadings] *)

(** A reading of the chart: [{ id: doc.id, ...doc.data() }]. *)
Abbreviation ChartReading := (string * Migrate.Doc.Daily)%type (only parsing).

(** [a.id > b.id], on the code units of the strings. *)
Definition id_gt (a b : string) : bool :=
  match String.compare a b with Gt => true | _ => false end.

(** The comparator of [readings.sort]: newest id first. *)
Definition by_id_desc (a b : ChartReading) : Z :=
  if id_gt a.1 b.1 then (-1)%Z
  else if id_gt b.1 a.1 then 1%Z
  else 0%Z.

(** [l.slice(0, end)] for an integer [end]: a negative [end] counts from the
    end of the array. *)
Definition slice0 {A} (end_ : Z) (l : list A) : list A :=
  if (end_ <? 0)%Z then take (Z.to_nat (Z.of_nat (length l) + end_)) l
  else take (Z.to_nat end_) l.

(** What [onUpdate] is called with, for the documents [docs] of the snapshot. *)
Definition dailyReadings (maxResults : Z) (docs : list ChartReading) : list ChartReading :=
  let readings := JS.sort by_id_desc docs in
  let limitedReadings := slice0 maxResults readings in
  reverse limitedReadings.

End Devices.

(* ================================================================== *)
(** * The vocabulary of the properties *)
(* ================================================================== *)

Section MigrationVocabulary.
Import Eff Migrate.

(** The source gives the device a [last_updated] that is kept: the record it
    is stored as does not depend on the time of the write. *)
Definition has_last_updated (d : RTDBDevice) : Prop :=
  JS.truthy_opt JS.truthy_value (last_updated d) = true.

(** The statement of the idempotence property: a second run, started where
    the first one ended, leaves the same device records and reports the same
    tally. *)
Definition rerun_identical (w : World) : Prop :=
  let first := migrateDevices w in
  let second := migrateDevices (state_of first) in
  item_data (firestore (state_of second)) = item_data (firestore (state_of first)) ∧
  returned second = returned first.



(** What the loop of [migrateDevices] leaves in [item-data] and in the tally,
    when no record depends on the server's clock. *)
Definition store_device (rej : IO → bool) (m : gmap string Doc.Item)
    (entry : string * RTDBDevice) : gmap string Doc.Item :=
  if rej (FsSet "item-data" entry.1) then m else <[entry.1 := device_doc entry.2]> m.

Definition tally_device (rej : IO → bool) (t : Tally) (entry : string * RTDBDevice) : Tally :=
  if rej (FsSet "item-data" entry.1)
  then {| migratedCount := migratedCount t; errorCount := S (errorCount t) |}
  else {| migratedCount := S (migratedCount t); errorCount := errorCount t |}.

(** The entries of a readings map that are migrated: those whose body is
    neither [null] nor [{}]. *)
Definition nonempty_entry (entry : string * option Reading) : Prop :=
  is_empty_reading entry.2 = false.

#[global] Instance nonempty_entry_dec entry : Decision (nonempty_entry entry).
Proof. unfold nonempty_entry. apply _. Defined.

Definition count_nonempty (l : list (string * option Reading)) : nat :=
  length (filter nonempty_entry l).

(** The number of non-empty readings of a device. *)
Definition non_empty_readings (readingsMap : gmap string (option Reading)) : nat :=
  count_nonempty (JS.entries readingsMap).

(** One non-empty reading: what [migrateReading] does with it when the batch
    still takes writes. *)
Definition queued (deviceId : string) (entry : string * option Reading) (w : World) : World :=
  set_batch {| writes := writes (batch w)
                         ++ [(deviceId, entry.1, reading_doc (default ∅ entry.2))];
               committed := committed (batch w) |} w.

(** Every request is served. *)
Definition all_served (w : World) : Prop := ∀ io, rejects w io = false.

(** What the readings and registry migrators leave alone: the users and the
    devices of the destination, the source, and the fate of the requests. *)
Definition frame (w : World)
  : gmap string Doc.User * gmap string Doc.Item * (IO → bool) * RTDB :=
  (user_data (firestore w), item_data (firestore w), rejects w, rtdb w).

(** No read of either store fails. *)
Definition reads_served (w : World) : Prop :=
  (∀ path, rejects w (RtdbOnce path) = false) ∧
  (∀ path, rejects w (FsGet path) = false).

(** The world with other readings, in the source and in the destination. *)
Definition with_readings
    (source : option (gmap string (gmap string (option Reading))))
    (destination : gmap string (gmap string Doc.Daily)) (w : World) : World :=
  {| rtdb := {| ref_users := ref_users (rtdb w); ref_devices := ref_devices (rtdb w);
                ref_readings_daily := source;
                ref_telegram_active_chats := ref_telegram_active_chats (rtdb w);
                ref_telegram_last_update_id := ref_telegram_last_update_id (rtdb w) |};
     firestore := {| user_data := user_data (firestore w);
                     item_data := item_data (firestore w);
                     daily := destination;
                     telegram_active_chats := telegram_active_chats (firestore w) |};
     clock := clock w; rejects := rejects w; reuse_rejected := reuse_rejected w;
     batch := batch w; commits := commits w; console := console w |}.

(** The sample line the validator prints for a device. *)
Definition sample_line (w : World) (id : string) : Log :=
  let rtdbCount :=
    size (default ∅ (default ∅ (ref_readings_daily (rtdb w)) !! id)) in
  let firestoreCount := size (default ∅ (daily (firestore w) !! id)) in
  LogSample id rtdbCount firestoreCount (rtdbCount =? firestoreCount)%nat.

(** The four migrators, in the order [migrate] runs them. *)
Definition migrators : M World (Tally * Tally * ReadingsResult.t * TelegramResult) :=
  usersResult ← migrateUsers;
  devicesResult ← migrateDevices;
  readingsResult ← migrateDailyReadings;
  telegramResult ← migrateTelegramData;
  mret (usersResult, devicesResult, readingsResult, telegramResult).

End MigrationVocabulary.

Section AlertVocabulary.
Import Eff Alerts.
Variable Number_toString : JS.number → string.

(** The message as the chat receives it. *)
Definition alert_text (deviceName : string) (currentEnergy limit : JS.number)
    (timestamp : string) : string :=
  let nl := Telegram.nl in
  let fixed2 := JS.toFixed Number_toString 2 in
  "⚠️ <b>Energy Limit Exceeded</b>" +:+ nl +:+
  nl +:+ "Device: <b>" +:+ deviceName +:+ "</b>" +:+
  nl +:+ "Current: <b>" +:+ fixed2 currentEnergy +:+ " kWh</b>" +:+
  nl +:+ "Limit: <b>" +:+ fixed2 limit +:+ " kWh</b>" +:+
  nl +:+ "Over by: <b>" +:+ fixed2 (currentEnergy - limit)%float +:+ " kWh</b>" +:+
  nl +:+
  nl +:+ "Time: " +:+ timestamp +:+ " UTC" +:+
  nl +:+
  nl +:+ "Please check your device to reduce energy consumption.".


(** The request an alert for one chat posts. *)
Definition alert_request (env : Env) (deviceName : string) (energy limit : JS.number)
    (chatId : JS.jsint) : Telegram.Request :=
  {| Telegram.chat_id := chatId;
     Telegram.text :=
       Telegram.alert_message Number_toString deviceName energy limit (now_utc env);
     Telegram.parse_mode := "HTML" |}.



(** The name an alert shows: the custom name the first user of the device
    gave it, else the device's own name; [None] when the lookup of that user
    fails. *)
Definition display_name (env : Env) (deviceId : string) (device : DeviceData)
  : option string :=
  match user_ids device with
  | Some ids =>
      match JS.keys ids with
      | userId :: _ =>
          match users env userId with
          | RequestFailed => None
          | Got (Some u) =>
              match default ∅ (devices u) !! deviceId with
              | Some customName =>
                  Some (if JS.truthy_string customName then customName else name device)
              | None => Some (name device)
              end
          | Got None => Some (name device)
          end
      | [] => Some (name device)
      end
  | None => Some (name device)
  end.

(** The energy of the reading the evaluator takes for the latest one. *)
Definition latest_energy (readings : gmap string ReadingData) : option JS.number :=
  match JS.sort newest_first (JS.keys readings) with
  | [] => None
  | latestTimestamp :: _ => readings !! latestTimestamp ≫= energy
  end.

(** The decision of the evaluator for one device: the energy and the limit of
    the alert that is due, if one is. *)
Definition due_alert (env : Env) (deviceId : string) (device : DeviceData)
  : option (JS.number * JS.number) :=
  match energyLimit device with
  | Some limit =>
      if negb (JS.truthy_number limit) || PrimFloat.eqb limit 0%float then None
      else
        match readings_daily env deviceId with
        | Got (Some readings) =>
            match latest_energy readings with
            | Some latestEnergy =>
                if JS.gt latestEnergy limit then Some (latestEnergy, limit) else None
            | None => None
            end
        | _ => None
        end
  | None => None
  end.

(** The requests the evaluation of one device posts: the alert that is due,
    once to every chat, unless the name lookup failed. *)
Definition broadcast (env : Env) (chatIds : list JS.jsint) (deviceId : string)
    (device : DeviceData) (latestEnergy limit : JS.number) : list Telegram.Request :=
  match display_name env deviceId device with
  | Some deviceName => alert_request env deviceName latestEnergy limit <$> chatIds
  | None => []
  end.

Definition device_alerts (env : Env) (chatIds : list JS.jsint)
    (entry : string * DeviceData) : list Telegram.Request :=
  match due_alert env entry.1 entry.2 with
  | Some (latestEnergy, limit) => broadcast env chatIds entry.1 entry.2 latestEnergy limit
  | None => []
  end.

(** The requests a whole run posts. *)
Definition run_alerts (env : Env) : list Telegram.Request :=
  if JS.truthy_opt JS.truthy_string (TELEGRAM_BOT_TOKEN env)
     && JS.truthy_opt JS.truthy_string (FIREBASE_DB_URL env)
  then
    match telegram_active_chats env, all_devices env with
    | Got (Some activeChats), Got (Some devices) =>
        concat (device_alerts env (JS.parseInt <$> JS.keys activeChats)
                  <$> JS.entries devices)
    | _, _ => []
    end
  else [].

(** The settings the script needs are there. *)
Definition configured (env : Env) : Prop :=
  JS.truthy_opt JS.truthy_string (TELEGRAM_BOT_TOKEN env) = true ∧
  JS.truthy_opt JS.truthy_string (FIREBASE_DB_URL env) = true.





End AlertVocabulary.

(** Every request of the registry functions is served. *)
Definition served (w : Chats.World) : Prop := ∀ io, Chats.rejects w io = false.

(** ** For the registry functions *)

Section RegistryVocabulary.
Import ChatStore.

(** Every request is served. *)
Definition store_served (w : World) : Prop := ∀ io, rejects w io = false.

(** The registry document as the save function leaves it, seen by the
    functions that read it. *)
Definition registry_doc (d : Migrate.Doc.Telegram) : Doc :=
  {| chats := Some <$> Migrate.Doc.chats d;
     last_update_id := Migrate.Doc.last_update_id d |}.

(** The chat was last active before the cutoff. *)
Definition stale (cutoff : Z) (chat : Registry.ChatEntry) : bool :=
  (Registry.lastActive chat <? cutoff)%Z.

(** What the cleanup of the Firestore variant leaves of an entry. *)
Definition nulled (cutoff : Z) (entry : option Registry.ChatEntry)
  : option Registry.ChatEntry :=
  match entry with
  | Some chat => if stale cutoff chat then None else Some chat
  | None => None
  end.

(** The key holds an entry the cleanup marks: one last active before the
    cutoff. *)
Definition stale_key (chats : gmap string Registry.ChatEntry) (cutoff : Z)
    (k : string) : bool :=
  from_option (stale cutoff) false (chats !! k).

Definition stale_entry (chats : gmap string (option Registry.ChatEntry)) (cutoff : Z)
    (k : string) : bool :=
  from_option (from_option (stale cutoff) false) false (chats !! k).

(** No entry of the registry is [null]. *)
Definition no_null (d : Doc) : Prop := ∀ k entry, chats d !! k = Some entry → is_Some entry.

(** Every key of the registry is one path segment. *)
Definition plain_keys (d : Doc) : Prop := ∀ k, k ∈ dom (chats d) → field_name k = true.

End RegistryVocabulary.

(** ** For the welcome message and the update poll *)

(** The welcome as the chat receives it. *)
Definition welcome_text (firstName : option string) : string :=
  let nl := Telegram.nl in
  Bot.greeting firstName +:+ " 👋" +:+ nl +:+
  nl +:+ "Welcome to <b>AIDE Energy Monitor Bot</b>!" +:+ nl +:+
  nl +:+ "You will receive notifications when any device exceeds its energy limit." +:+ nl +:+
  nl +:+ "Your chat has been registered for alerts. You'll be notified every 30 minutes about devices that are over their energy limits." +:+ nl +:+
  nl +:+ "To stop receiving notifications, you can block this bot anytime.".

(** The updates a reply to [getUpdates] carries: those of a body that says
    [ok]. *)
Definition reply_updates (reply : Bot.FetchResult) : option (list Bot.Update) :=
  match reply with
  | Bot.Responded (Bot.Json (Some data)) => if Bot.ok data then Bot.result data else None
  | _ => None
  end.

(** ** For the discovery script *)

Section DiscoveryVocabulary.
Import Discovery.

(** The settings the script needs are there. *)
Definition discovery_configured (env : Env) : Prop :=
  JS.truthy_opt JS.truthy_string (TELEGRAM_BOT_TOKEN env) = true ∧
  JS.truthy_opt JS.truthy_string (FIREBASE_DB_URL env) = true.

(** The cursor as a run reads it: [(stored) || 0]. *)
Definition cursor (w : World) : Z := JS.or_else Chats.truthy_Z (last_update_id w) 0%Z.

(** The offset a run asks the Bot API for. *)
Definition next_offset (w : World) : option Z :=
  if (0 <? cursor w)%Z then Some (cursor w + 1)%Z else None.

(** The largest update id among a cursor and a list of updates. *)
Definition latest_id (from : Z) (updates : list Bot.Update) : Z :=
  foldl (λ latest update, Z.max latest (Bot.update_id update)) from updates.

(** The chat of an update that carries a message of a private chat. *)
Definition private_chat (update : Bot.Update) : option Bot.Chat :=
  match Bot.message update with
  | Some message =>
      if String.eqb (Bot.type (Bot.chat message)) "private"
      then Some (Bot.chat message) else None
  | None => None
  end.

(** The node a chat is registered at. *)
Definition chat_path (chat : Bot.Chat) : string :=
  "/telegram/active_chats/" +:+ Chats.key (Bot.id chat).

(** The private chats of the updates whose registration is accepted. *)
Definition accepted (r : Chats.World) (updates : list Bot.Update) : list Bot.Chat :=
  filter (λ chat, Chats.rejects r (Chats.RestPut (chat_path chat)) = false)
    (omap private_chat updates).

(** The welcome a chat is sent. *)
Definition welcome_request (chat : Bot.Chat) : Telegram.Request :=
  {| Telegram.chat_id := Some (Bot.id chat);
     Telegram.text := Bot.welcome_message (Bot.first_name chat);
     Telegram.parse_mode := "HTML" |}.

(** The updates the poll of a run brings, when the run gets that far. *)
Definition polled_updates (env : Env) (w : World) : list Bot.Update :=
  if JS.truthy_opt JS.truthy_string (TELEGRAM_BOT_TOKEN env)
     && JS.truthy_opt JS.truthy_string (FIREBASE_DB_URL env)
     && negb (get_fails env "/telegram/last_update_id")
  then
    match poll env (length (polled w)) (Bot.params (next_offset w) 30) with
    | Bot.Responded (Bot.Json (Some data)) =>
        if Bot.ok data then default [] (Bot.result data) else []
    | _ => []
    end
  else [].

(** How a run may change the registry: a key is as before, or holds the
    entry of one of the chats, both its times being the time of the
    registration. *)
Definition registered_from (chats : list Bot.Chat)
    (before after : gmap string Registry.ChatEntry) : Prop :=
  ∀ k, after !! k = before !! k ∨
       ∃ chat entry,
         chat ∈ chats ∧ k = Chats.key (Bot.id chat) ∧ after !! k = Some entry ∧
         Registry.chatId entry = Bot.id chat ∧
         Registry.addedAt entry = Registry.lastActive entry.

End DiscoveryVocabulary.

(** ** For the dummy alert *)

Section SendAlertVocabulary.
Import SendAlert.

(** The dummy alert as a chat receives it. *)
Definition dummy_text (timestamp : string) : string :=
  let nl := Telegram.nl in
  "⚠️ <b>Energy Limit Exceeded</b>" +:+ nl +:+
  nl +:+ "Device: <b>Living Room AC (TEST)</b>" +:+
  nl +:+ "Current: <b>1250.50 kWh</b>" +:+
  nl +:+ "Limit: <b>1000.00 kWh</b>" +:+
  nl +:+ "Over by: <b>250.50 kWh</b>" +:+
  nl +:+
  nl +:+ "Time: " +:+ timestamp +:+ " UTC" +:+
  nl +:+
  nl +:+ "Please check your device to reduce energy consumption.".

(** The requests a broadcast to [chatIds] posts, the first of them being the
    [start]-th message. *)
Definition dummy_requests (env : Env) (start : nat) (chatIds : list JS.jsint)
  : list Telegram.Request :=
  imap (λ i chatId,
          {| Telegram.chat_id := chatId;
             Telegram.text := dummy_text (now_utc env (start + i));
             Telegram.parse_mode := "HTML" |}) chatIds.

(** The Bot API accepts every message. *)
Definition accepts_all (env : Env) : Prop :=
  ∀ n req, ∃ body,
    sendMessage env n req = Telegram.Responded (Telegram.Json (Some body)) ∧
    Telegram.ok body = true.

(** The settings the script needs are there. *)
Definition send_alert_configured (env : Env) : Prop :=
  JS.truthy_opt JS.truthy_string (TELEGRAM_BOT_TOKEN env) = true ∧
  JS.truthy_opt JS.truthy_string (FIREBASE_DB_URL env) = true.

End SendAlertVocabulary.

(** ** For the devices of a user *)

Section DevicesVocabulary.
Import Devices.

(** Every request is served. *)
Definition devices_served (w : World) : Prop := ∀ io, rejects w io = false.

(** The user lists the device under [name]. *)
Definition lists_device (w : World) (userId itemId name : string) : Prop :=
  ∃ u, Migrate.user_data (firestore w) !! userId = Some u ∧
       Migrate.Doc.devices u !! itemId = Some name.

(** The device lists the user. *)
Definition lists_user (w : World) (itemId userId : string) : Prop :=
  ∃ d, Migrate.item_data (firestore w) !! itemId = Some d ∧
       userId ∈ Migrate.Doc.user_ids d.

(** Both documents exist. *)
Definition known (w : World) (userId itemId : string) : Prop :=
  is_Some (Migrate.user_data (firestore w) !! userId) ∧
  is_Some (Migrate.item_data (firestore w) !! itemId).

(** The ids are usable in a document path and in a field path. *)
Definition usable (userId itemId : string) : Prop :=
  doc_id userId = true ∧ ChatStore.field_name itemId = true.

(** [a] does not come after [b]: [a.id > b.id] is false. *)
Definition not_newer (a b : string * Migrate.Doc.Daily) : Prop := id_gt a.1 b.1 = false.

End DevicesVocabulary.

Section PartialMigrationVocabulary.
Import Eff Migrate.

(** The users of the source, and the document a user is stored as. *)
Definition source_users (w : World) : gmap string RTDBUser :=
  default ∅ (ref_users (rtdb w)).

Definition user_doc (user : RTDBUser) : Doc.User :=
  {| Doc.email := email user;
     Doc.username := username user;
     Doc.devices := default ∅ (devices user) |}.

(** The write of a user's document is refused. *)
Definition user_refused (w : World) (userId : string) : Prop :=
  rejects w (FsSet "user-data" userId) = true.

#[global] Instance user_refused_dec w userId : Decision (user_refused w userId).
Proof. unfold user_refused. apply _. Defined.

(** The readings of a device in the destination. *)
Definition stored_readings (w : World) (deviceId : string) : gmap string Doc.Daily :=
  default ∅ (daily (firestore w) !! deviceId).

(** The writes the loop over a device's readings queues on the batch. *)
Definition queue (deviceId : string) (l : list (string * option Reading))
  : list (string * string * Doc.Daily) :=
  (λ entry, (deviceId, entry.1, reading_doc (default ∅ entry.2)))
    <$> filter nonempty_entry l.

(** What the destination does not hold for the readings migrator to change:
    everything but the [daily] collections. *)
Definition beside_daily (w : World)
  : gmap string Doc.User * gmap string Doc.Item * option Doc.Telegram :=
  (user_data (firestore w), item_data (firestore w), telegram_active_chats (firestore w)).

(** The registry of the source, with the defaults the migrator gives it. *)
Definition source_registry (w : World) : Doc.Telegram :=
  {| Doc.chats := default ∅ (ref_telegram_active_chats (rtdb w));
     Doc.last_update_id := default 0%Z (ref_telegram_last_update_id (rtdb w)) |}.

(** The three requests of the registry migrator. *)
Definition registry_requests : list IO :=
  [RtdbOnce "telegram/active_chats"; RtdbOnce "telegram/last_update_id";
   FsSet "telegram" "active_chats"].

End PartialMigrationVocabulary.

(* ================================================================== *)
(** * Sample inputs *)
(* ================================================================== *)

(** ** For the migration *)

(** The mapping [{ u1: true, u2: true, "": true }]. *)
Definition sample_ids : gmap string bool :=
  <["u1" := true]> (<["u2" := true]> (<["" := true]> ∅)).

(** A device without [last_updated], and the same device with one. *)
Definition sample_device : Migrate.RTDBDevice :=
  {| Migrate.name := "Living Room AC"; Migrate.isOn := Some true;
     Migrate.energyLimit := Some 1000%float; Migrate.last_updated := None;
     Migrate.user_ids := Some sample_ids |}.

Definition dated_device : Migrate.RTDBDevice :=
  {| Migrate.name := "Living Room AC"; Migrate.isOn := Some true;
     Migrate.energyLimit := Some 1000%float;
     Migrate.last_updated := Some (JS.VString "2025-01-01T00:00:00Z");
     Migrate.user_ids := Some sample_ids |}.

Definition empty_firestore : Migrate.Firestore :=
  {| Migrate.user_data := ∅; Migrate.item_data := ∅; Migrate.daily := ∅;
     Migrate.telegram_active_chats := None |}.

Definition empty_rtdb : Migrate.RTDB :=
  {| Migrate.ref_users := None; Migrate.ref_devices := None;
     Migrate.ref_readings_daily := None; Migrate.ref_telegram_active_chats := None;
     Migrate.ref_telegram_last_update_id := None |}.

Definition one_device_db : Migrate.RTDB :=
  {| Migrate.ref_users := None;
     Migrate.ref_devices := Some {[ "dev1" := sample_device ]};
     Migrate.ref_readings_daily := None; Migrate.ref_telegram_active_chats := None;
     Migrate.ref_telegram_last_update_id := None |}.

Definition dated_device_db : Migrate.RTDB :=
  {| Migrate.ref_users := None;
     Migrate.ref_devices := Some {[ "dev1" := dated_device ]};
     Migrate.ref_readings_daily := None; Migrate.ref_telegram_active_chats := None;
     Migrate.ref_telegram_last_update_id := None |}.

(** The world before a run: an empty destination, every request served, the
    Admin SDK as it is. *)
Definition world_of (db : Migrate.RTDB) : Migrate.World :=
  {| Migrate.rtdb := db; Migrate.firestore := empty_firestore; Migrate.clock := 0;
     Migrate.rejects := λ _, false; Migrate.reuse_rejected := true;
     Migrate.batch := {| Migrate.writes := []; Migrate.committed := false |};
     Migrate.commits := []; Migrate.console := [] |}.

(** The same world with an SDK that keeps queueing onto a committed batch. *)
Definition lenient (w : Migrate.World) : Migrate.World :=
  {| Migrate.rtdb := Migrate.rtdb w; Migrate.firestore := Migrate.firestore w;
     Migrate.clock := Migrate.clock w; Migrate.rejects := Migrate.rejects w;
     Migrate.reuse_rejected := false; Migrate.batch := Migrate.batch w;
     Migrate.commits := Migrate.commits w; Migrate.console := Migrate.console w |}.

(** The same world with the write of device [dev1] rejected. *)
Definition rejecting_dev1 (w : Migrate.World) : Migrate.World :=
  {| Migrate.rtdb := Migrate.rtdb w; Migrate.firestore := Migrate.firestore w;
     Migrate.clock := Migrate.clock w;
     Migrate.rejects :=
       λ io, match io with
             | Migrate.FsSet "item-data" "dev1" => true
             | _ => false
             end;
     Migrate.reuse_rejected := Migrate.reuse_rejected w; Migrate.batch := Migrate.batch w;
     Migrate.commits := Migrate.commits w; Migrate.console := Migrate.console w |}.

(** One device with 1001 readings, none of them empty. *)
Definition reading_at (i : nat) : string * option (gmap string JS.number) :=
  (JS.decimal (1700000000 + Z.of_nat i),
   Some (<["energy" := 1.5%float]> (<["power" := 230%float]> ∅))).

Definition readings_1001 : gmap string (option (gmap string JS.number)) :=
  list_to_map (reading_at <$> seq 0 1001).

Definition readings_1001_db : Migrate.RTDB :=
  {| Migrate.ref_users := None;
     Migrate.ref_devices := Some {[ "dev1" := dated_device ]};
     Migrate.ref_readings_daily := Some {[ "dev1" := readings_1001 ]};
     Migrate.ref_telegram_active_chats := None;
     Migrate.ref_telegram_last_update_id := None |}.

(** A readings map with one reading, one empty object and one [null]. *)
Definition readings_with_empty : gmap string (option (gmap string JS.number)) :=
  <["1700000000" := Some (<["energy" := 1.5%float]> ∅)]>
    (<["1700086400" := Some ∅]> (<["1700172800" := None]> ∅)).

Definition zero_vars : Migrate.Vars.t :=
  {| Migrate.Vars.totalReadings := 0; Migrate.Vars.totalDevices := 0;
     Migrate.Vars.errorCount := 0; Migrate.Vars.batchCount := 0;
     Migrate.Vars.deviceReadingCount := 0 |}.

(** ** For the alerts *)

Definition chat_42 : Registry.ChatEntry :=
  {| Registry.chatId := 42; Registry.username := Some "alice";
     Registry.firstName := Some "Alice";
     Registry.lastActive := 1700000000000; Registry.addedAt := 1700000000000 |}.

Definition ac_device (limit : option JS.number) : Alerts.DeviceData :=
  {| Alerts.name := "Living Room AC"; Alerts.energyLimit := limit;
     Alerts.isOn := true; Alerts.user_ids := None |}.

Definition reading_of (energy : JS.number) : Alerts.ReadingData :=
  {| Alerts.energy := Some energy; Alerts.timestamp := None; Alerts.voltage := None;
     Alerts.current := None; Alerts.power := None |}.

(** An older reading far above any limit, and the latest one. *)
Definition two_readings (latest : JS.number) : gmap string Alerts.ReadingData :=
  <["1700000000" := reading_of 5000%float]> (<["1700086400" := reading_of latest]> ∅).

(** One chat, one device with the given limit and latest energy, a Bot API
    that accepts every message. *)
Definition alert_env (limit : option JS.number) (latest : JS.number) : Alerts.Env :=
  {| Alerts.TELEGRAM_BOT_TOKEN := Some "123456:token";
     Alerts.FIREBASE_DB_URL := Some "https://aide.example.firebaseio.com";
     Alerts.telegram_active_chats := Alerts.Got (Some {[ "42" := chat_42 ]});
     Alerts.all_devices := Alerts.Got (Some {[ "dev1" := ac_device limit ]});
     Alerts.readings_daily := λ _, Alerts.Got (Some (two_readings latest));
     Alerts.users := λ _, Alerts.Got None;
     Alerts.sendMessage :=
       λ _ _, Telegram.Responded
                (Telegram.Json (Some {| Telegram.ok := true; Telegram.description := "" |}));
     Alerts.now_utc := "Jan 1, 2025, 12:00 AM" |}.



(** The chat and the text of every message a run posted. *)
Definition texts (o : Eff.outcome Alerts.State Alerts.Run) : list (JS.jsint * string) :=
  (λ r, (Telegram.chat_id r, Telegram.text r)) <$> Alerts.posted (Eff.state_of o).

(** ** For the registry *)

(** Chat 42 is registered in both stores since [addedAt chat_42]; it writes
    again at a later time. *)
Definition later : Z := 1700000600000.

Definition registered : Chats.World :=
  {| Chats.doc := Some {| Migrate.Doc.chats := {[ "42" := chat_42 ]};
                          Migrate.Doc.last_update_id := 7 |};
     Chats.active_chats := {[ "42" := chat_42 ]};
     Chats.now := later;
     Chats.rejects := λ _, false;
     Chats.console := [] |}.

(** [lastActive] and [addedAt] of chat 42 after a call. *)
Definition addedAt_after (o : Eff.outcome Chats.World unit)
    (registry : Chats.World → gmap string Registry.ChatEntry) : option (Z * Z) :=
  (λ entry, (Registry.lastActive entry, Registry.addedAt entry))
    <$> registry (Eff.state_of o) !! "42".

(** ** For the registry functions *)

(** Chat 7 has been silent for three years at the time [later]. *)
Definition chat_7 : Registry.ChatEntry :=
  {| Registry.chatId := 7; Registry.username := None;
     Registry.firstName := Some "Bob";
     Registry.lastActive := 1600000000000; Registry.addedAt := 1600000000000 |}.

Definition sample_doc : ChatStore.Doc :=
  {| ChatStore.chats := <["42" := Some chat_42]> {[ "7" := Some chat_7 ]};
     ChatStore.last_update_id := 7 |}.

(** Both stores hold chat 42 and chat 7; every request is served. *)
Definition sample_store : ChatStore.World :=
  {| ChatStore.doc := Some sample_doc;
     ChatStore.active_chats := <["42" := chat_42]> {[ "7" := chat_7 ]};
     ChatStore.rtdb_last_update_id := Some 7%Z;
     ChatStore.now := later;
     ChatStore.rejects := λ _, false;
     ChatStore.console := [] |}.

(** The Firestore document after a cleanup that marked chat 7. *)
Definition marked_doc : ChatStore.Doc :=
  {| ChatStore.chats := <["42" := Some chat_42]> {[ "7" := None ]};
     ChatStore.last_update_id := 7 |}.

Definition marked_store : ChatStore.World :=
  {| ChatStore.doc := Some marked_doc;
     ChatStore.active_chats := ∅;
     ChatStore.rtdb_last_update_id := None;
     ChatStore.now := later;
     ChatStore.rejects := λ _, false;
     ChatStore.console := [] |}.

(** ** For the discovery script *)

(** Update 5: Alice writes to the bot in a private chat. *)
Definition update_5 : Bot.Update :=
  {| Bot.update_id := 5;
     Bot.message :=
       Some {| Bot.chat := {| Bot.id := 42; Bot.type := "private";
                              Bot.username := Some "alice";
                              Bot.first_name := Some "Alice" |};
               Bot.text := Some "/start" |} |}.

(** Every poll brings update 5, every message is accepted. *)
Definition discovery_env : Discovery.Env :=
  {| Discovery.TELEGRAM_BOT_TOKEN := Some "123456:token";
     Discovery.FIREBASE_DB_URL := Some "https://aide.example.firebaseio.com";
     Discovery.get_fails := λ _, false;
     Discovery.poll :=
       λ _ _, Bot.Responded
                (Bot.Json (Some {| Bot.ok := true; Bot.description := "";
                                   Bot.result := Some [update_5] |}));
     Discovery.sendMessage :=
       λ _ _, Telegram.Responded
                (Telegram.Json (Some {| Telegram.ok := true; Telegram.description := "" |}));
     Discovery.clock := λ n, (later + Z.of_nat n)%Z |}.

(** Before the first run: no cursor, nothing polled, nothing posted. *)
Definition first_run : Discovery.World :=
  {| Discovery.registry := registered;
     Discovery.last_update_id := None;
     Discovery.polled := [];
     Discovery.posted := [];
     Discovery.ticks := 0;
     Discovery.console := [] |}.

(** ** For the devices of a user *)

Definition sample_item : Migrate.Doc.Item :=
  {| Migrate.Doc.name := "Living Room AC"; Migrate.Doc.isOn := true;
     Migrate.Doc.energyLimit := 1000%float;
     Migrate.Doc.last_updated := Migrate.Doc.WrittenAt 0;
     Migrate.Doc.user_ids := [] |}.

Definition sample_user (devices : gmap string string) : Migrate.Doc.User :=
  {| Migrate.Doc.email := "alice@example.com"; Migrate.Doc.username := "alice";
     Migrate.Doc.devices := devices |}.

(** User [u1] and device [dev1], the user listing the given devices; every
    request is served. *)
Definition home (devices : gmap string string) : Devices.World :=
  {| Devices.firestore :=
       {| Migrate.user_data := {[ "u1" := sample_user devices ]};
          Migrate.item_data := {[ "dev1" := sample_item ]};
          Migrate.daily := ∅;
          Migrate.telegram_active_chats := None |};
     Devices.rejects := λ _, false |}.

(** ** For the migration under failures *)

Definition user_of (name : string) : Migrate.RTDBUser :=
  {| Migrate.email := name +:+ "@example.com"; Migrate.username := name;
     Migrate.devices := None |}.

Definition two_users_db : Migrate.RTDB :=
  {| Migrate.ref_users := Some (<["u1" := user_of "alice"]> {[ "u2" := user_of "bob" ]});
     Migrate.ref_devices := None;
     Migrate.ref_readings_daily := None; Migrate.ref_telegram_active_chats := None;
     Migrate.ref_telegram_last_update_id := None |}.

(** The same world with the write of user [u2] rejected. *)
Definition rejecting_u2 (w : Migrate.World) : Migrate.World :=
  {| Migrate.rtdb := Migrate.rtdb w; Migrate.firestore := Migrate.firestore w;
     Migrate.clock := Migrate.clock w;
     Migrate.rejects :=
       λ io, match io with
             | Migrate.FsSet "user-data" "u2" => true
             | _ => false
             end;
     Migrate.reuse_rejected := Migrate.reuse_rejected w; Migrate.batch := Migrate.batch w;
     Migrate.commits := Migrate.commits w; Migrate.console := Migrate.console w |}.

(* ================================================================== *)
(** * Properties *)
(* ================================================================== *)


(** ** lib/telegram *)

Section TelegramProperties.
Import Eff Telegram.

(** C9. [sendTelegramMessage] never throws: on every input it returns a
    boolean, and the boolean is [true] exactly when the token is set, the
    request got a reply, the reply parsed to an object, and its [ok] is
    truthy. *)
Theorem sendTelegramMessage_total env chatId text parseMode s :
  ∃ b s',
    sendTelegramMessage env chatId text parseMode s = Ret b s' ∧
    (b = true ↔
       JS.truthy_opt JS.truthy_string (TELEGRAM_BOT_TOKEN env) = true ∧
       ∃ body,
         sendMessage env (length (posted s))
           {| chat_id := chatId; text := text; parse_mode := parseMode |}
         = Responded (Json (Some body)) ∧
         ok body = true).
Proof.
  unfold sendTelegramMessage.
  destruct (JS.truthy_opt JS.truthy_string (TELEGRAM_BOT_TOKEN env)) eqn:Htok; simpl.
  - unfold try_catch, mbind, M_bind, bind, fetch.
    destruct (sendMessage env _ _) as [|[|[body|]]] eqn:Hreply; simpl.
    + eexists _, _. split; [reflexivity|]. split; [discriminate|].
      intros [_ (body & [=] & _)].
    + eexists _, _. split; [reflexivity|]. split; [discriminate|].
      intros [_ (body & [=] & _)].
    + destruct (ok body) eqn:Hok; simpl.
      * eexists _, _. split; [reflexivity|]. split; [|done].
        intros _. split; [done|]. by exists body.
      * eexists _, _. split; [reflexivity|]. split; [discriminate|].
        intros [_ (body' & [= <-] & Hok')]. congruence.
    + eexists _, _. split; [reflexivity|]. split; [discriminate|].
      intros [_ (body & [=] & _)].
  - eexists _, _. split; [reflexivity|]. split; [discriminate|].
    intros [[=] _].
Qed.

End TelegramProperties.

(** ** JS objects as maps *)

Section Objects.
Context {V : Type}.
Implicit Types o : gmap string V.

Lemma keys_length o : length (JS.keys o) = size o.
Proof. unfold JS.keys, JS.entries. by rewrite length_fmap, length_map_to_list. Qed.

Lemma keys_NoDup o : NoDup (JS.keys o).
Proof. apply NoDup_fst_map_to_list. Qed.

Lemma elem_of_keys o k : k ∈ JS.keys o ↔ k ∈ dom o.
Proof.
  unfold JS.keys, JS.entries. rewrite elem_of_dom, list_elem_of_fmap. split.
  - intros ([k' v] & -> & Hin). apply elem_of_map_to_list in Hin. by exists v.
  - intros [v Hv]. exists (k, v). split; [done|]. by apply elem_of_map_to_list.
Qed.

End Objects.

Lemma truthy_string_spec s : JS.truthy_string s = true ↔ s ≠ "".
Proof.
  unfold JS.truthy_string. destruct (String.eqb_spec s ""); simpl; split; congruence.
Qed.

(** ** The devices migrator *)

Section DeviceProperties.
Import Eff Migrate.

Lemma userIdsArray_spec device :
  NoDup (userIdsArray device) ∧
  (∀ id, id ∈ userIdsArray device ↔ id ≠ "" ∧ id ∈ dom (default ∅ (user_ids device))).
Proof.
  unfold userIdsArray. destruct (user_ids device) as [ids|]; simpl.
  - split; [apply NoDup_filter, keys_NoDup|].
    intros id. rewrite list_elem_of_filter, elem_of_keys.
    rewrite <- truthy_string_spec. by rewrite Is_true_true.
  - split; [constructor|]. intros id. rewrite dom_empty_L.
    split; [by intros ?%not_elem_of_nil|by intros [_ ?%not_elem_of_empty]].
Qed.

(** C6. The [user_ids] sequence a device is written with is, up to order, the
    set of the non-empty keys of the source mapping: no duplicate, no empty
    string, whatever the order in which the source enumerates its keys; and
    it is what the destination holds once the write is accepted. *)
Theorem migrateDevice_user_ids w t deviceId device :
  (Doc.user_ids (device_doc device)
     ≡ₚ elements (dom (default ∅ (user_ids device)) ∖ {[""]})) ∧
  NoDup (Doc.user_ids (device_doc device)) ∧
  ("" ∉ Doc.user_ids (device_doc device)) ∧
  (rejects w (FsSet "item-data" deviceId) = false →
   ∃ t' w' d,
     migrateDevice t (deviceId, device) w = Ret t' w' ∧
     item_data (firestore w') !! deviceId = Some d ∧
     Doc.user_ids d = Doc.user_ids (device_doc device)).
Proof.
  destruct (userIdsArray_spec device) as [Hnd Hin]. simpl.
  split; [|split; [done|split]].
  - apply NoDup_Permutation; [done|apply NoDup_elements|].
    intros id. rewrite Hin, elem_of_elements, elem_of_difference, elem_of_singleton.
    tauto.
  - rewrite Hin. by intros [? _].
  - intros Hok.
    unfold migrateDevice, try_catch, mbind, M_bind, bind, doc_set. rewrite Hok. simpl.
    eexists _, _, _. split; [reflexivity|]. simpl.
    split; [apply lookup_insert_eq|]. done.
Qed.

End DeviceProperties.

Lemma migrateDevice_user_ids_witness :
  (Migrate.Doc.user_ids (Migrate.device_doc sample_device) ≡ₚ ["u1"; "u2"]) ∧
  ∃ t' w' d,
    Migrate.migrateDevice {| Migrate.migratedCount := 0; Migrate.errorCount := 0 |}
      ("dev1", sample_device) (world_of empty_rtdb) = Eff.Ret t' w' ∧
    Migrate.item_data (Migrate.firestore w') !! "dev1" = Some d ∧
    Migrate.Doc.user_ids d = Migrate.Doc.user_ids (Migrate.device_doc sample_device).
Proof.
  destruct (migrateDevice_user_ids (world_of empty_rtdb)
              {| Migrate.migratedCount := 0; Migrate.errorCount := 0 |}
              "dev1" sample_device) as (_ & _ & _ & Hstored).
  split.
  - vm_compute. reflexivity.
  - apply Hstored. reflexivity.
Defined.

(** The scenario of the specification: [{ u1: true, u2: true, "": true }]
    becomes [u1, u2] in some order. *)
Example userIdsArray_sample : Migrate.userIdsArray sample_device ≡ₚ ["u1"; "u2"].
Proof. vm_compute. reflexivity. Qed.

(** ** Running the devices migrator twice *)

Section Rerun.
Import Eff Migrate.

Lemma resolve_copied t d :
  has_last_updated d → resolve t (device_doc d) = device_doc d.
Proof.
  unfold has_last_updated, resolve, device_doc. simpl.
  destruct (last_updated d) as [v|]; simpl; [|discriminate].
  by intros ->.
Qed.

Lemma migrateDevice_run t entry w :
  has_last_updated entry.2 →
  ∃ w',
    migrateDevice t entry w = Ret (tally_device (rejects w) t entry) w' ∧
    item_data (firestore w') = store_device (rejects w) (item_data (firestore w)) entry ∧
    rejects w' = rejects w ∧ rtdb w' = rtdb w.
Proof.
  destruct entry as [id d]. simpl. intros Hlu.
  unfold migrateDevice, tally_device, store_device, try_catch, mbind, M_bind, bind, doc_set.
  simpl. destruct (rejects w (FsSet "item-data" id)); simpl.
  - eexists. split; [reflexivity|]. done.
  - eexists. split; [reflexivity|]. simpl. by rewrite resolve_copied.
Qed.

Lemma foldM_migrateDevice_run l :
  Forall (λ entry, has_last_updated entry.2) l →
  ∀ t w, ∃ w',
    foldM migrateDevice l t w = Ret (foldl (tally_device (rejects w)) t l) w' ∧
    item_data (firestore w')
      = foldl (store_device (rejects w)) (item_data (firestore w)) l ∧
    rejects w' = rejects w ∧ rtdb w' = rtdb w.
Proof.
  induction 1 as [|entry l Hlu _ IH]; intros t w; simpl.
  - by exists w.
  - destruct (migrateDevice_run t entry w Hlu) as (w1 & Hrun & Hitems & Hrej & Hdb).
    destruct (IH (tally_device (rejects w) t entry) w1) as (w2 & Hrun2 & Hitems2 & Hrej2 & Hdb2).
    rewrite Hrej in Hrun2, Hitems2, Hrej2. rewrite Hitems in Hitems2.
    exists w2. unfold bind. rewrite Hrun. by rewrite Hdb2.
Qed.

Lemma store_devices_union rej l :
  ∀ m, foldl (store_device rej) m l = foldl (store_device rej) ∅ l ∪ m.
Proof.
  induction l as [|entry l IH]; intros m; simpl.
  - by rewrite (left_id_L ∅ (∪)).
  - rewrite IH, (IH (store_device rej ∅ entry)). unfold store_device.
    destruct (rej _).
    + by rewrite (right_id_L ∅ (∪)).
    + rewrite <- (assoc_L (∪)). f_equal.
      by rewrite <- insert_union_l, (left_id_L ∅ (∪)).
Qed.

Lemma store_devices_idemp rej l m :
  foldl (store_device rej) (foldl (store_device rej) m l) l
  = foldl (store_device rej) m l.
Proof.
  rewrite (store_devices_union rej l (foldl _ m l)), (store_devices_union rej l m).
  by rewrite (assoc_L (∪)), (idemp_L (∪)).
Qed.

(** When every source device carries a [last_updated] value, a second run
    of the devices migrator leaves the same destination records and reports
    the same tally as the first. *)
Lemma migrateDevices_rerun_dated w :
  (∀ id d, default ∅ (ref_devices (rtdb w)) !! id = Some d → has_last_updated d) →
  rerun_identical w.
Proof.
  intros Hall. unfold rerun_identical, migrateDevices, mbind, M_bind, bind, once.
  destruct (rejects w (RtdbOnce "devices")) eqn:Hread; simpl.
  { by rewrite Hread. }
  set (l := JS.entries (default ∅ (ref_devices (rtdb w)))).
  assert (Forall (λ entry, has_last_updated entry.2) l) as Hl.
  { apply Forall_forall. intros [id d] Hin. apply (Hall id d).
    by apply elem_of_map_to_list. }
  destruct (foldM_migrateDevice_run l Hl {| migratedCount := 0; errorCount := 0 |} w)
    as (w1 & Hrun1 & Hitems1 & Hrej1 & Hdb1).
  rewrite Hrun1. simpl. rewrite Hrej1, Hread, Hdb1. fold l.
  destruct (foldM_migrateDevice_run l Hl {| migratedCount := 0; errorCount := 0 |} w1)
    as (w2 & Hrun2 & Hitems2 & Hrej2 & Hdb2).
  rewrite Hrun2. simpl. rewrite Hitems2, Hitems1, Hrej1. split; [|done].
  apply store_devices_idemp.
Qed.






End Rerun.


(** With a [last_updated] on the device, the two runs agree on everything. *)
Example migrateDevices_rerun_dated_sample : rerun_identical (world_of dated_device_db).
Proof.
  apply migrateDevices_rerun_dated. intros id d. simpl.
  intros [<- <-]%lookup_singleton_Some. reflexivity.
Qed.

(** ** The readings migrator *)

Section ReadingsProperties.
Import Eff Migrate.
#[local] Arguments Nat.leb : simpl never.
#[local] Arguments Nat.ltb : simpl never.

Lemma count_nonempty_cons entry l :
  count_nonempty (entry :: l)
  = if is_empty_reading entry.2 then count_nonempty l else S (count_nonempty l).
Proof.
  unfold count_nonempty. rewrite filter_cons.
  case_decide as Hentry; unfold nonempty_entry in Hentry.
  - by rewrite Hentry.
  - by destruct (is_empty_reading entry.2).
Qed.

Lemma migrateReading_empty deviceId v entry w :
  is_empty_reading entry.2 = true → migrateReading deviceId v entry w = Ret v w.
Proof. destruct entry as [ts r]. simpl. unfold migrateReading. by intros ->. Qed.

Lemma migrateReading_refused deviceId v entry w :
  is_empty_reading entry.2 = false →
  committed (batch w) && reuse_rejected w = true →
  migrateReading deviceId v entry w
  = Throw (JS.Error "Cannot modify a WriteBatch that has been committed.") w.
Proof.
  destruct entry as [ts r]. simpl. unfold migrateReading. intros -> Hc.
  unfold mbind, M_bind, bind, batch_set. by rewrite Hc.
Qed.

Lemma migrateReading_queued deviceId v entry w :
  is_empty_reading entry.2 = false →
  committed (batch w) && reuse_rejected w = false →
  S (Vars.batchCount v) < 500 →
  migrateReading deviceId v entry w = Ret (counted v) (queued deviceId entry w).
Proof.
  destruct entry as [ts r]. simpl. unfold migrateReading. intros -> Hc Hlt.
  unfold mbind, M_bind, bind, batch_set. rewrite Hc. simpl.
  destruct (Nat.leb_spec 500 (S (Vars.batchCount v))); [lia|done].
Qed.

Lemma migrateReading_full deviceId v entry w :
  is_empty_reading entry.2 = false →
  committed (batch w) && reuse_rejected w = false →
  500 ≤ S (Vars.batchCount v) →
  ∃ v' w',
    migrateReading deviceId v entry w = Ret v' w' ∧
    committed (batch w') = true ∧
    reuse_rejected w' = reuse_rejected w ∧
    rejects w' = rejects w ∧
    Vars.deviceReadingCount v' = S (Vars.deviceReadingCount v) ∧
    Vars.totalReadings v' = Vars.totalReadings v ∧
    Vars.totalDevices v' = Vars.totalDevices v ∧
    commits w'
    = commits w ++ [(S (length (writes (batch w))),
                     negb (rejects w (FsCommit (length (commits w)))))].
Proof.
  destruct entry as [ts r]. simpl. unfold migrateReading. intros -> Hc Hge.
  unfold mbind, M_bind, bind, batch_set. rewrite Hc. simpl.
  destruct (Nat.leb_spec 500 (S (Vars.batchCount v))); [|lia].
  unfold try_catch, bind, batch_commit. simpl.
  destruct (rejects w (FsCommit (length (commits w)))); simpl;
    eexists _, _; (split; [reflexivity|]); simpl;
    rewrite length_app; simpl; repeat split; try done; repeat f_equal; lia.
Qed.

(** What the loop over the readings preserves when it returns. *)
Lemma readings_loop_counts deviceId l :
  ∀ v w v' w',
    foldM (migrateReading deviceId) l v w = Ret v' w' →
    Vars.deviceReadingCount v' = Vars.deviceReadingCount v + count_nonempty l ∧
    Vars.totalReadings v' = Vars.totalReadings v ∧
    Vars.totalDevices v' = Vars.totalDevices v.
Proof.
  induction l as [|entry l IH]; intros v w v' w'; simpl.
  - intros [= <- <-]. unfold count_nonempty. simpl. lia.
  - rewrite count_nonempty_cons. unfold bind.
    destruct (is_empty_reading entry.2) eqn:Hempty.
    + rewrite migrateReading_empty by done. apply IH.
    + destruct (committed (batch w) && reuse_rejected w) eqn:Hc.
      * by rewrite migrateReading_refused.
      * destruct (Nat.lt_ge_cases (S (Vars.batchCount v)) 500) as [Hlt|Hge].
        -- rewrite migrateReading_queued by done. intros Hrun.
           apply IH in Hrun. simpl in Hrun. lia.
        -- destruct (migrateReading_full deviceId v entry w Hempty Hc Hge)
             as (v1 & w1 & -> & _ & _ & _ & Hn & Ht & Hd & _).
           intros Hrun. apply IH in Hrun. lia.
Qed.

(** Empty readings leave no trace: the loop does with a readings map what it
    does with its non-empty entries alone. *)
Lemma readings_loop_filter deviceId l :
  ∀ v w,
    foldM (migrateReading deviceId) l v w
    = foldM (migrateReading deviceId) (filter nonempty_entry l) v w.
Proof.
  induction l as [|entry l IH]; intros v w; [done|].
  rewrite filter_cons.
  case_decide as Hentry; unfold nonempty_entry in Hentry; simpl; unfold bind.
  - destruct (migrateReading deviceId v entry w); [apply IH|done].
  - rewrite migrateReading_empty by by destruct (is_empty_reading entry.2).
    apply IH.
Qed.

(** The loop returns when the batch is fresh enough for what is left. *)
Lemma readings_loop_returns deviceId l :
  ∀ v w,
    (committed (batch w) = true → count_nonempty l = 0) →
    (committed (batch w) = false → Vars.batchCount v + count_nonempty l ≤ 500) →
    ∃ v' w', foldM (migrateReading deviceId) l v w = Ret v' w'.
Proof.
  induction l as [|entry l IH]; intros v w Hdone Hroom; simpl.
  - by eexists _, _.
  - rewrite count_nonempty_cons in Hdone, Hroom. unfold bind.
    destruct (is_empty_reading entry.2) eqn:Hempty.
    + rewrite migrateReading_empty by done. by apply IH.
    + destruct (committed (batch w)) eqn:Hc; [by specialize (Hdone eq_refl)|].
      specialize (Hroom eq_refl).
      destruct (Nat.lt_ge_cases (S (Vars.batchCount v)) 500) as [Hlt|Hge].
      * rewrite migrateReading_queued by (done || by rewrite Hc).
        apply IH; simpl; rewrite Hc; [done|]. intros _. lia.
      * destruct (migrateReading_full deviceId v entry w Hempty) as
          (v1 & w1 & -> & Hc1 & _); [by rewrite Hc|done|].
        apply IH; rewrite Hc1; [|done]. intros _. lia.
Qed.

Lemma final_commit_returns (v : Vars.t) w :
  ∃ v' w',
    (if (0 <? Vars.batchCount v)%nat then
       try_catch
         (batch_commit;;
          console_log (LogCommittedFinal (Vars.batchCount v));;
          mret v)
         (λ _, console_log LogCommitFinalError;; mret (with_error v))
     else mret v) w = Ret v' w' ∧
    Vars.deviceReadingCount v' = Vars.deviceReadingCount v ∧
    Vars.totalReadings v' = Vars.totalReadings v ∧
    Vars.totalDevices v' = Vars.totalDevices v.
Proof.
  destruct (0 <? Vars.batchCount v)%nat; [|by eexists _, _].
  unfold try_catch, mbind, M_bind, bind, batch_commit. simpl.
  destruct (rejects w _); simpl; by eexists _, _.
Qed.

Lemma migrateDeviceReadings_returns v deviceId readingsMap w :
  non_empty_readings readingsMap ≤ 500 →
  ∃ v' w', migrateDeviceReadings v (deviceId, readingsMap) w = Ret v' w'.
Proof.
  intros Hfit. unfold migrateDeviceReadings, new_batch.
  unfold mbind at 1, M_bind at 1, bind at 1, modify at 1.
  unfold mbind at 1, M_bind at 1, bind at 1.
  edestruct (readings_loop_returns deviceId (JS.entries readingsMap)) as (v1 & w1 & ->);
    [| |]; simpl; [done|by intros _|].
  unfold mbind at 1, M_bind at 1, bind at 1.
  destruct (final_commit_returns v1 w1) as (v2 & w2 & -> & _).
  by eexists _, _.
Qed.

(** C7. A reading whose body is empty is skipped entirely: the loop passes it
    without touching the batch, the counters or the error count, so the run
    is the one over the non-empty readings alone; the total the device
    reports is the number of its non-empty readings, and it is reported as
    soon as these fit one batch. *)
Theorem empty_readings_skipped deviceId readingsMap v w :
  (∀ timestamp reading,
     is_empty_reading reading = true →
     migrateReading deviceId v (timestamp, reading) w = Ret v w) ∧
  foldM (migrateReading deviceId) (JS.entries readingsMap) v w
  = foldM (migrateReading deviceId) (filter nonempty_entry (JS.entries readingsMap)) v w ∧
  (∀ v' w',
     migrateDeviceReadings v (deviceId, readingsMap) w = Ret v' w' →
     Vars.deviceReadingCount v' = non_empty_readings readingsMap ∧
     Vars.totalReadings v' = Vars.totalReadings v + non_empty_readings readingsMap ∧
     LogDeviceTotal deviceId (non_empty_readings readingsMap) ∈ console w') ∧
  (non_empty_readings readingsMap ≤ 500 →
   ∃ v' w', migrateDeviceReadings v (deviceId, readingsMap) w = Ret v' w').
Proof.
  split; [|split; [|split]].
  - intros ts r Hempty. by apply (migrateReading_empty deviceId v (ts, r) w).
  - apply readings_loop_filter.
  - intros v' w'. unfold migrateDeviceReadings, new_batch.
    unfold mbind at 1, M_bind at 1, bind at 1, modify at 1.
    unfold mbind at 1, M_bind at 1, bind at 1.
    destruct (foldM _ _ _ _) as [v1 w1|] eqn:Hloop; [|done].
    apply readings_loop_counts in Hloop as (Hn & Ht & Hd). simpl in Hn, Ht, Hd.
    unfold mbind at 1, M_bind at 1, bind at 1.
    destruct (final_commit_returns v1 w1) as (v2 & w2 & -> & Hn2 & Ht2 & Hd2).
    unfold mbind, M_bind, bind, console_log, modify. simpl.
    intros [= <- <-]. simpl. unfold non_empty_readings.
    rewrite Hn2, Ht2, Hn, Ht. split; [done|]. split; [done|].
    apply elem_of_app. right. by apply list_elem_of_singleton.
  - apply migrateDeviceReadings_returns.
Qed.

End ReadingsProperties.

(** ** The batch is never renewed *)

Section BatchReuse.
Import Eff Migrate.
#[local] Arguments Nat.leb : simpl never.
#[local] Arguments Nat.ltb : simpl never.

Lemma readings_loop_refused deviceId l :
  ∀ v w,
    committed (batch w) = true →
    reuse_rejected w = true →
    0 < count_nonempty l →
    foldM (migrateReading deviceId) l v w
    = Throw (JS.Error "Cannot modify a WriteBatch that has been committed.") w.
Proof.
  induction l as [|entry l IH]; intros v w Hc Hsdk Hleft.
  - unfold count_nonempty in Hleft. simpl in Hleft. lia.
  - rewrite count_nonempty_cons in Hleft. simpl. unfold bind.
    destruct (is_empty_reading entry.2) eqn:Hempty.
    + rewrite migrateReading_empty by done. by apply IH.
    + rewrite migrateReading_refused; [done..|]. by rewrite Hc, Hsdk.
Qed.

Lemma readings_loop_overflow deviceId l :
  ∀ v w,
    committed (batch w) = false →
    reuse_rejected w = true →
    length (writes (batch w)) = Vars.batchCount v →
    Vars.batchCount v < 500 →
    500 < Vars.batchCount v + count_nonempty l →
    ∃ w',
      foldM (migrateReading deviceId) l v w
      = Throw (JS.Error "Cannot modify a WriteBatch that has been committed.") w' ∧
      commits w'
      = commits w ++ [(500, negb (rejects w (FsCommit (length (commits w)))))].
Proof.
  induction l as [|entry l IH]; intros v w Hc Hsdk Hlen Hroom Hover.
  - unfold count_nonempty in Hover. simpl in Hover. lia.
  - rewrite count_nonempty_cons in Hover. simpl. unfold bind.
    destruct (is_empty_reading entry.2) eqn:Hempty.
    + rewrite migrateReading_empty by done. by apply IH.
    + destruct (Nat.lt_ge_cases (S (Vars.batchCount v)) 500) as [Hlt|Hge].
      * rewrite migrateReading_queued; [|done|by rewrite Hc|done].
        destruct (IH (counted v) (queued deviceId entry w)) as (w' & -> & Hcommits);
          simpl; try done.
        -- rewrite length_app. simpl. lia.
        -- lia.
        -- by exists w'.
      * destruct (migrateReading_full deviceId v entry w Hempty) as
          (v1 & w1 & -> & Hc1 & Hsdk1 & _ & _ & _ & _ & Hcommits); [by rewrite Hc|done|].
        rewrite readings_loop_refused; [|done|congruence|lia].
        exists w1. split; [done|]. rewrite Hcommits. repeat f_equal. lia.
Qed.

(** C1 on the code.  With more than 500 non-empty readings for a device (1001
    in particular), an SDK that refuses writes to a committed batch, and no
    commit failing, the device's migration issues exactly one commit, of 500
    writes, and then throws at the next [batch.set]: the batch created before
    the loop is committed and never replaced by a new one. *)
Theorem batch_not_renewed deviceId readingsMap v w :
  reuse_rejected w = true →
  (∀ n, rejects w (FsCommit n) = false) →
  500 < non_empty_readings readingsMap →
  ∃ e w',
    migrateDeviceReadings v (deviceId, readingsMap) w = Throw e w' ∧
    commits w' = commits w ++ [(500, true)].
Proof.
  intros Hsdk Hcommit Hmany. unfold migrateDeviceReadings, new_batch.
  unfold mbind at 1, M_bind at 1, bind at 1, modify at 1.
  unfold mbind at 1, M_bind at 1, bind at 1.
  edestruct (readings_loop_overflow deviceId (JS.entries readingsMap)) as (w' & -> & Hcommits);
    [..|eexists _, w'; split; [reflexivity|]]; simpl; try done.
  - lia.
  - rewrite Hcommits. simpl. by rewrite Hcommit.
Qed.

End BatchReuse.

Lemma readings_1001_count : non_empty_readings readings_1001 = 1001.
Proof. vm_compute. reflexivity. Qed.

Lemma batch_not_renewed_witness :
  ∃ e w',
    Migrate.migrateDeviceReadings zero_vars ("dev1", readings_1001) (world_of readings_1001_db)
    = Eff.Throw e w' ∧
    Migrate.commits w' = [(500, true)].
Proof.
  apply (batch_not_renewed "dev1" readings_1001 zero_vars (world_of readings_1001_db)).
  - reflexivity.
  - reflexivity.
  - rewrite readings_1001_count. lia.
Defined.

(** The whole script on that input: one commit of 500 writes, then the
    critical-error exit. *)
Example migrate_1001_readings :
  Eff.returned (Migrate.migrate (world_of readings_1001_db)) = Some 1%Z ∧
  Migrate.commits (Eff.state_of (Migrate.migrate (world_of readings_1001_db)))
  = [(500, true)].
Proof. vm_compute. split; reflexivity. Qed.

Example migrate_1001_readings_lenient :
  Migrate.commits
    (Eff.state_of (Migrate.migrateDailyReadings (lenient (world_of readings_1001_db))))
  = [(500, true); (1000, true); (1001, true)].
Proof. vm_compute. reflexivity. Qed.

(** ** The validator *)

Section ValidatorProperties.
Import Eff Migrate.

Lemma validateMigration_run w :
  reads_served w →
  ∃ w',
    validateMigration w
    = Ret ((size (default ∅ (ref_users (rtdb w))) =? size (user_data (firestore w)))%nat
           && (size (default ∅ (ref_devices (rtdb w))) =? size (item_data (firestore w)))%nat)
          w' ∧
    firestore w' = firestore w ∧
    (∀ id, head (JS.keys (default ∅ (ref_devices (rtdb w)))) = Some id →
           id ≠ "" → sample_line w id ∈ console w').
Proof.
  intros [Hr Hg].
  unfold validateMigration, mbind, M_bind, bind, once, get_size, console_log, modify.
  repeat (progress (rewrite ?Hr, ?Hg; simpl)). rewrite !keys_length.
  destruct (head _) as [id|] eqn:Hhead; simpl.
  - destruct (JS.truthy_string id) eqn:Hid; simpl.
    + repeat (progress (rewrite ?Hr, ?Hg; simpl)).
      eexists. split; [reflexivity|]. simpl. split; [done|].
      intros ? [= <-] _. unfold sample_line. rewrite !keys_length.
      rewrite !elem_of_app, !list_elem_of_singleton. auto.
    + eexists. split; [reflexivity|]. split; [done|]. intros ? [= <-] Hne.
      apply truthy_string_spec in Hne. congruence.
  - eexists. split; [reflexivity|]. done.
Qed.

(** C2. With [N] users and [M] devices in the source, the validator reports
    validity [true] exactly when the destination holds [N] users and [M]
    devices.  The sample device's reading counts are printed, and whatever the
    readings are, in the source or in the destination, the verdict is the
    same. *)
Theorem validateMigration_counts w N M :
  size (default ∅ (ref_users (rtdb w))) = N →
  size (default ∅ (ref_devices (rtdb w))) = M →
  reads_served w →
  ∃ isValid w',
    validateMigration w = Ret isValid w' ∧
    (isValid = true ↔
       size (user_data (firestore w)) = N ∧ size (item_data (firestore w)) = M) ∧
    (∀ id, head (JS.keys (default ∅ (ref_devices (rtdb w)))) = Some id →
           id ≠ "" → sample_line w id ∈ console w') ∧
    (∀ source destination, ∃ w'',
       validateMigration (with_readings source destination w) = Ret isValid w'').
Proof.
  intros HN HM Hserved.
  destruct (validateMigration_run w Hserved) as (w' & Hrun & _ & Hlog).
  eexists _, w'. split; [exact Hrun|]. split; [|split; [exact Hlog|]].
  - rewrite HN, HM, andb_true_iff, !Nat.eqb_eq. lia.
  - intros source destination.
    destruct (validateMigration_run (with_readings source destination w)) as (w'' & Hrun' & _);
      [done|].
    by exists w''.
Qed.

(** ** The orchestrator *)

(** C3. Every run of [migrate] ends in [process.exit]: with code 0 when the
    migrators and the validator return and the verdict is [true]; with code 1
    when the verdict is [false], and when a migrator or the validator
    throws. *)
Theorem migrate_exit_code w :
  ∃ code w',
    migrate w = Ret code w' ∧
    match migrators w with
    | Ret _ w1 =>
        match validateMigration w1 with
        | Ret true _ => code = 0%Z
        | Ret false _ => code = 1%Z
        | Throw _ _ => code = 1%Z
        end
    | Throw _ _ => code = 1%Z
    end.
Proof.
  unfold migrate, migrators, try_catch, mbind, M_bind, bind.
  destruct (migrateUsers w) as [u w1|]; simpl; [|by eexists _, _].
  destruct (migrateDevices w1) as [d w2|]; simpl; [|by eexists _, _].
  destruct (migrateDailyReadings w2) as [r w3|]; simpl; [|by eexists _, _].
  destruct (migrateTelegramData w3) as [t w4|]; simpl; [|by eexists _, _].
  destruct (validateMigration w4) as [[] w5|]; simpl; by eexists _, _.
Qed.

End ValidatorProperties.

Lemma validateMigration_counts_witness :
  ∃ isValid w',
    Migrate.validateMigration (world_of one_device_db) = Eff.Ret isValid w' ∧
    (isValid = true ↔
       size (Migrate.user_data (Migrate.firestore (world_of one_device_db))) = 0 ∧
       size (Migrate.item_data (Migrate.firestore (world_of one_device_db))) = 1) ∧
    (∀ id, head (JS.keys (default ∅ (Migrate.ref_devices
                                       (Migrate.rtdb (world_of one_device_db))))) = Some id →
           id ≠ "" → sample_line (world_of one_device_db) id ∈ Migrate.console w') ∧
    (∀ source destination, ∃ w'',
       Migrate.validateMigration (with_readings source destination (world_of one_device_db))
       = Eff.Ret isValid w'').
Proof.
  apply (validateMigration_counts (world_of one_device_db) 0 1).
  - reflexivity.
  - reflexivity.
  - split; reflexivity.
Defined.

(** ** Count conservation *)

Section CountConservation.
Import Eff Migrate.
#[local] Arguments Nat.leb : simpl never.
#[local] Arguments Nat.ltb : simpl never.

Lemma migrateUser_served t userId user w :
  rejects w (FsSet "user-data" userId) = false →
  ∃ t' w' d,
    migrateUser t (userId, user) w = Ret t' w' ∧
    user_data (firestore w') = <[userId := d]> (user_data (firestore w)) ∧
    item_data (firestore w') = item_data (firestore w) ∧
    rejects w' = rejects w ∧ rtdb w' = rtdb w.
Proof.
  intros Hok. unfold migrateUser, try_catch, mbind, M_bind, bind, doc_set.
  rewrite Hok. simpl. by eexists _, _, _.
Qed.

Lemma migrateDevice_served t deviceId device w :
  rejects w (FsSet "item-data" deviceId) = false →
  ∃ t' w' d,
    migrateDevice t (deviceId, device) w = Ret t' w' ∧
    item_data (firestore w') = <[deviceId := d]> (item_data (firestore w)) ∧
    user_data (firestore w') = user_data (firestore w) ∧
    rejects w' = rejects w ∧ rtdb w' = rtdb w.
Proof.
  intros Hok. unfold migrateDevice, try_catch, mbind, M_bind, bind, doc_set.
  rewrite Hok. simpl. by eexists _, _, _.
Qed.

Lemma users_loop_served l :
  NoDup l.*1 →
  ∀ t w,
    all_served w →
    (∀ k, k ∈ l.*1 → user_data (firestore w) !! k = None) →
    ∃ t' w',
      foldM migrateUser l t w = Ret t' w' ∧
      size (user_data (firestore w')) = size (user_data (firestore w)) + length l ∧
      item_data (firestore w') = item_data (firestore w) ∧
      rejects w' = rejects w ∧ rtdb w' = rtdb w.
Proof.
  induction l as [|[userId user] l IH]; intros Hnd t w Hserved Hfresh; cbn [foldM length].
  - exists t, w. repeat split; try done; lia.
  - apply NoDup_cons in Hnd as [Hnotin Hnd]. unfold bind at 1.
    destruct (migrateUser_served t userId user w (Hserved _))
      as (t1 & w1 & d & -> & Husers1 & Hitems1 & Hrej1 & Hdb1).
    destruct (IH Hnd t1 w1) as (t' & w' & -> & Hsize & Hitems & Hrej & Hdb).
    { intros io. by rewrite Hrej1. }
    { intros k Hk. rewrite Husers1, lookup_insert_ne; [|by intros <-].
      apply Hfresh. simpl. by apply elem_of_cons; right. }
    exists t', w'. split; [done|].
    rewrite Husers1, map_size_insert_None in Hsize;
      [|apply Hfresh; simpl; by apply elem_of_cons; left].
    repeat split; try congruence; lia.
Qed.

Lemma devices_loop_served l :
  NoDup l.*1 →
  ∀ t w,
    all_served w →
    (∀ k, k ∈ l.*1 → item_data (firestore w) !! k = None) →
    ∃ t' w',
      foldM migrateDevice l t w = Ret t' w' ∧
      size (item_data (firestore w')) = size (item_data (firestore w)) + length l ∧
      user_data (firestore w') = user_data (firestore w) ∧
      rejects w' = rejects w ∧ rtdb w' = rtdb w.
Proof.
  induction l as [|[deviceId device] l IH]; intros Hnd t w Hserved Hfresh; cbn [foldM length].
  - exists t, w. repeat split; try done; lia.
  - apply NoDup_cons in Hnd as [Hnotin Hnd]. unfold bind at 1.
    destruct (migrateDevice_served t deviceId device w (Hserved _))
      as (t1 & w1 & d & -> & Hitems1 & Husers1 & Hrej1 & Hdb1).
    destruct (IH Hnd t1 w1) as (t' & w' & -> & Hsize & Husers & Hrej & Hdb).
    { intros io. by rewrite Hrej1. }
    { intros k Hk. rewrite Hitems1, lookup_insert_ne; [|by intros <-].
      apply Hfresh. simpl. by apply elem_of_cons; right. }
    exists t', w'. split; [done|].
    rewrite Hitems1, map_size_insert_None in Hsize;
      [|apply Hfresh; simpl; by apply elem_of_cons; left].
    repeat split; try congruence; lia.
Qed.

Lemma put_daily_frame ws : ∀ fs,
  user_data (foldl put_daily fs ws) = user_data fs ∧
  item_data (foldl put_daily fs ws) = item_data fs.
Proof.
  induction ws as [|[[deviceId timestamp] d] ws IH]; intros fs; [done|].
  cbn [foldl]. destruct (IH (put_daily fs (deviceId, timestamp, d))) as [-> ->]. done.
Qed.

Lemma batch_commit_frame w : frame (state_of (batch_commit w)) = frame w.
Proof.
  unfold batch_commit, frame. destruct (rejects w _); simpl; [done|].
  by destruct (put_daily_frame (writes (batch w)) (firestore w)) as [-> ->].
Qed.

Lemma migrateReading_frame deviceId v entry w :
  frame (state_of (migrateReading deviceId v entry w)) = frame w.
Proof.
  destruct entry as [timestamp reading]. unfold migrateReading.
  destruct (is_empty_reading reading); [done|].
  unfold mbind, M_bind, bind, batch_set.
  destruct (committed (batch w) && reuse_rejected w); [done|]. simpl.
  destruct (500 <=? _)%nat; [|done].
  unfold try_catch, bind.
  match goal with |- context [batch_commit ?w1] =>
    pose proof (batch_commit_frame w1) as Hframe; destruct (batch_commit w1)
  end; simpl in *; exact Hframe.
Qed.

Lemma readings_loop_frame deviceId l :
  ∀ v w, frame (state_of (foldM (migrateReading deviceId) l v w)) = frame w.
Proof.
  induction l as [|entry l IH]; intros v w; [done|]. cbn [foldM]. unfold bind.
  pose proof (migrateReading_frame deviceId v entry w) as Hframe.
  destruct (migrateReading deviceId v entry w) as [v1 w1|]; [|done].
  simpl in Hframe. by rewrite IH.
Qed.

Lemma migrateDeviceReadings_frame v entry w :
  frame (state_of (migrateDeviceReadings v entry w)) = frame w.
Proof.
  destruct entry as [deviceId readingsMap]. unfold migrateDeviceReadings, new_batch.
  unfold mbind at 1, M_bind at 1, bind at 1, modify at 1.
  unfold mbind at 1, M_bind at 1, bind at 1.
  match goal with |- context [foldM _ ?l ?v0 ?w0] =>
    pose proof (readings_loop_frame deviceId l v0 w0) as Hloop;
    destruct (foldM _ l v0 w0) as [v1 w1|]
  end; simpl in Hloop; [|done].
  unfold mbind at 1, M_bind at 1, bind at 1.
  destruct (0 <? _)%nat.
  - unfold try_catch, mbind, M_bind, bind.
    pose proof (batch_commit_frame w1) as Hcommit.
    destruct (batch_commit w1); unfold frame in *; simpl in *; congruence.
  - unfold frame in *. simpl in *. congruence.
Qed.

Lemma devices_readings_loop l :
  (∀ entry, entry ∈ l → non_empty_readings entry.2 ≤ 500) →
  ∀ v w, ∃ v' w',
    foldM migrateDeviceReadings l v w = Ret v' w' ∧ frame w' = frame w.
Proof.
  induction l as [|[deviceId readingsMap] l IH]; intros Hfit v w; cbn [foldM].
  - by exists v, w.
  - unfold bind.
    pose proof (migrateDeviceReadings_frame v (deviceId, readingsMap) w) as Hframe.
    destruct (migrateDeviceReadings_returns v deviceId readingsMap w) as (v1 & w1 & Hrun).
    { apply (Hfit (deviceId, readingsMap)). by apply elem_of_cons; left. }
    rewrite Hrun in Hframe |- *. simpl in Hframe.
    destruct (IH (λ entry Hin, Hfit entry (proj2 (elem_of_cons _ _ _) (or_intror Hin))) v1 w1)
      as (v2 & w2 & -> & Hframe2).
    exists v2, w2. split; [done|]. congruence.
Qed.

Lemma migrateTelegramData_frame w :
  ∃ r w', migrateTelegramData w = Ret r w' ∧ frame w' = frame w.
Proof.
  unfold migrateTelegramData, try_catch, mbind, M_bind, bind, once, doc_set.
  destruct (rejects w (RtdbOnce "telegram/active_chats")); simpl; [by eexists _, _|].
  destruct (rejects w (RtdbOnce "telegram/last_update_id")); simpl; [by eexists _, _|].
  destruct (rejects w (FsSet "telegram" "active_chats")); simpl; by eexists _, _.
Qed.

(** X1. Count conservation.  From an empty destination, with every request
    served and at most 500 non-empty readings per device, the run ends with
    exit code 0 and the destination holds as many users and as many devices
    as the source. *)
Theorem migrate_conserves_counts w :
  all_served w →
  user_data (firestore w) = ∅ →
  item_data (firestore w) = ∅ →
  (∀ id readings,
     default ∅ (ref_readings_daily (rtdb w)) !! id = Some readings →
     non_empty_readings readings ≤ 500) →
  ∃ w',
    migrate w = Ret 0%Z w' ∧
    size (user_data (firestore w')) = size (default ∅ (ref_users (rtdb w))) ∧
    size (item_data (firestore w')) = size (default ∅ (ref_devices (rtdb w))).
Proof.
  intros Hserved Husers0 Hitems0 Hfit.
  unfold migrate, try_catch.
  unfold mbind at 1, M_bind at 1, bind at 1. unfold migrateUsers at 1.
  unfold mbind at 1, M_bind at 1, bind at 1, once at 1. rewrite Hserved.
  destruct (users_loop_served (JS.entries (default ∅ (ref_users (rtdb w))))
              (keys_NoDup _) {| migratedCount := 0; errorCount := 0 |} w Hserved)
    as (t1 & w1 & -> & Hsize1 & Hitems1 & Hrej1 & Hdb1).
  { intros k _. by rewrite Husers0, lookup_empty. }
  unfold mbind at 1, M_bind at 1, bind at 1. unfold migrateDevices at 1.
  unfold mbind at 1, M_bind at 1, bind at 1, once at 1. rewrite Hrej1, Hserved, Hdb1.
  destruct (devices_loop_served (JS.entries (default ∅ (ref_devices (rtdb w))))
              (keys_NoDup _) {| migratedCount := 0; errorCount := 0 |} w1)
    as (t2 & w2 & -> & Hsize2 & Husers2 & Hrej2 & Hdb2).
  { intros io. by rewrite Hrej1. }
  { intros k _. by rewrite Hitems1, Hitems0, lookup_empty. }
  unfold mbind at 1, M_bind at 1, bind at 1. unfold migrateDailyReadings at 1.
  unfold mbind at 1, M_bind at 1, bind at 1, once at 1.
  rewrite Hrej2, Hrej1, Hserved, Hdb2, Hdb1.
  unfold mbind at 1, M_bind at 1, bind at 1.
  match goal with |- context [foldM migrateDeviceReadings ?l ?v0 w2] =>
    destruct (devices_readings_loop l) with (v := v0) (w := w2)
      as (v3 & w3 & -> & Hframe3)
  end.
  { intros [id readings] Hin. apply (Hfit id readings). by apply elem_of_map_to_list. }
  cbn [mret M_ret ret].
  unfold mbind at 1, M_bind at 1, bind at 1.
  destruct (migrateTelegramData_frame w3) as (r4 & w4 & -> & Hframe4).
  assert (frame w4 = frame w2) as Hframe by congruence.
  unfold frame in Hframe. injection Hframe as Husers4 Hitems4 Hrej4 Hdb4.
  unfold mbind at 1, M_bind at 1, bind at 1.
  destruct (validateMigration_run w4) as (w5 & -> & Hfs5 & _).
  { split; intros path; by rewrite Hrej4, Hrej2, Hrej1. }
  rewrite Husers4, Hitems4, Hdb4, Hdb2, Hdb1, Husers2, Hsize1, Hsize2, Hitems1.
  rewrite Husers0, Hitems0, !map_size_empty. simpl.
  assert (∀ V (o : gmap string V), length (JS.entries o) = size o) as Hlen.
  { intros. apply length_map_to_list. }
  rewrite !Hlen, !Nat.eqb_refl. simpl.
  unfold mbind, M_bind, bind, console_log, modify. simpl.
  eexists. split; [reflexivity|]. simpl.
  rewrite Hfs5, Husers4, Hitems4, Husers2, Hsize1, Hsize2, Hitems1.
  rewrite Husers0, Hitems0, !map_size_empty, !Hlen. done.
Qed.

End CountConservation.

Lemma migrate_conserves_counts_witness :
  ∃ w',
    Migrate.migrate (world_of dated_device_db) = Eff.Ret 0%Z w' ∧
    size (Migrate.user_data (Migrate.firestore w')) = 0 ∧
    size (Migrate.item_data (Migrate.firestore w')) = 1.
Proof.
  apply (migrate_conserves_counts (world_of dated_device_db)).
  - intros io. reflexivity.
  - reflexivity.
  - reflexivity.
  - intros id readings. simpl. by rewrite lookup_empty.
Defined.

(** ** The alert evaluator *)

Section AlertProperties.
Import Eff Alerts.
Variable Number_toString : JS.number → string.

Lemma sendEnergyAlert_run env chatId deviceName energy limit s :
  ∃ sent s',
    sendEnergyAlert Number_toString env chatId deviceName energy limit s = Ret sent s' ∧
    posted s' = posted s ++ [alert_request Number_toString env deviceName energy limit chatId] ∧
    devicesChecked s' = devicesChecked s ∧
    devicesOverLimit s' = devicesOverLimit s ∧
    alertsSent s' = alertsSent s.
Proof.
  unfold sendEnergyAlert, try_catch, mbind, M_bind, bind, fetch. simpl.
  destruct (sendMessage env _ _) as [|[|[body|]]]; simpl; by eexists _, _.
Qed.

Lemma alertChat_run env deviceName energy limit chatId s :
  ∃ s',
    alertChat Number_toString env deviceName energy limit tt chatId s = Ret tt s' ∧
    posted s' = posted s ++ [alert_request Number_toString env deviceName energy limit chatId] ∧
    devicesChecked s' = devicesChecked s ∧
    devicesOverLimit s' = devicesOverLimit s ∧
    alertsSent s ≤ alertsSent s' ≤ S (alertsSent s).
Proof.
  unfold alertChat, try_catch. unfold mbind at 1, M_bind at 1, bind at 1.
  destruct (sendEnergyAlert_run env chatId deviceName energy limit s)
    as (sent & s1 & -> & Hposted & Hchecked & Hover & Hsent).
  destruct sent; unfold mbind, M_bind, bind, console_log, incr_alertsSent, modify; simpl;
    eexists; (split; [reflexivity|]); simpl; repeat split; try done; lia.
Qed.

Lemma broadcast_run env deviceName energy limit chatIds :
  ∀ s, ∃ s',
    foldM (alertChat Number_toString env deviceName energy limit) chatIds tt s = Ret tt s' ∧
    posted s' = posted s ++ (alert_request Number_toString env deviceName energy limit <$> chatIds) ∧
    devicesChecked s' = devicesChecked s ∧
    devicesOverLimit s' = devicesOverLimit s ∧
    alertsSent s ≤ alertsSent s' ≤ alertsSent s + length chatIds.
Proof.
  induction chatIds as [|chatId chatIds IH]; intros s; simpl.
  - exists s. rewrite (right_id_L [] (++)). repeat split; try done; lia.
  - unfold bind.
    destruct (alertChat_run env deviceName energy limit chatId s)
      as (s1 & -> & Hposted & Hchecked & Hover & Hsent).
    destruct (IH s1) as (s2 & -> & Hposted2 & Hchecked2 & Hover2 & Hsent2).
    exists s2. split; [done|]. rewrite Hposted2, Hposted, <- (assoc_L (++)). simpl.
    repeat split; try congruence; lia.
Qed.

(** The name lookup posts nothing and counts nothing, whether it returns or
    throws, and it returns [display_name]. *)
Lemma displayName_run env deviceId device s :
  let o := displayName env deviceId device s in
  returned o = display_name env deviceId device ∧
  posted (state_of o) = posted s ∧
  devicesChecked (state_of o) = devicesChecked s ∧
  devicesOverLimit (state_of o) = devicesOverLimit s ∧
  alertsSent (state_of o) = alertsSent s.
Proof.
  unfold displayName, display_name. destruct (user_ids device) as [ids|]; [|done].
  destruct (JS.keys ids) as [|userId ?]; [done|].
  unfold mbind, M_bind, bind, getFirebaseData.
  destruct (users env userId) as [|[u|]]; simpl; [done| |done].
  destruct (default ∅ (devices u) !! deviceId) as [customName|]; [|done].
  by destruct (JS.truthy_string customName).
Qed.


(** The evaluation of one device: it returns, counts the device, and posts
    what [device_alerts] says. *)
Lemma checkDevice_run env chatIds deviceId device s :
  ∃ s',
    checkDevice Number_toString env chatIds tt (deviceId, device) s = Ret tt s' ∧
    devicesChecked s' = S (devicesChecked s) ∧
    posted s' = posted s ++ device_alerts Number_toString env chatIds (deviceId, device) ∧
    match due_alert env deviceId device with
    | Some _ =>
        devicesOverLimit s' = S (devicesOverLimit s) ∧
        alertsSent s ≤ alertsSent s' ≤ alertsSent s + length chatIds
    | None =>
        devicesOverLimit s' = devicesOverLimit s ∧
        alertsSent s' = alertsSent s
    end.
Proof.
  unfold checkDevice, device_alerts, broadcast, due_alert, latest_energy.
  cbn [fst snd].
  unfold mbind at 1, M_bind at 1, bind at 1, incr_devicesChecked at 1, modify at 1.
  unfold mbind at 1, M_bind at 1, bind at 1, console_log at 1, modify at 1.
  destruct (energyLimit device) as [limit|];
    [|eexists; split; [reflexivity|]; simpl; by rewrite (right_id_L [] (++))].
  destruct (negb (JS.truthy_number limit) || PrimFloat.eqb limit 0);
    [eexists; split; [reflexivity|]; simpl; by rewrite (right_id_L [] (++))|].
  unfold try_catch. unfold mbind at 1, M_bind at 1, bind at 1, getFirebaseData.
  destruct (readings_daily env deviceId) as [|[readings|]]; simpl;
    [eexists; split; [reflexivity|]; simpl; by rewrite (right_id_L [] (++))
    | |eexists; split; [reflexivity|]; simpl; by rewrite (right_id_L [] (++))].
  destruct (JS.sort newest_first (JS.keys readings)) as [|latestTimestamp ?];
    [eexists; split; [reflexivity|]; simpl; by rewrite (right_id_L [] (++))|].
  destruct (readings !! latestTimestamp ≫= energy) as [latestEnergy|]; simpl;
    [|eexists; split; [reflexivity|]; simpl; by rewrite (right_id_L [] (++))].
  unfold mbind at 1, M_bind at 1, bind at 1, console_log at 1, modify at 1.
  destruct (JS.gt latestEnergy limit);
    [|eexists; split; [reflexivity|]; simpl; by rewrite (right_id_L [] (++))].
  unfold mbind at 1, M_bind at 1, bind at 1, console_log at 1, modify at 1.
  unfold mbind at 1, M_bind at 1, bind at 1, incr_devicesOverLimit at 1, modify at 1.
  unfold mbind at 1, M_bind at 1, bind at 1.
  match goal with |- context [displayName env deviceId device ?s0] =>
    pose proof (displayName_run env deviceId device s0) as Hname;
    destruct (displayName env deviceId device s0) as [deviceName s1|e s1]
  end; simpl in Hname; destruct Hname as (<- & Hposted & Hchecked & Hover & Hsent).
  - unfold mbind at 1, M_bind at 1, bind at 1, console_log at 1, modify at 1.
    match goal with |- context [foldM _ chatIds tt ?s2] =>
      destruct (broadcast_run env deviceName latestEnergy limit chatIds s2)
        as (s3 & -> & Hposted3 & Hchecked3 & Hover3 & Hsent3)
    end. simpl in *.
    exists s3. split; [done|]. split; [congruence|]. split; [congruence|].
    split; [congruence|lia].
  - eexists. split; [reflexivity|]. simpl. rewrite (right_id_L [] (++)).
    split; [congruence|]. split; [congruence|]. split; [congruence|lia].
Qed.

Lemma devices_loop_run env chatIds l :
  ∀ s, ∃ s' over,
    foldM (checkDevice Number_toString env chatIds) l tt s = Ret tt s' ∧
    posted s' = posted s ++ concat (device_alerts Number_toString env chatIds <$> l) ∧
    devicesChecked s' = devicesChecked s + length l ∧
    devicesOverLimit s' = devicesOverLimit s + over ∧
    over ≤ length l ∧
    alertsSent s ≤ alertsSent s' ≤ alertsSent s + over * length chatIds.
Proof.
  induction l as [|[deviceId device] l IH]; intros s; cbn [foldM length fmap list_fmap concat].
  - exists s, 0. rewrite (right_id_L [] (++)). repeat split; try done; lia.
  - unfold bind.
    destruct (checkDevice_run env chatIds deviceId device s)
      as (s1 & -> & Hchecked & Hposted & Hdue).
    destruct (IH s1) as (s2 & over & -> & Hposted2 & Hchecked2 & Hover2 & Hle & Hsent2).
    rewrite Hposted, <- (assoc_L (++)) in Hposted2.
    destruct (due_alert env deviceId device) as [[latestEnergy limit]|].
    + destruct Hdue as (Hover & Hsent).
      exists s2, (S over). repeat split; try done; lia.
    + destruct Hdue as (Hover & Hsent).
      exists s2, over. repeat split; try done; lia.
Qed.

(** C10. Every run of the evaluator ends without throwing, and the counters a
    run reports satisfy: devices over limit ≤ devices checked, alerts sent ≤
    devices over limit × active chats, devices checked = number of devices
    read from the store.  The summary is reported whenever the settings are
    there and both the chats and the devices are read and not [null]. *)
Theorem summary_counters env s :
  ∃ run s',
    testEnergyAlerts Number_toString env s = Ret run s' ∧
    match run with
    | Completed checked over sent activeChats =>
        over ≤ checked ∧ sent ≤ over * activeChats ∧
        ∃ chats devices,
          telegram_active_chats env = Got (Some chats) ∧
          all_devices env = Got (Some devices) ∧
          checked = size devices ∧ activeChats = size chats
    | _ => True
    end ∧
    (∀ chats devices,
       configured env →
       telegram_active_chats env = Got (Some chats) →
       all_devices env = Got (Some devices) →
       ∃ over sent, run = Completed (size devices) over sent (size chats)).
Proof.
  unfold testEnergyAlerts, configured.
  destruct (JS.truthy_opt JS.truthy_string (TELEGRAM_BOT_TOKEN env)); simpl;
    [|eexists _, _; split; [reflexivity|]; split; [done|]; by intros ?? [[=] _]].
  destruct (JS.truthy_opt JS.truthy_string (FIREBASE_DB_URL env)); simpl;
    [|eexists _, _; split; [reflexivity|]; split; [done|]; by intros ?? [_ [=]]].
  unfold try_catch. unfold mbind at 1, M_bind at 1, bind at 1, getFirebaseData.
  destruct (telegram_active_chats env) as [|[chats|]]; simpl;
    [eexists _, _; split; [reflexivity|]; split; [done|]; by intros ?? _ [=]
    | |eexists _, _; split; [reflexivity|]; split; [done|]; by intros ?? _ [=]].
  unfold mbind at 1, M_bind at 1, bind at 1.
  destruct (all_devices env) as [|[devices|]]; simpl;
    [eexists _, _; split; [reflexivity|]; split; [done|]; by intros ?? _ _ [=]
    | |eexists _, _; split; [reflexivity|]; split; [done|]; by intros ?? _ _ [=]].
  unfold mbind at 1, M_bind at 1, bind at 1, declare_counters, modify.
  unfold mbind at 1, M_bind at 1, bind at 1.
  match goal with |- context [foldM _ ?l tt ?s0] =>
    destruct (devices_loop_run env (JS.parseInt <$> JS.keys chats) l s0)
      as (s1 & over & -> & _ & Hchecked & Hover & Hle & Hsent)
  end. simpl in *.
  unfold mbind, M_bind, bind, get, console_log, modify. simpl.
  eexists _, _. split; [reflexivity|].
  rewrite length_fmap, !keys_length in *.
  assert (length (JS.entries devices) = size devices) as Hsize.
  { unfold JS.entries. apply length_map_to_list. }
  rewrite Hsize in *. split.
  - split; [lia|]. split; [rewrite Hover; lia|]. by exists chats, devices.
  - intros ?? _ [= <-] [= <-]. rewrite Hchecked. by eexists _, _.
Qed.

(** The evaluator keeps no memory between runs: what a run posts is a
    function of what it reads. *)
Lemma testEnergyAlerts_posted env s :
  posted (state_of (testEnergyAlerts Number_toString env s))
  = posted s ++ run_alerts Number_toString env.
Proof.
  unfold testEnergyAlerts, run_alerts.
  destruct (JS.truthy_opt JS.truthy_string (TELEGRAM_BOT_TOKEN env)); simpl;
    [|by rewrite (right_id_L [] (++))].
  destruct (JS.truthy_opt JS.truthy_string (FIREBASE_DB_URL env)); simpl;
    [|by rewrite (right_id_L [] (++))].
  unfold try_catch. unfold mbind at 1, M_bind at 1, bind at 1, getFirebaseData.
  destruct (telegram_active_chats env) as [|[chats|]]; simpl;
    [by rewrite (right_id_L [] (++))| |by rewrite (right_id_L [] (++))].
  unfold mbind at 1, M_bind at 1, bind at 1.
  destruct (all_devices env) as [|[devices|]]; simpl;
    [by rewrite (right_id_L [] (++))| |by rewrite (right_id_L [] (++))].
  unfold mbind at 1, M_bind at 1, bind at 1, declare_counters, modify.
  unfold mbind at 1, M_bind at 1, bind at 1.
  match goal with |- context [foldM _ ?l tt ?s0] =>
    destruct (devices_loop_run env (JS.parseInt <$> JS.keys chats) l s0)
      as (s1 & over & -> & Hposted & _)
  end. simpl in *. done.
Qed.

(** X2. Repeat alerts.  Two runs in a row over unchanged data post the same
    alerts twice: nothing is remembered of the first broadcast. *)
Theorem alerts_repeat env s :
  posted (state_of (testEnergyAlerts Number_toString env
                      (state_of (testEnergyAlerts Number_toString env s))))
  = posted s ++ run_alerts Number_toString env ++ run_alerts Number_toString env.
Proof. by rewrite !testEnergyAlerts_posted, <- (assoc_L (++)). Qed.

End AlertProperties.

(** ** Strings: append, reverse, trim *)

Section Strings.
Implicit Types s t : string.

Lemma string_app_nil_l s : "" +:+ s = s.
Proof. reflexivity. Qed.

Lemma string_app_cons c s t : String c s +:+ t = String c (s +:+ t).
Proof. reflexivity. Qed.

Lemma string_app_nil_r s : s +:+ "" = s.
Proof. induction s as [|c s IH]; [done|]. by rewrite string_app_cons, IH. Qed.

Lemma string_app_assoc s t u : (s +:+ t) +:+ u = s +:+ (t +:+ u).
Proof. induction s as [|c s IH]; [done|]. by rewrite !string_app_cons, IH. Qed.

Lemma string_rev_app_spec s : ∀ t, String.rev_app s t = String.rev s +:+ t.
Proof.
  unfold String.rev. induction s as [|c s IH]; intros t; [done|].
  cbn [String.rev_app]. by rewrite IH, (IH (String c "")), string_app_assoc.
Qed.

Lemma string_rev_cons c s : String.rev (String c s) = String.rev s +:+ String c "".
Proof. unfold String.rev at 1. cbn [String.rev_app]. apply string_rev_app_spec. Qed.

Lemma string_rev_app s t : String.rev (s +:+ t) = String.rev t +:+ String.rev s.
Proof.
  induction s as [|c s IH].
  - by rewrite string_app_nil_r.
  - by rewrite string_app_cons, !string_rev_cons, IH, string_app_assoc.
Qed.

Lemma string_rev_involutive s : String.rev (String.rev s) = s.
Proof.
  induction s as [|c s IH]; [done|]. by rewrite string_rev_cons, string_rev_app, IH.
Qed.

(** A text between two line breaks, itself starting and ending with a
    character that is no white space, is what [trim] leaves. *)
Lemma trim_lines t c1 s1 s2 c2 :
  t = String c1 s1 →
  t = s2 +:+ String c2 "" →
  Ascii.is_space c1 = false →
  Ascii.is_space c2 = false →
  JS.trim (Telegram.nl +:+ (t +:+ Telegram.nl)) = t.
Proof.
  intros Hfirst Hlast Hc1 Hc2. unfold JS.trim, Telegram.nl.
  rewrite string_app_cons. cbn [JS.skip_spaces Ascii.is_space]. rewrite string_app_nil_l.
  rewrite Hfirst at 1. rewrite string_app_cons. cbn [JS.skip_spaces]. rewrite Hc1.
  rewrite <- string_app_cons, <- Hfirst, string_rev_app, Hlast, string_rev_app.
  cbn [String.rev String.rev_app]. rewrite !string_app_cons, !string_app_nil_l.
  cbn [JS.skip_spaces Ascii.is_space]. rewrite Hc2.
  by rewrite string_rev_cons, string_rev_involutive.
Qed.





End Strings.

(** ** The alert text *)

Section AlertText.
Import Telegram.
Variable Number_toString : JS.number → string.

Local Abbreviation fixed2 := (JS.toFixed Number_toString 2).

Lemma alert_message_text deviceName currentEnergy limit timestamp :
  alert_message Number_toString deviceName currentEnergy limit timestamp
  = alert_text Number_toString deviceName currentEnergy limit timestamp.
Proof.
  unfold alert_message.
  set (t := alert_text Number_toString deviceName currentEnergy limit timestamp).
  transitivity (JS.trim (nl +:+ (t +:+ nl))).
  { f_equal. f_equal. unfold t, alert_text. by rewrite !string_app_assoc. }
  eapply (trim_lines t _ _ _ "."%char).
  - reflexivity.
  - unfold t, alert_text.
    change "Please check your device to reduce energy consumption."
      with ("Please check your device to reduce energy consumption" +:+ ".").
    rewrite <- !string_app_assoc. reflexivity.
  - reflexivity.
  - reflexivity.
Qed.



End AlertText.

(** ** The latest reading and the alert policy *)

Section AlertPolicy.
Import Eff Alerts.
Variable Number_toString : JS.number → string.





End AlertPolicy.

(** ** The scenarios of the specification, evaluated *)

(** Limit 1000, latest energy 1250.50, one chat: one alert, with 1250.50,
    1000.00 and 250.50. *)
Example alert_over_limit ts :
  texts (Alerts.testEnergyAlerts ts (alert_env (Some 1000%float) 1250.5%float) Alerts.initial)
  = [(Some 42%Z,
      "⚠️ <b>Energy Limit Exceeded</b>" +:+ Telegram.nl +:+
      Telegram.nl +:+ "Device: <b>Living Room AC</b>" +:+
      Telegram.nl +:+ "Current: <b>1250.50 kWh</b>" +:+
      Telegram.nl +:+ "Limit: <b>1000.00 kWh</b>" +:+
      Telegram.nl +:+ "Over by: <b>250.50 kWh</b>" +:+
      Telegram.nl +:+
      Telegram.nl +:+ "Time: Jan 1, 2025, 12:00 AM UTC" +:+
      Telegram.nl +:+
      Telegram.nl +:+ "Please check your device to reduce energy consumption.")].
Proof. vm_compute. reflexivity. Qed.

(** Limit 1000, latest energy 999.99: no alert. *)
Example alert_within_limit ts :
  texts (Alerts.testEnergyAlerts ts (alert_env (Some 1000%float) 999.99%float) Alerts.initial)
  = [].
Proof. vm_compute. reflexivity. Qed.

(** Limit 0 or unset: no alert, whatever the readings. *)
Example alert_no_limit ts :
  texts (Alerts.testEnergyAlerts ts (alert_env (Some 0%float) 1e9%float) Alerts.initial) = [] ∧
  texts (Alerts.testEnergyAlerts ts (alert_env None 1e9%float) Alerts.initial) = [].
Proof. vm_compute. split; reflexivity. Qed.

(** Two runs in a row over the first scenario: the alert goes out twice. *)
Example alerts_repeat_scenario ts :
  length (run_alerts ts (alert_env (Some 1000%float) 1250.5%float)) = 1 ∧
  length (Alerts.posted
            (Eff.state_of
               (Alerts.testEnergyAlerts ts (alert_env (Some 1000%float) 1250.5%float)
                  (Eff.state_of
                     (Alerts.testEnergyAlerts ts
                        (alert_env (Some 1000%float) 1250.5%float) Alerts.initial))))) = 2.
Proof. vm_compute. split; reflexivity. Qed.

(** The summary of the first scenario. *)
Example alert_summary ts :
  Eff.returned
    (Alerts.testEnergyAlerts ts (alert_env (Some 1000%float) 1250.5%float) Alerts.initial)
  = Some (Alerts.Completed 1 1 1 1).
Proof. vm_compute. reflexivity. Qed.




Lemma summary_counters_witness :
  ∃ over sent,
    Eff.returned
      (Alerts.testEnergyAlerts (λ _, "") (alert_env (Some 1000%float) 1250.5%float)
         Alerts.initial)
    = Some (Alerts.Completed 1 over sent 1).
Proof.
  destruct (summary_counters (λ _, "") (alert_env (Some 1000%float) 1250.5%float)
              Alerts.initial) as (run & s' & Hrun & _ & Hcompleted).
  destruct (Hcompleted {[ "42" := chat_42 ]} {[ "dev1" := ac_device (Some 1000%float) ]})
    as (over & sent & ->).
  - split; reflexivity.
  - reflexivity.
  - reflexivity.
  - exists over, sent. rewrite Hrun. reflexivity.
Defined.

Lemma empty_readings_skipped_witness :
  ∃ v' w',
    Migrate.migrateDeviceReadings zero_vars ("dev1", readings_with_empty) (world_of empty_rtdb)
    = Eff.Ret v' w' ∧
    Migrate.Vars.deviceReadingCount v' = 1.
Proof.
  destruct (empty_readings_skipped "dev1" readings_with_empty zero_vars (world_of empty_rtdb))
    as (_ & _ & Htotal & Hreturns).
  destruct Hreturns as (v' & w' & Hrun).
  - vm_compute. lia.
  - exists v', w'. split; [exact Hrun|].
    destruct (Htotal v' w' Hrun) as (-> & _). reflexivity.
Defined.

(** ** The notification registry *)

Section RegistryProperties.
Import Eff Chats.

(** X3. The Firestore variant.  A repeat contact sets [lastActive] to the current
    time and keeps the [addedAt] of the entry (a set one: not 0); a first
    contact creates the entry with both set to the current time. *)
Lemma saveActiveChatId_firestore w chatId username firstName :
  served w →
  ∃ w' d' entry',
    saveActiveChatId chatId username firstName w = Ret tt w' ∧
    doc w' = Some d' ∧
    Migrate.Doc.chats d' !! key chatId = Some entry' ∧
    Registry.lastActive entry' = now w ∧
    match doc w ≫= (λ d, Migrate.Doc.chats d !! key chatId) with
    | Some entry =>
        Registry.addedAt entry ≠ 0%Z → Registry.addedAt entry' = Registry.addedAt entry
    | None => Registry.addedAt entry' = now w
    end.
Proof.
  intros Hserved.
  unfold saveActiveChatId, try_catch, mbind, M_bind, bind, Date_now, getDoc.
  rewrite Hserved. destruct (doc w) as [d|] eqn:Hdoc; simpl.
  - unfold updateDoc_chat. rewrite Hserved, Hdoc.
    eexists _, _, _. split; [reflexivity|]. simpl. split; [reflexivity|].
    split; [apply lookup_insert_eq|]. simpl. split; [done|].
    destruct (Migrate.Doc.chats d !! key chatId) as [entry|]; simpl; [|done].
    unfold truthy_Z. intros Hset. by destruct (Z.eqb_spec (Registry.addedAt entry) 0).
  - unfold setDoc. rewrite Hserved.
    eexists _, _, _. split; [reflexivity|]. simpl. split; [reflexivity|].
    split; [apply lookup_singleton_eq|]. done.
Qed.

(** The RTDB variant and the discovery script replace the whole entry:
    [addedAt] becomes the current time, whatever it was. *)
Lemma saveActiveChatId_rtdb_overwrites w chatId username firstName :
  served w →
  ∃ w' entry',
    saveActiveChatId_rtdb chatId username firstName w = Ret tt w' ∧
    active_chats w' !! key chatId = Some entry' ∧
    Registry.lastActive entry' = now w ∧
    Registry.addedAt entry' = now w.
Proof.
  intros Hserved.
  unfold saveActiveChatId_rtdb, try_catch, mbind, M_bind, bind, Date_now, rtdb_set_chat.
  rewrite Hserved. eexists _, _. split; [reflexivity|]. simpl.
  split; [apply lookup_insert_eq|]. done.
Qed.

Lemma discovery_save_overwrites w chatId username firstName :
  served w →
  ∃ w' entry',
    discovery_save chatId username firstName w = Ret tt w' ∧
    active_chats w' !! key chatId = Some entry' ∧
    Registry.lastActive entry' = now w ∧
    Registry.addedAt entry' = now w.
Proof.
  intros Hserved.
  unfold discovery_save, mbind, M_bind, bind, Date_now, rtdb_set_chat.
  rewrite Hserved. eexists _, _. split; [reflexivity|]. simpl.
  split; [apply lookup_insert_eq|]. done.
Qed.

End RegistryProperties.

(** C8 on the code.  On a repeat contact the Firestore variant keeps the
    original [addedAt]; the RTDB variant and the discovery script reset it to
    the time of the repeat contact. *)
Theorem repeat_contact_addedAt :
  addedAt_after (Chats.saveActiveChatId 42 (Some "alice") (Some "Alice") registered)
    (λ w, default ∅ (Migrate.Doc.chats <$> Chats.doc w))
  = Some (later, Registry.addedAt chat_42) ∧
  addedAt_after (Chats.saveActiveChatId_rtdb 42 (Some "alice") (Some "Alice") registered)
    Chats.active_chats
  = Some (later, later) ∧
  addedAt_after (Chats.discovery_save 42 (Some "alice") (Some "Alice") registered)
    Chats.active_chats
  = Some (later, later) ∧
  later ≠ Registry.addedAt chat_42.
Proof. vm_compute. repeat split; discriminate. Qed.

Lemma saveActiveChatId_firestore_witness :
  ∃ w' d' entry',
    Chats.saveActiveChatId 42 (Some "alice") (Some "Alice") registered = Eff.Ret tt w' ∧
    Chats.doc w' = Some d' ∧
    Migrate.Doc.chats d' !! Chats.key 42 = Some entry' ∧
    Registry.lastActive entry' = later ∧
    (Registry.addedAt chat_42 ≠ 0%Z → Registry.addedAt entry' = Registry.addedAt chat_42).
Proof.
  apply (saveActiveChatId_firestore registered 42 (Some "alice") (Some "Alice")).
  intros io. reflexivity.
Defined.

(** ** The runtime fragment on known values *)

Example toFixed_known ts :
  JS.toFixed ts 2 1234.5678%float = "1234.57" ∧
  JS.toFixed ts 2 1.005%float = "1.00" ∧
  JS.toFixed ts 2 999.99%float = "999.99" ∧
  JS.toFixed ts 2 0%float = "0.00" ∧
  JS.toFixed ts 2 (-0.001)%float = "-0.00" ∧
  JS.toFixed ts 0 2.5%float = "3" ∧
  JS.toFixed ts 0 (-2.5)%float = "-3" ∧
  JS.toFixed ts 2 1e21%float = ts 1e21%float.
Proof. vm_compute. repeat split; reflexivity. Qed.

Example parseInt_known :
  JS.parseInt "1700000000" = Some 1700000000%Z ∧
  JS.parseInt " 12abc" = Some 12%Z ∧
  JS.parseInt "-7" = Some (-7)%Z ∧
  JS.parseInt "abc" = None ∧
  JS.parseInt "" = None.
Proof. vm_compute. repeat split; reflexivity. Qed.

(** Without radix: a hexadecimal prefix is read, an integer beyond 2^53 is
    rounded to the nearest Number, and a run of digits beyond the largest
    Number is [Infinity]. *)
Example parseInt_number_known :
  JS.parseInt_number "1700000000" = Some 1700000000%Z ∧
  JS.parseInt_number "0x1F" = Some 31%Z ∧
  JS.parseInt_number "-0X1f" = Some (-31)%Z ∧
  JS.parseInt_number "0x" = None ∧
  JS.parseInt_number "9007199254740993" = Some 9007199254740992%Z ∧
  JS.parseInt_number "9007199254740995" = Some 9007199254740996%Z ∧
  JS.parseInt_number ("1" +:+ JS.zeros 400) = Some (2 ^ 1024)%Z.
Proof. vm_compute. repeat split; reflexivity. Qed.

Example sort_newest_first_known :
  JS.sort Alerts.newest_first ["1700000000"; "1700172800"; "1700086400"]
  = ["1700172800"; "1700086400"; "1700000000"].
Proof. vm_compute. reflexivity. Qed.

(** The comparator reads a key as [parseInt] does without radix: [0x1F] is 31
    and comes before 30. *)
Example sort_newest_first_hex :
  JS.sort Alerts.newest_first ["30"; "0x1F"; "7"] = ["0x1F"; "30"; "7"].
Proof. vm_compute. reflexivity. Qed.

(** ** The three ways [migrate] ends *)

(** Every write accepted: the counts match, exit code 0. *)
Example migrate_exit_0 :
  Eff.returned (Migrate.migrate (world_of dated_device_db)) = Some 0%Z.
Proof. vm_compute. reflexivity. Qed.

Example migrate_exit_1_invalid :
  Eff.returned (Migrate.migrate (rejecting_dev1 (world_of dated_device_db))) = Some 1%Z ∧
  Migrate.LogValidation false
    ∈ Migrate.console (Eff.state_of (Migrate.migrate (rejecting_dev1 (world_of dated_device_db)))).
Proof. vm_compute. split; [reflexivity|]. repeat constructor. Qed.

(** ** Chat ids as property names *)

Section Keys.

Lemma parse_digits_acc d : ∀ acc,
  JS.parse_digits (Some (Z.pos acc)) (NilEmpty.string_of_uint d)
  = Some (Z.pos (Pos.of_uint_acc d acc)).
Proof.
  induction d; intros acc; cbn [NilEmpty.string_of_uint JS.parse_digits Ascii.is_nat
    Pos.of_uint_acc default]; try done; rewrite <- IHd; do 2 f_equal;
    unfold id; simpl Z.of_nat; lia.
Qed.

Lemma parse_digits_uint d :
  JS.parse_digits (Some 0%Z) (NilEmpty.string_of_uint d) = Some (Z.of_N (Pos.of_uint d)).
Proof.
  induction d; cbn [NilEmpty.string_of_uint JS.parse_digits Ascii.is_nat Pos.of_uint default];
    try done; unfold id; simpl Z.add; try apply parse_digits_acc.
Qed.

Lemma parse_digits_decimal n :
  (0 ≤ n)%Z → JS.parse_digits None (JS.decimal n) = Some n.
Proof.
  intros Hn. unfold JS.decimal.
  assert (JS.parse_digits None (NilZero.string_of_uint (N.to_uint (Z.to_N n)))
          = Some (Z.of_N (Pos.of_uint (N.to_uint (Z.to_N n))))) as ->.
  { destruct (N.to_uint (Z.to_N n)) eqn:Hd;
      cbn [NilZero.string_of_uint NilEmpty.string_of_uint JS.parse_digits Ascii.is_nat
           Pos.of_uint default]; try done; unfold id; simpl Z.add;
      try apply parse_digits_acc; apply parse_digits_uint. }
  change (Pos.of_uint ?d) with (N.of_uint d).
  rewrite DecimalN.Unsigned.of_to. f_equal. lia.
Qed.

(** A printed natural number starts with a digit. *)
Lemma decimal_head n :
  ∃ c s, JS.decimal n = String c s ∧ is_Some (Ascii.is_nat c).
Proof.
  unfold JS.decimal. destruct (N.to_uint (Z.to_N n)); simpl; by eexists _, _.
Qed.

Lemma parseInt_decimal n : (0 ≤ n)%Z → JS.parseInt (JS.decimal n) = Some n.
Proof.
  intros Hn. unfold JS.parseInt.
  destruct (decimal_head n) as (c & s & Hs & [d Hd]).
  assert (JS.skip_spaces (JS.decimal n) = JS.decimal n) as ->.
  { rewrite Hs. simpl. destruct c as [[] [] [] [] [] [] [] []]; try done. }
  pose proof (parse_digits_decimal n Hn) as Hparse. rewrite Hs in Hparse |- *.
  destruct c as [[] [] [] [] [] [] [] []]; try done.
Qed.

Lemma parseInt_key_id z : JS.parseInt (Chats.key z) = Some z.
Proof.
  unfold Chats.key. destruct (Z.ltb_spec z 0).
  - change ("-" +:+ ?s) with (String "-" s). unfold JS.parseInt.
    cbn [JS.skip_spaces]. change (Ascii.is_space "-") with false. cbv iota.
    rewrite parse_digits_decimal by lia. simpl. f_equal. lia.
  - by apply parseInt_decimal.
Qed.

(** X4. A chat id written as a property name ([`${chatId}`]) is read back by
    [parseInt(key, 10)], negative ids included; so two chats never share a
    key. *)
Theorem key_parseInt_round_trip z z' :
  JS.parseInt (Chats.key z) = Some z ∧
  (Chats.key z = Chats.key z' → z = z').
Proof.
  split; [apply parseInt_key_id|].
  intros Hkey. apply (f_equal JS.parseInt) in Hkey.
  rewrite !parseInt_key_id in Hkey. congruence.
Qed.

End Keys.

(** ** Reading the registry *)

Lemma keys_fmap {V W} (f : V → W) (m : gmap string V) : JS.keys (f <$> m) = JS.keys m.
Proof.
  unfold JS.keys, JS.entries. rewrite map_to_list_fmap, <- list_fmap_compose.
  apply list_fmap_ext. by intros _ [k v] _.
Qed.


Section RegistryReads.
Import Eff ChatStore.

Lemma getAllActiveChatIds_run w :
  getAllActiveChatIds w
  = if rejects w GetDoc
    then Ret [] (state_of (console_error "Error getting active chat IDs" w))
    else Ret (JS.parseInt <$> JS.keys (default ∅ (chats <$> doc w))) w.
Proof.
  unfold getAllActiveChatIds, try_catch, mbind, M_bind, bind, getDoc.
  destruct (rejects w GetDoc); [done|]. destruct (doc w); simpl; [done|].
  unfold JS.keys, JS.entries. by rewrite map_to_list_empty.
Qed.

(** X5. [getAllActiveChatIds] of the Firestore variant never throws and
    changes no store.  It answers the empty list when the document is missing
    and when the read fails; otherwise one id per entry of the registry, and
    the id of every chat registered under its key. *)
Theorem getAllActiveChatIds_lists w :
  ∃ ids w',
    getAllActiveChatIds w = Ret ids w' ∧
    doc w' = doc w ∧ active_chats w' = active_chats w ∧
    (doc w = None ∨ rejects w GetDoc = true → ids = []) ∧
    (∀ d, rejects w GetDoc = false → doc w = Some d →
       length ids = size (chats d) ∧
       ∀ z, is_Some (chats d !! Chats.key z) → Some z ∈ ids).
Proof.
  rewrite getAllActiveChatIds_run.
  destruct (rejects w GetDoc) eqn:Hread; eexists _, _; (split; [reflexivity|]); simpl;
    (split; [done|]); (split; [done|]); split; try done.
  - intros [->|[=]]. simpl. unfold JS.keys, JS.entries. by rewrite map_to_list_empty.
  - intros d0 _ ->. simpl. split; [by rewrite length_fmap, keys_length|].
    intros z Hz. apply list_elem_of_fmap. exists (Chats.key z).
    split; [by rewrite parseInt_key_id|]. by apply elem_of_keys, elem_of_dom.
Qed.

Lemma getAllActiveChatIds_rtdb_run w :
  getAllActiveChatIds_rtdb w
  = if rejects w (RtdbGet "telegram/active_chats")
    then Ret [] (state_of (console_error "Error getting active chat IDs" w))
    else Ret (JS.parseInt <$> JS.keys (active_chats w)) w.
Proof.
  unfold getAllActiveChatIds_rtdb, try_catch, mbind, M_bind, bind, rtdb_get.
  destruct (rejects w _); [done|]. unfold snapshot_exists.
  destruct (Nat.eqb_spec (size (active_chats w)) 0) as [Hempty|]; [|done]. simpl.
  apply map_size_empty_iff in Hempty. rewrite Hempty.
  unfold JS.keys, JS.entries. by rewrite map_to_list_empty.
Qed.

(** What a served save leaves in the Firestore document. *)
Lemma saveActiveChatId_registers w chatId username firstName :
  served w →
  ∃ w' d' entry,
    Chats.saveActiveChatId chatId username firstName w = Ret tt w' ∧
    Chats.doc w' = Some d' ∧
    Migrate.Doc.chats d'
    = <[Chats.key chatId := entry]> (default ∅ (Migrate.Doc.chats <$> Chats.doc w)) ∧
    Migrate.Doc.last_update_id d'
    = default 0%Z (Migrate.Doc.last_update_id <$> Chats.doc w).
Proof.
  intros Hserved.
  unfold Chats.saveActiveChatId, try_catch, mbind, M_bind, bind, Chats.Date_now, Chats.getDoc.
  rewrite Hserved. destruct (Chats.doc w) as [d|] eqn:Hdoc; simpl.
  - unfold Chats.updateDoc_chat. rewrite Hserved, Hdoc. by eexists _, _, _.
  - unfold Chats.setDoc. rewrite Hserved. eexists _, _, _. split; [reflexivity|]. simpl.
    split; [reflexivity|]. simpl. by rewrite insert_empty.
Qed.

Lemma saveActiveChatId_rtdb_registers w chatId username firstName :
  served w →
  ∃ w' entry,
    Chats.saveActiveChatId_rtdb chatId username firstName w = Ret tt w' ∧
    Chats.active_chats w' = <[Chats.key chatId := entry]> (Chats.active_chats w).
Proof.
  intros Hserved.
  unfold Chats.saveActiveChatId_rtdb, try_catch, mbind, M_bind, bind, Chats.Date_now,
    Chats.rtdb_set_chat.
  rewrite Hserved. by eexists _, _.
Qed.

(** X6. A chat that was saved is listed.  After a served [saveActiveChatId],
    [getAllActiveChatIds] on the store the save left answers a list that
    holds the id of the chat, and the id of every chat that was registered
    before; in the Firestore variant and in the RTDB variant. *)
Theorem saved_chat_is_listed w chatId username firstName :
  served w →
  (∃ w' d',
     Chats.saveActiveChatId chatId username firstName w = Ret tt w' ∧
     Chats.doc w' = Some d' ∧
     ∀ W, doc W = Some (registry_doc d') → rejects W GetDoc = false →
       ∃ ids W',
         getAllActiveChatIds W = Ret ids W' ∧
         Some chatId ∈ ids ∧
         ∀ z d, Chats.doc w = Some d → is_Some (Migrate.Doc.chats d !! Chats.key z) →
                Some z ∈ ids) ∧
  (∃ w',
     Chats.saveActiveChatId_rtdb chatId username firstName w = Ret tt w' ∧
     ∀ W, active_chats W = Chats.active_chats w' →
          rejects W (RtdbGet "telegram/active_chats") = false →
       ∃ ids W',
         getAllActiveChatIds_rtdb W = Ret ids W' ∧
         Some chatId ∈ ids ∧
         ∀ z, is_Some (Chats.active_chats w !! Chats.key z) → Some z ∈ ids).
Proof.
  intros Hserved. split.
  - destruct (saveActiveChatId_registers w chatId username firstName Hserved)
      as (w' & d' & entry & Hrun & Hdoc' & Hchats & _).
    exists w', d'. split; [done|]. split; [done|]. intros W HW Hread.
    rewrite getAllActiveChatIds_run, Hread, HW. simpl. eexists _, _. split; [reflexivity|].
    rewrite keys_fmap, Hchats.
    assert (∀ z, is_Some (<[Chats.key chatId := entry]>
                            (default ∅ (Migrate.Doc.chats <$> Chats.doc w)) !! Chats.key z) →
                 Some z ∈ JS.parseInt <$> JS.keys (<[Chats.key chatId := entry]>
                            (default ∅ (Migrate.Doc.chats <$> Chats.doc w)))) as Hlisted.
    { intros z Hz. apply list_elem_of_fmap. exists (Chats.key z).
      split; [by rewrite parseInt_key_id|]. by apply elem_of_keys, elem_of_dom. }
    split.
    + apply Hlisted. rewrite lookup_insert_eq. by eexists.
    + intros z d Hd [e He]. apply Hlisted. rewrite Hd. simpl.
      destruct (decide (Chats.key chatId = Chats.key z)) as [->|Hne].
      * rewrite lookup_insert_eq. by eexists.
      * rewrite lookup_insert_ne by done. by eexists.
  - destruct (saveActiveChatId_rtdb_registers w chatId username firstName Hserved)
      as (w' & entry & Hrun & Hchats).
    exists w'. split; [done|]. intros W HW Hread.
    rewrite getAllActiveChatIds_rtdb_run, Hread, HW, Hchats. eexists _, _.
    split; [reflexivity|].
    assert (∀ z, is_Some (<[Chats.key chatId := entry]> (Chats.active_chats w) !! Chats.key z) →
                 Some z ∈ JS.parseInt <$> JS.keys (<[Chats.key chatId := entry]>
                                                     (Chats.active_chats w))) as Hlisted.
    { intros z Hz. apply list_elem_of_fmap. exists (Chats.key z).
      split; [by rewrite parseInt_key_id|]. by apply elem_of_keys, elem_of_dom. }
    split.
    + apply Hlisted. rewrite lookup_insert_eq. by eexists.
    + intros z [e He]. apply Hlisted.
      destruct (decide (Chats.key chatId = Chats.key z)) as [->|Hne].
      * rewrite lookup_insert_eq. by eexists.
      * rewrite lookup_insert_ne by done. by eexists.
Qed.

(** X7. The update cursor.  [getLastUpdateId] never throws and answers 0
    when the document is missing or the read fails.  With every request
    served, what [setLastUpdateId] stored is what [getLastUpdateId] answers
    next, and the chats of the registry are as before (none, when the
    document had to be created); in both variants. *)
Theorem last_update_id_round_trip w updateId :
  (∃ n w', getLastUpdateId w = Ret n w' ∧
           (doc w = None ∨ rejects w GetDoc = true → n = 0%Z)) ∧
  (store_served w →
   (∃ w1 w2 d1,
      setLastUpdateId updateId w = Ret tt w1 ∧
      doc w1 = Some d1 ∧
      chats d1 = default ∅ (chats <$> doc w) ∧
      getLastUpdateId w1 = Ret updateId w2) ∧
   (∃ w1 w2,
      setLastUpdateId_rtdb updateId w = Ret tt w1 ∧
      active_chats w1 = active_chats w ∧
      getLastUpdateId_rtdb w1 = Ret updateId w2)).
Proof.
  split.
  - unfold getLastUpdateId, try_catch, mbind, M_bind, bind, getDoc.
    destruct (rejects w GetDoc); simpl.
    + eexists _, _. by split.
    + destruct (doc w); simpl; eexists _, _; (split; [reflexivity|]);
        by intros [[=]|[=]].
  - intros Hserved. split.
    + unfold setLastUpdateId, getLastUpdateId, try_catch, mbind, M_bind, bind, getDoc.
      rewrite Hserved. destruct (doc w) as [d|] eqn:Hdoc; simpl.
      * unfold updateDoc_last_update_id. rewrite Hserved, Hdoc.
        eexists _, _, _. split; [reflexivity|]. simpl. rewrite Hserved. simpl.
        split; [reflexivity|]. split; [done|].
        unfold Chats.truthy_Z. by destruct (Z.eqb_spec updateId 0) as [->|].
      * unfold setDoc. rewrite Hserved.
        eexists _, _, _. split; [reflexivity|]. simpl. rewrite Hserved. simpl.
        split; [reflexivity|]. split; [done|].
        unfold Chats.truthy_Z. by destruct (Z.eqb_spec updateId 0) as [->|].
    + unfold setLastUpdateId_rtdb, getLastUpdateId_rtdb, try_catch, mbind, M_bind, bind,
        rtdb_get.
      rewrite Hserved. eexists _, _. split; [reflexivity|]. simpl. by rewrite Hserved.
Qed.

End RegistryReads.

(** ** Cleaning the registry *)

Section RegistryCleanup.
Import Eff ChatStore.

Lemma lookup_foldr_delete {V} (m : gmap string V) ks k :
  foldr delete m ks !! k = if decide (k ∈ ks) then None else m !! k.
Proof.
  induction ks as [|k' ks IH]; cbn [foldr].
  - destruct (decide (k ∈ [])) as [Hin|]; [|done]. by apply not_elem_of_nil in Hin.
  - destruct (decide (k = k')) as [->|Hne].
    + rewrite lookup_delete_eq. destruct (decide (k' ∈ k' :: ks)) as [|Hnotin]; [done|].
      destruct Hnotin. by apply elem_of_cons; left.
    + rewrite lookup_delete_ne, IH by done.
      destruct (decide (k ∈ ks)) as [Hin|Hnotin], (decide (k ∈ k' :: ks)) as [Hin'|Hnotin'];
        try done.
      * destruct Hnotin'. by apply elem_of_cons; right.
      * by apply elem_of_cons in Hin' as [?|?].
Qed.

Lemma size_foldr_delete {V} (m : gmap string V) ks :
  NoDup ks → (∀ k, k ∈ ks → is_Some (m !! k)) →
  size m = length ks + size (foldr delete m ks).
Proof.
  induction 1 as [|k ks Hnotin Hnd IH]; intros Hdom; cbn [foldr length]; [done|].
  rewrite IH by (intros k' Hk'; apply Hdom; by apply elem_of_cons; right).
  destruct (Hdom k) as [v Hv]; [by apply elem_of_cons; left|].
  assert (foldr delete m ks !! k = Some v) as Hk.
  { rewrite lookup_foldr_delete. by destruct (decide (k ∈ ks)). }
  rewrite (map_size_delete_Some k (foldr delete m ks)) by by eexists.
  assert (size (foldr delete m ks) ≠ 0); [|lia].
  intros Hempty%map_size_empty_iff. by rewrite Hempty, lookup_empty in Hk.
Qed.

Lemma markInactive_rtdb_loop chats cutoff l :
  (∀ k, k ∈ l → is_Some (chats !! k)) →
  ∀ updates n w,
    foldM (markInactive_rtdb chats cutoff) l (updates, n) w
    = Ret (updates ++ filter (λ k, stale_key chats cutoff k) l,
           n + length (filter (λ k, stale_key chats cutoff k) l)) w.
Proof.
  induction l as [|k l IH]; intros Hdom updates n w; cbn [foldM].
  - by rewrite filter_nil, (right_id_L [] (++)), Nat.add_0_r.
  - unfold bind. unfold markInactive_rtdb at 1.
    destruct (Hdom k) as [chat Hchat]; [by apply elem_of_cons; left|].
    rewrite Hchat.
    assert (stale_key chats cutoff k = (Registry.lastActive chat <? cutoff)%Z) as Hkey.
    { unfold stale_key. by rewrite Hchat. }
    destruct (Registry.lastActive chat <? cutoff)%Z eqn:Hstale; cbn [mret M_ret ret].
    + rewrite filter_cons_True by (simpl; by rewrite Hkey).
      rewrite IH by (intros k' Hk'; apply Hdom; by apply elem_of_cons; right).
      rewrite <- (assoc_L (++)). simpl. by rewrite Nat.add_succ_r.
    + rewrite filter_cons_False by (simpl; rewrite Hkey; by intros []).
      apply IH. intros k' Hk'. apply Hdom. by apply elem_of_cons; right.
Qed.

(** X8. The cleanup of the RTDB variant.  When its requests are served it
    deletes, in one write, exactly the chats last active before the cutoff
    and returns their number; the other chats, the update cursor and the
    Firestore document are as before. *)
Theorem removeInactiveChats_rtdb_removes w daysOld :
  store_served w →
  let cutoff := cutoffTime (now w) daysOld in
  ∃ n w',
    removeInactiveChats_rtdb daysOld w = Ret n w' ∧
    active_chats w' = filter (λ e, ¬ stale cutoff e.2) (active_chats w) ∧
    size (active_chats w) = n + size (active_chats w') ∧
    doc w' = doc w ∧ rtdb_last_update_id w' = rtdb_last_update_id w.
Proof.
  intros Hserved cutoff.
  unfold removeInactiveChats_rtdb, try_catch, mbind, M_bind, bind, rtdb_get, Date_now.
  rewrite Hserved. unfold snapshot_exists.
  destruct (Nat.eqb_spec (size (active_chats w)) 0) as [Hempty|Hne]; simpl.
  { apply map_size_empty_iff in Hempty. rewrite Hempty.
    eexists _, _. split; [reflexivity|]. rewrite Hempty, map_filter_empty. done. }
  rewrite markInactive_rtdb_loop by (intros k Hk; by apply elem_of_dom, elem_of_keys).
  fold cutoff. simpl.
  set (ks := filter (λ k, stale_key (active_chats w) cutoff k) (JS.keys (active_chats w))).
  assert (foldr delete (active_chats w) ks
          = filter (λ e, ¬ stale cutoff e.2) (active_chats w)) as Hleft.
  { apply map_eq. intros k. rewrite lookup_foldr_delete, map_lookup_filter.
    destruct (active_chats w !! k) as [chat|] eqn:Hchat; simpl.
    - destruct (decide (k ∈ ks)) as [Hin|Hnotin].
      + apply list_elem_of_filter in Hin as [Hk _]. unfold stale_key in Hk.
        rewrite Hchat in Hk. simpl in Hk. by rewrite option_guard_False by tauto.
      + rewrite option_guard_True; [done|]. simpl. intros Hstale. apply Hnotin.
        apply list_elem_of_filter. split; [|by apply elem_of_keys, elem_of_dom].
        unfold stale_key. by rewrite Hchat.
    - by destruct (decide (k ∈ ks)). }
  assert (size (active_chats w) = length ks + size (foldr delete (active_chats w) ks)) as Hsize.
  { apply size_foldr_delete; [apply NoDup_filter, keys_NoDup|].
    intros k [_ Hk]%list_elem_of_filter. by apply elem_of_dom, elem_of_keys. }
  destruct (Nat.ltb_spec 0 (length ks)) as [Hsome|Hnone'].
  - unfold rtdb_update_null. rewrite Hserved. simpl.
    eexists _, _. split; [reflexivity|]. simpl. by rewrite <- Hleft.
  - simpl. eexists _, _. split; [reflexivity|].
    assert (ks = []) as Hks by (destruct ks; simpl in *; [done|lia]).
    rewrite Hks in *. simpl in *. by rewrite <- Hleft.
Qed.

Lemma filter_keys_entries {V} (m : gmap string V) (Q : V → bool) (l : list (string * V)) :
  (∀ k v, (k, v) ∈ l → m !! k = Some v) →
  filter (λ k, from_option Q false (m !! k)) l.*1 = (filter (λ e, Q e.2) l).*1.
Proof.
  induction l as [|[k v] l IH]; intros Hl; [done|]. cbn [fmap list_fmap fst].
  assert (m !! k = Some v) as Hk by (apply Hl; by apply elem_of_cons; left).
  specialize (IH (λ k' v' Hin, Hl k' v' (proj2 (elem_of_cons _ _ _) (or_intror Hin)))).
  destruct (Q v) eqn:HQ.
  - rewrite !filter_cons_True by (rewrite ?Hk; simpl; by rewrite HQ).
    cbn [fmap list_fmap fst]. by rewrite <- IH.
  - rewrite !filter_cons_False by (rewrite ?Hk; simpl; rewrite HQ; by intros []).
    done.
Qed.

(** Counting the keys whose entry satisfies [Q] counts the entries that do. *)
Lemma length_filter_keys {V} (m : gmap string V) (Q : V → bool) :
  length (filter (λ k, from_option Q false (m !! k)) (JS.keys m))
  = size (filter (λ e, Q e.2) m).
Proof.
  unfold JS.keys, JS.entries.
  rewrite filter_keys_entries by (intros k v; apply elem_of_map_to_list).
  rewrite length_fmap, map_filter_alt, <- length_map_to_list.
  apply Permutation_length. symmetry. apply map_to_list_to_map.
  apply (sublist_NoDup _ (map_to_list m).*1); [|apply fmap_sublist, sublist_filter].
  apply NoDup_fst_map_to_list.
Qed.

Lemma lookup_foldr_null (m : gmap string (option Registry.ChatEntry)) ks k :
  foldr (λ k m, <[k := None]> m) m ks !! k = if decide (k ∈ ks) then Some None else m !! k.
Proof.
  induction ks as [|k' ks IH]; cbn [foldr].
  - destruct (decide (k ∈ [])) as [Hin|]; [|done]. by apply not_elem_of_nil in Hin.
  - destruct (decide (k = k')) as [->|Hne].
    + rewrite lookup_insert_eq. destruct (decide (k' ∈ k' :: ks)) as [|Hnotin]; [done|].
      destruct Hnotin. by apply elem_of_cons; left.
    + rewrite lookup_insert_ne, IH by done.
      destruct (decide (k ∈ ks)) as [Hin|Hnotin], (decide (k ∈ k' :: ks)) as [Hin'|Hnotin'];
        try done.
      * destruct Hnotin'. by apply elem_of_cons; right.
      * by apply elem_of_cons in Hin' as [?|?].
Qed.

Lemma markInactive_loop chats cutoff l :
  (∀ k, k ∈ l → ∃ chat, chats !! k = Some (Some chat)) →
  ∀ updates n w,
    foldM (markInactive chats cutoff) l (updates, n) w
    = Ret (updates ++ filter (λ k, stale_entry chats cutoff k) l,
           n + length (filter (λ k, stale_entry chats cutoff k) l)) w.
Proof.
  induction l as [|k l IH]; intros Hdom updates n w; cbn [foldM].
  - by rewrite filter_nil, (right_id_L [] (++)), Nat.add_0_r.
  - unfold bind. unfold markInactive at 1.
    destruct (Hdom k) as [chat Hchat]; [by apply elem_of_cons; left|].
    rewrite Hchat.
    assert (stale_entry chats cutoff k = (Registry.lastActive chat <? cutoff)%Z) as Hkey.
    { unfold stale_entry. by rewrite Hchat. }
    destruct (Registry.lastActive chat <? cutoff)%Z eqn:Hstale; cbn [mret M_ret ret].
    + rewrite filter_cons_True by (simpl; by rewrite Hkey).
      rewrite IH by (intros k' Hk'; apply Hdom; by apply elem_of_cons; right).
      rewrite <- (assoc_L (++)). simpl. by rewrite Nat.add_succ_r.
    + rewrite filter_cons_False by (simpl; rewrite Hkey; by intros []).
      apply IH. intros k' Hk'. apply Hdom. by apply elem_of_cons; right.
Qed.

(** The loop stops at the first [null] entry. *)
Lemma markInactive_null chats cutoff l :
  (∃ k, k ∈ l ∧ chats !! k = Some None) →
  ∀ acc w, ∃ e, foldM (markInactive chats cutoff) l acc w = Throw e w.
Proof.
  induction l as [|k l IH]; intros (k0 & Hin & Hnull) [updates n] w.
  { by apply not_elem_of_nil in Hin. }
  cbn [foldM]. unfold bind. unfold markInactive at 1.
  destruct (chats !! k) as [[chat|]|] eqn:Hchat; [|by eexists..].
  assert (∃ k, k ∈ l ∧ chats !! k = Some None) as Hrest.
  { apply elem_of_cons in Hin as [->|Hin]; [congruence|by exists k0]. }
  destruct (Registry.lastActive chat <? cutoff)%Z; by apply IH.
Qed.

(** X9. The cleanup of the Firestore variant.  On a registry without [null]
    entries, with its requests served, it returns the number of chats last
    active before the cutoff; these entries are set to [null], not removed:
    the registry keeps every key, so the chat ids it lists are the ones it
    listed before. *)
Theorem removeInactiveChats_nulls w d daysOld :
  store_served w →
  doc w = Some d →
  no_null d →
  plain_keys d →
  let cutoff := cutoffTime (now w) daysOld in
  ∃ w' d',
    removeInactiveChats daysOld w
    = Ret (size (filter (λ e, from_option (stale cutoff) false e.2) (chats d))) w' ∧
    doc w' = Some d' ∧
    chats d' = nulled cutoff <$> chats d ∧
    dom (chats d') = dom (chats d) ∧
    last_update_id d' = last_update_id d ∧
    active_chats w' = active_chats w ∧
    returned (getAllActiveChatIds w') = returned (getAllActiveChatIds w).
Proof.
  intros Hserved Hdoc Hnonull Hplain cutoff.
  assert (returned (getAllActiveChatIds w)
          = Some (JS.parseInt <$> JS.keys (chats d))) as Hbefore.
  { rewrite getAllActiveChatIds_run, Hserved, Hdoc. done. }
  unfold removeInactiveChats, try_catch, mbind, M_bind, bind, getDoc, Date_now.
  rewrite Hserved, Hdoc.
  rewrite markInactive_loop.
  2:{ intros k [entry Hk]%elem_of_keys%elem_of_dom.
      destruct (Hnonull k entry Hk) as [chat ->]. by exists chat. }
  fold cutoff. cbn [fst snd].
  set (ks := filter (λ k, stale_entry (chats d) cutoff k) (JS.keys (chats d))).
  assert (length ks = size (filter (λ e, from_option (stale cutoff) false e.2) (chats d)))
    as Hcount by apply (length_filter_keys (chats d) (from_option (stale cutoff) false)).
  assert (foldr (λ k m, <[k := None]> m) (chats d) ks = nulled cutoff <$> chats d) as Hnulled.
  { apply map_eq. intros k. rewrite lookup_foldr_null, lookup_fmap.
    destruct (chats d !! k) as [entry|] eqn:Hk; simpl.
    - destruct (Hnonull k entry Hk) as [chat ->]. simpl.
      destruct (decide (k ∈ ks)) as [Hin|Hnotin].
      + apply list_elem_of_filter in Hin as [Hstale _]. unfold stale_entry in Hstale.
        rewrite Hk in Hstale. simpl in Hstale. by destruct (stale cutoff chat).
      + destruct (stale cutoff chat) eqn:Hstale; [|done]. destruct Hnotin.
        apply list_elem_of_filter. split; [|by apply elem_of_keys, elem_of_dom].
        unfold stale_entry. rewrite Hk. simpl. by rewrite Hstale.
    - destruct (decide (k ∈ ks)) as [Hin|]; [|done].
      apply list_elem_of_filter in Hin as [_ Hin%elem_of_keys%elem_of_dom].
      rewrite Hk in Hin. by destruct Hin. }
  simpl. rewrite <- Hcount.
  destruct (Nat.ltb_spec 0 (length ks)) as [Hsome|Hnone].
  - unfold updateDoc_null. rewrite Hserved, Hdoc.
    assert (forallb field_name ks = true) as ->.
    { apply forallb_forall. intros k [_ Hk]%list_elem_of_In%list_elem_of_filter.
      apply Hplain. by apply elem_of_keys. }
    simpl. eexists _, _. split; [reflexivity|]. simpl. split; [reflexivity|]. simpl.
    rewrite Hnulled. repeat split; try done.
    + by rewrite dom_fmap_L.
    + rewrite Hbefore, getAllActiveChatIds_run. simpl. rewrite Hserved. simpl.
      by rewrite keys_fmap.
  - assert (ks = []) as Hks by (destruct ks; simpl in *; [done|lia]).
    rewrite Hks in Hnulled. simpl in Hnulled.
    exists w, d. rewrite Hks. simpl. repeat split; done.
Qed.

(** X10. After a cleanup that marked a chat, the Firestore variant cleans no
    more: on a registry with a [null] entry, [removeInactiveChats] returns 0
    and changes no store, whatever the age of the other chats. *)
Theorem removeInactiveChats_after_null w d k daysOld :
  rejects w GetDoc = false →
  doc w = Some d →
  chats d !! k = Some None →
  ∃ w',
    removeInactiveChats daysOld w = Ret 0 w' ∧
    doc w' = doc w ∧ active_chats w' = active_chats w ∧
    console w' = console w ++ ["Error removing inactive chats"].
Proof.
  intros Hread Hdoc Hnull.
  unfold removeInactiveChats, try_catch, mbind, M_bind, bind, getDoc, Date_now.
  rewrite Hread, Hdoc.
  edestruct (markInactive_null (chats d) (cutoffTime (now w) daysOld) (JS.keys (chats d)))
    as [e ->].
  { exists k. split; [|done]. by apply elem_of_keys, elem_of_dom. }
  by eexists.
Qed.

End RegistryCleanup.

(** ** The discovery script *)

Section DiscoveryProperties.
Import Eff Discovery.

Lemma sendWelcomeMessage_posts env chatId firstName w :
  ∃ sent w',
    sendWelcomeMessage env chatId firstName w = Ret sent w' ∧
    posted w' = posted w ++ [{| Telegram.chat_id := Some chatId;
                                Telegram.text := Bot.welcome_message firstName;
                                Telegram.parse_mode := "HTML" |}] ∧
    registry w' = registry w ∧ last_update_id w' = last_update_id w ∧
    polled w' = polled w.
Proof.
  unfold sendWelcomeMessage, try_catch, mbind, M_bind, bind, fetch_message.
  destruct (sendMessage env _ _) as [|[|[body|]]]; simpl; by eexists _, _.
Qed.

(** The registration step on the registry of the script's world. *)
Lemma saveChat_run env chat w :
  let o := saveChat env (Bot.id chat) (Bot.username chat) (Bot.first_name chat) w in
  let w' := state_of o in
  Chats.rejects (registry w') = Chats.rejects (registry w) ∧
  last_update_id w' = last_update_id w ∧ polled w' = polled w ∧ posted w' = posted w ∧
  if Chats.rejects (registry w) (Chats.RestPut (chat_path chat))
  then returned o = None ∧
       Chats.active_chats (registry w') = Chats.active_chats (registry w)
  else returned o = Some tt ∧
       ∃ entry,
         Chats.active_chats (registry w')
         = <[Chats.key (Bot.id chat) := entry]> (Chats.active_chats (registry w)) ∧
         Registry.chatId entry = Bot.id chat ∧
         Registry.addedAt entry = Registry.lastActive entry.
Proof.
  unfold saveChat, Chats.discovery_save, mbind, M_bind, bind, Chats.Date_now,
    Chats.rtdb_set_chat, chat_path. simpl.
  destruct (Chats.rejects (registry w) _); simpl; repeat split; try done.
  by eexists.
Qed.

Lemma registered_from_refl chats m : registered_from chats m m.
Proof. intros k. by left. Qed.

Lemma registered_from_insert chats chat entry m :
  chat ∈ chats →
  Registry.chatId entry = Bot.id chat →
  Registry.addedAt entry = Registry.lastActive entry →
  registered_from chats m (<[Chats.key (Bot.id chat) := entry]> m).
Proof.
  intros Hin Hid Htimes k. destruct (decide (k = Chats.key (Bot.id chat))) as [->|Hne].
  - right. exists chat, entry. by rewrite lookup_insert_eq.
  - left. by rewrite lookup_insert_ne.
Qed.

Lemma registered_from_trans chats1 chats2 m1 m2 m3 :
  registered_from chats1 m1 m2 → registered_from chats2 m2 m3 →
  registered_from (chats1 ++ chats2) m1 m3.
Proof.
  intros H12 H23 k. destruct (H23 k) as [Heq|(chat & entry & Hin & -> & Hk & Hid & Ht)].
  - rewrite Heq. destruct (H12 k) as [?|(chat & entry & Hin & -> & Hk & Hid & Ht)]; [by left|].
    right. exists chat, entry. repeat split; try done. apply elem_of_app. by left.
  - right. exists chat, entry. repeat split; try done. apply elem_of_app. by right.
Qed.

Lemma accepted_cons r update updates :
  accepted r (update :: updates) = accepted r [update] ++ accepted r updates.
Proof.
  unfold accepted. cbn [omap list_omap]. destruct (private_chat update) as [chat|]; [|done].
  rewrite (filter_cons _ chat (omap _ _)), (filter_cons _ chat []), filter_nil.
  by case_decide.
Qed.

(** One update: the cursor candidate moves to the larger id; a private chat
    whose registration is accepted is registered and sent one welcome; nothing
    else is posted or written. *)
Lemma processUpdate_run env n latest update w :
  ∃ n' w',
    processUpdate env (n, latest) update w
    = Ret (n', Z.max latest (Bot.update_id update)) w' ∧
    Chats.rejects (registry w') = Chats.rejects (registry w) ∧
    last_update_id w' = last_update_id w ∧ polled w' = polled w ∧
    posted w' = posted w ++ (welcome_request <$> accepted (registry w) [update]) ∧
    n ≤ n' ≤ n + length (accepted (registry w) [update]) ∧
    registered_from (accepted (registry w) [update])
      (Chats.active_chats (registry w)) (Chats.active_chats (registry w')).
Proof.
  unfold processUpdate.
  unfold mbind at 1, M_bind at 1, bind at 1, console_log at 1, modify at 1.
  assert ((if (latest <? Bot.update_id update)%Z then Bot.update_id update else latest)
          = Z.max latest (Bot.update_id update)) as ->.
  { destruct (Z.ltb_spec latest (Bot.update_id update)); lia. }
  unfold accepted, private_chat. cbn [omap list_omap].
  destruct (Bot.message update) as [message|]; simpl;
    [|eexists _, _; split; [reflexivity|]; simpl; rewrite (right_id_L [] (++));
      repeat split; try done; try lia; apply registered_from_refl].
  destruct (String.eqb (Bot.type (Bot.chat message)) "private"); simpl;
    [|eexists _, _; split; [reflexivity|]; simpl; rewrite (right_id_L [] (++));
      repeat split; try done; try lia; apply registered_from_refl].
  set (chat := Bot.chat message).
  unfold mbind at 1, M_bind at 1, bind at 1, console_log at 1, modify at 1.
  unfold try_catch. unfold mbind at 1, M_bind at 1, bind at 1.
  match goal with |- context [saveChat env _ _ _ ?w0] =>
    pose proof (saveChat_run env chat w0) as Hsave;
    destruct (saveChat env (Bot.id chat) (Bot.username chat) (Bot.first_name chat) w0)
      as [[] w1|e w1]
  end; simpl in Hsave; destruct Hsave as (Hrej & Hcursor & Hpolled & Hposted & Hsave);
    rewrite filter_cons, filter_nil.
  - destruct (Chats.rejects (registry w) (Chats.RestPut (chat_path chat))) eqn:Hput;
      [by destruct Hsave|].
    destruct Hsave as (_ & entry & Hchats & Hid & Htimes).
    rewrite decide_True by (unfold chat in *; simpl; congruence).
    unfold mbind at 1, M_bind at 1, bind at 1, console_log at 1, modify at 1.
    unfold mbind at 1, M_bind at 1, bind at 1.
    match goal with |- context [sendWelcomeMessage env _ _ ?w2] =>
      destruct (sendWelcomeMessage_posts env (Bot.id chat) (Bot.first_name chat) w2)
        as (sent & w3 & -> & Hposted3 & Hreg3 & Hcursor3 & Hpolled3)
    end. simpl in *.
    destruct sent; unfold mbind, M_bind, bind, console_log, modify; simpl;
      eexists _, _; (split; [reflexivity|]); simpl;
      rewrite Hreg3, Hposted3, Hposted, Hcursor3, Hpolled3, Hchats; simpl;
      (repeat split; try done; try lia);
      apply registered_from_insert; try done; by apply list_elem_of_singleton.
  - destruct (Chats.rejects (registry w) (Chats.RestPut (chat_path chat))) eqn:Hput;
      [|by destruct Hsave].
    destruct Hsave as (_ & Hchats).
    rewrite decide_False by (unfold chat in *; simpl; congruence).
    unfold mbind, M_bind, bind, console_log, modify; simpl.
    eexists _, _; (split; [reflexivity|]); simpl.
    rewrite Hposted, Hchats, (right_id_L [] (++)).
    repeat split; try done; try lia. apply registered_from_refl.
Qed.

Lemma updates_loop_run env updates :
  ∀ n latest w, ∃ n' w',
    foldM (processUpdate env) updates (n, latest) w = Ret (n', latest_id latest updates) w' ∧
    Chats.rejects (registry w') = Chats.rejects (registry w) ∧
    last_update_id w' = last_update_id w ∧ polled w' = polled w ∧
    posted w' = posted w ++ (welcome_request <$> accepted (registry w) updates) ∧
    n ≤ n' ≤ n + length (accepted (registry w) updates) ∧
    registered_from (accepted (registry w) updates)
      (Chats.active_chats (registry w)) (Chats.active_chats (registry w')).
Proof.
  induction updates as [|update updates IH]; intros n latest w; cbn [foldM latest_id foldl].
  - exists n, w. change (accepted (registry w) []) with (@nil Bot.Chat).
    rewrite fmap_nil, (right_id_L [] (++)). repeat split; try done; try (simpl; lia).
    apply registered_from_refl.
  - unfold bind.
    destruct (processUpdate_run env n latest update w)
      as (n1 & w1 & -> & Hrej1 & Hcursor1 & Hpolled1 & Hposted1 & Hn1 & Hreg1).
    destruct (IH n1 (Z.max latest (Bot.update_id update)) w1)
      as (n2 & w2 & -> & Hrej2 & Hcursor2 & Hpolled2 & Hposted2 & Hn2 & Hreg2).
    assert (accepted (registry w1) updates = accepted (registry w) updates) as Hsame.
    { unfold accepted. by rewrite Hrej1. }
    rewrite Hsame in *.
    exists n2, w2. rewrite (accepted_cons (registry w) update updates).
    split; [done|]. rewrite fmap_app, length_app.
    repeat split; try congruence; try lia.
    + by rewrite Hposted2, Hposted1, <- (assoc_L (++)).
    + by eapply registered_from_trans.
Qed.

Lemma latest_id_ge updates : ∀ from, (from ≤ latest_id from updates)%Z.
Proof.
  induction updates as [|update updates IH]; intros from; cbn [latest_id foldl]; [lia|].
  specialize (IH (Z.max from (Bot.update_id update))). unfold latest_id in IH. lia.
Qed.

Lemma cursor_stored latest w :
  last_update_id w = Some latest → cursor w = latest.
Proof.
  unfold cursor. intros ->. simpl. unfold Chats.truthy_Z.
  by destruct (Z.eqb_spec latest 0) as [->|].
Qed.

#[local] Arguments foldM : simpl never.

(** A whole run: how it ends, and what it leaves. *)
Lemma testTelegramDiscovery_run env w :
  let updates := polled_updates env w in
  let chats := accepted (registry w) updates in
  ∃ run w',
    testTelegramDiscovery env w = Ret run w' ∧
    posted w' = posted w ++ (welcome_request <$> chats) ∧
    registered_from chats (Chats.active_chats (registry w)) (Chats.active_chats (registry w')) ∧
    polled w'
    = polled w ++ (if JS.truthy_opt JS.truthy_string (TELEGRAM_BOT_TOKEN env)
                      && JS.truthy_opt JS.truthy_string (FIREBASE_DB_URL env)
                      && negb (get_fails env "/telegram/last_update_id")
                   then [Bot.params (next_offset w) 30] else []) ∧
    match run with
    | Completed processed newChats latest =>
        updates ≠ [] ∧
        processed = length updates ∧ newChats ≤ length chats ∧
        latest = latest_id (cursor w) updates ∧ cursor w' = latest
    | NoUpdates => updates = [] ∧ last_update_id w' = last_update_id w
    | Exited code => code = 1%Z ∧ last_update_id w' = last_update_id w
    end.
Proof.
  unfold polled_updates, testTelegramDiscovery.
  destruct (JS.truthy_opt JS.truthy_string (TELEGRAM_BOT_TOKEN env)); simpl;
    [|eexists _, _; split; [reflexivity|]; simpl; rewrite !(right_id_L [] (++));
      repeat split; try done; apply registered_from_refl].
  destruct (JS.truthy_opt JS.truthy_string (FIREBASE_DB_URL env)); simpl;
    [|eexists _, _; split; [reflexivity|]; simpl; rewrite !(right_id_L [] (++));
      repeat split; try done; apply registered_from_refl].
  unfold try_catch. unfold mbind at 1, M_bind at 1, bind at 1, get_last_update_id.
  destruct (get_fails env "/telegram/last_update_id"); simpl;
    [eexists _, _; split; [reflexivity|]; simpl; rewrite !(right_id_L [] (++));
      repeat split; try done; apply registered_from_refl|].
  fold (cursor w). fold (next_offset w).
  unfold getUpdates, try_catch, fetch_updates, mbind, M_bind, bind, console_log, modify,
    Bot.response_json, Bot.data_ok, put_last_update_id. simpl.
  set (reply := poll env (length (polled w)) (Bot.params (next_offset w) 30)).
  change (poll env _ _) with reply.
  destruct reply as [|[|[data|]]]; simpl;
    try (eexists _, _; split; [reflexivity|]; simpl; rewrite !(right_id_L [] (++));
         repeat split; try done; apply registered_from_refl).
  destruct (Bot.ok data); simpl;
    [|eexists _, _; split; [reflexivity|]; simpl; rewrite !(right_id_L [] (++));
      repeat split; try done; apply registered_from_refl].
  destruct (Bot.result data) as [[|update updates]|]; simpl;
    try (eexists _, _; split; [reflexivity|]; simpl; rewrite !(right_id_L [] (++));
         repeat split; try done; apply registered_from_refl).
  match goal with |- context [foldM (processUpdate env) ?l (0, ?c) ?w0] =>
    destruct (updates_loop_run env l 0 c w0)
      as (n' & w1 & -> & Hrej & Hcursor & Hpolled & Hposted & Hn & Hreg)
  end. simpl in Hrej, Hcursor, Hpolled, Hposted, Hn, Hreg.
  pose proof (latest_id_ge (update :: updates) (cursor w)) as Hge.
  set (latest := latest_id (cursor w) (update :: updates)) in *.
  destruct (Z.ltb_spec (cursor w) latest) as [Hlt|Hle]; simpl.
  - rewrite Hrej.
    destruct (Chats.rejects (registry w) (Chats.RestPut "/telegram/last_update_id")); simpl.
    + eexists _, _. split; [reflexivity|]. simpl. rewrite Hposted, Hpolled.
      repeat split; try done.
    + eexists _, _. split; [reflexivity|]. simpl. rewrite Hposted, Hpolled.
      repeat split; try done; try lia.
      unfold cursor. simpl. unfold Chats.truthy_Z.
      by destruct (Z.eqb_spec latest 0) as [->|].
  - eexists _, _. split; [reflexivity|]. simpl. rewrite Hposted, Hpolled.
    repeat split; try done; try lia.
    unfold cursor at 1. simpl. rewrite Hcursor. fold (cursor w). lia.
Qed.

(** X11. The update cursor of the discovery script.  Every run ends without
    throwing.  A run that completes reports the largest update id among the
    stored cursor and the updates it polled, and leaves exactly that id as
    the stored cursor; a run that ends early or fails leaves the cursor as it
    was.  The one poll of a run asks for the updates after the stored cursor
    (no offset while the cursor is 0). *)
Theorem discovery_cursor env w :
  ∃ run w',
    testTelegramDiscovery env w = Ret run w' ∧
    (cursor w ≤ cursor w')%Z ∧
    match run with
    | Completed processed newChats latest =>
        processed = length (polled_updates env w) ∧
        latest = latest_id (cursor w) (polled_updates env w) ∧
        cursor w' = latest
    | NoUpdates => last_update_id w' = last_update_id w
    | Exited code => code = 1%Z ∧ last_update_id w' = last_update_id w
    end ∧
    (discovery_configured env → get_fails env "/telegram/last_update_id" = false →
     polled w' = polled w ++ [Bot.params (next_offset w) 30] ∧
     Bot.offset (Bot.params (next_offset w) 30)
     = if (0 <? cursor w)%Z then Some (Bot.toString (cursor w + 1)) else None).
Proof.
  destruct (testTelegramDiscovery_run env w) as (run & w' & Hrun & _ & _ & Hpolled & Hend).
  exists run, w'. split; [done|]. split; [|split].
  - destruct run as [code| |processed newChats latest].
    + destruct Hend as [_ Hsame]. unfold cursor. rewrite Hsame. lia.
    + destruct Hend as [_ Hsame]. unfold cursor. rewrite Hsame. lia.
    + destruct Hend as (_ & _ & _ & -> & ->). apply latest_id_ge.
  - destruct run as [code| |processed newChats latest]; [done|by destruct Hend|].
    by destruct Hend as (_ & -> & _ & -> & ->).
  - intros [Htoken Hurl] Hget. rewrite Htoken, Hurl, Hget in Hpolled. split; [done|].
    unfold next_offset, Bot.params. simpl.
    destruct (Z.ltb_spec 0 (cursor w)); [|done].
    unfold Chats.truthy_Z. by destruct (Z.eqb_spec (cursor w + 1) 0); [lia|].
Qed.

(** X12. Who gets registered.  Whatever the updates and however the run
    ends, a key of the registry is afterwards as it was before, or holds the
    entry of a private chat that sent a message in the polled updates (and
    whose registration was accepted), with [addedAt] and [lastActive] both at
    the time of the registration: a group chat, or an update without message,
    registers nothing. *)
Theorem discovery_registers_private_chats env w :
  ∃ run w',
    testTelegramDiscovery env w = Ret run w' ∧
    ∀ k,
      Chats.active_chats (registry w') !! k = Chats.active_chats (registry w) !! k ∨
      ∃ update message entry,
        update ∈ polled_updates env w ∧
        Bot.message update = Some message ∧
        Bot.type (Bot.chat message) = "private" ∧
        k = Chats.key (Bot.id (Bot.chat message)) ∧
        Chats.active_chats (registry w') !! k = Some entry ∧
        Registry.chatId entry = Bot.id (Bot.chat message) ∧
        Registry.addedAt entry = Registry.lastActive entry.
Proof.
  destruct (testTelegramDiscovery_run env w) as (run & w' & Hrun & _ & Hreg & _).
  exists run, w'. split; [done|]. intros k.
  destruct (Hreg k) as [?|(chat & entry & Hin & -> & Hentry & Hid & Htimes)]; [by left|].
  right. apply list_elem_of_filter in Hin as [_ Hin].
  apply list_elem_of_omap in Hin as (update & Hupdate & Hprivate).
  unfold private_chat in Hprivate.
  destruct (Bot.message update) as [message|] eqn:Hmessage; [|done].
  destruct (String.eqb_spec (Bot.type (Bot.chat message)) "private") as [Htype|]; [|done].
  injection Hprivate as <-. by exists update, message, entry.
Qed.

(** X13. Who gets welcomed.  The messages a run posts are exactly one welcome
    for each private chat of the polled updates whose registration was
    accepted, in the order of the updates: a chat whose registration failed
    gets no welcome, and a failure for one chat does not stop the others.
    The number of new chats a run reports is at most the number of these
    welcomes. *)
Theorem discovery_welcomes env w :
  ∃ run w',
    testTelegramDiscovery env w = Ret run w' ∧
    posted w'
    = posted w ++ (welcome_request <$> accepted (registry w) (polled_updates env w)) ∧
    match run with
    | Completed _ newChats _ =>
        newChats ≤ length (accepted (registry w) (polled_updates env w))
    | _ => True
    end.
Proof.
  destruct (testTelegramDiscovery_run env w) as (run & w' & Hrun & Hposted & _ & _ & Hend).
  exists run, w'. split; [done|]. split; [done|].
  destruct run; try done. by destruct Hend as (_ & _ & ? & _).
Qed.

(** X14. Resuming.  After a run that completed, the next run polls the Bot
    API for the updates after the largest id the first one saw. *)
Theorem discovery_resumes env env' w processed newChats latest w' :
  testTelegramDiscovery env w = Ret (Completed processed newChats latest) w' →
  (0 < latest)%Z →
  discovery_configured env' →
  get_fails env' "/telegram/last_update_id" = false →
  polled (state_of (testTelegramDiscovery env' w'))
  = polled w' ++ [{| Bot.timeout := "30"; Bot.offset := Some (Bot.toString (latest + 1)) |}].
Proof.
  intros Hrun Hlatest [Htoken Hurl] Hget.
  destruct (testTelegramDiscovery_run env w) as (run & w1 & Hrun1 & _ & _ & _ & Hend).
  rewrite Hrun in Hrun1. injection Hrun1 as <- <-.
  destruct Hend as (_ & _ & _ & _ & Hcursor).
  destruct (testTelegramDiscovery_run env' w') as (run2 & w2 & -> & _ & _ & Hpolled & _).
  simpl. rewrite Hpolled, Htoken, Hurl, Hget. simpl. do 2 f_equal.
  unfold next_offset, Bot.params. rewrite Hcursor. simpl.
  destruct (Z.ltb_spec 0 latest); [|lia].
  unfold Chats.truthy_Z. destruct (Z.eqb_spec (latest + 1) 0); [lia|]. done.
Qed.

End DiscoveryProperties.

(** ** lib/telegram: the welcome message and the update poll *)

Section BotProperties.
Import Eff.

Lemma welcome_message_text firstName :
  Bot.welcome_message firstName = welcome_text firstName.
Proof.
  unfold Bot.welcome_message.
  set (t := welcome_text firstName).
  transitivity (JS.trim (Telegram.nl +:+ (t +:+ Telegram.nl))).
  { f_equal. f_equal. unfold t, welcome_text. by rewrite !string_app_assoc. }
  assert (∃ s1, t = String "H" s1) as [s1 Hs1].
  { unfold t, welcome_text, Bot.greeting.
    destruct firstName as [name|]; [destruct (JS.truthy_string name)|]; by eexists. }
  eapply (trim_lines t _ _ _ "."%char).
  - exact Hs1.
  - unfold t, welcome_text.
    change "To stop receiving notifications, you can block this bot anytime."
      with ("To stop receiving notifications, you can block this bot anytime" +:+ ".").
    rewrite <- !string_app_assoc. reflexivity.
  - reflexivity.
  - reflexivity.
Qed.

(** X15. The welcome.  [sendWelcomeMessage] never throws; it posts nothing
    when the token is not set, and otherwise exactly one message, in HTML, to
    the chat: the greeting (by first name when there is a non-empty one, [Hi
    there!] otherwise) and the fixed text, without the line breaks around the
    template. *)
Theorem sendWelcomeMessage_welcome env chatId firstName s :
  ∃ sent s',
    Bot.sendWelcomeMessage env chatId firstName s = Ret sent s' ∧
    (if JS.truthy_opt JS.truthy_string (Telegram.TELEGRAM_BOT_TOKEN env)
     then Telegram.posted s'
          = Telegram.posted s ++ [{| Telegram.chat_id := chatId;
                                     Telegram.text := welcome_text firstName;
                                     Telegram.parse_mode := "HTML" |}]
     else Telegram.posted s' = Telegram.posted s ∧ sent = false) ∧
    (JS.truthy_opt JS.truthy_string firstName = false →
     ∃ rest, welcome_text firstName = "Hi there! 👋" +:+ rest) ∧
    (∀ name, firstName = Some name → name ≠ "" →
     ∃ rest, welcome_text firstName = "Hi " +:+ name +:+ "! 👋" +:+ rest).
Proof.
  assert (∃ sent s',
    Bot.sendWelcomeMessage env chatId firstName s = Ret sent s' ∧
    (if JS.truthy_opt JS.truthy_string (Telegram.TELEGRAM_BOT_TOKEN env)
     then Telegram.posted s'
          = Telegram.posted s ++ [{| Telegram.chat_id := chatId;
                                     Telegram.text := welcome_text firstName;
                                     Telegram.parse_mode := "HTML" |}]
     else Telegram.posted s' = Telegram.posted s ∧ sent = false)) as (sent & s' & Hrun & Hposted).
  { unfold Bot.sendWelcomeMessage, Telegram.sendTelegramMessage.
    rewrite welcome_message_text.
    destruct (JS.truthy_opt JS.truthy_string (Telegram.TELEGRAM_BOT_TOKEN env)); simpl;
      [|by eexists _, _].
    unfold try_catch, mbind, M_bind, bind, Telegram.fetch.
    destruct (Telegram.sendMessage env _ _) as [|[|[body|]]]; simpl; try by eexists _, _.
    destruct (Telegram.ok body); simpl; by eexists _, _. }
  exists sent, s'. split; [done|]. split; [done|]. split.
  - intros Hfalsy. unfold welcome_text, Bot.greeting.
    destruct firstName as [name|]; simpl in Hfalsy; [rewrite Hfalsy|];
      eexists; reflexivity.
  - intros name -> Hname. apply truthy_string_spec in Hname.
    unfold welcome_text, Bot.greeting. rewrite Hname.
    eexists. rewrite !string_app_assoc. reflexivity.
Qed.

(** X16. The update poll.  [getUpdates] never throws.  Without token it
    answers [null] and sends nothing.  Otherwise it sends one request, whose
    query carries the timeout (30 when left out) and carries an offset
    exactly when one is given that is not 0; it answers the [result] of a
    reply that says [ok], and [null] for every other reply and every
    failure. *)
Theorem getUpdates_total env offset timeout s :
  ∃ updates s',
    Bot.getUpdates env offset timeout s = Ret updates s' ∧
    if JS.truthy_opt JS.truthy_string (Bot.TELEGRAM_BOT_TOKEN env)
    then
      ∃ q,
        Bot.polled s' = Bot.polled s ++ [q] ∧
        Bot.timeout q = Bot.toString (default 30%Z timeout) ∧
        Bot.offset q
        = (if bool_decide (offset = None ∨ offset = Some 0%Z) then None
           else Bot.toString <$> offset) ∧
        updates = reply_updates (Bot.poll env (length (Bot.polled s)) q)
    else updates = None ∧ Bot.polled s' = Bot.polled s.
Proof.
  unfold Bot.getUpdates.
  destruct (JS.truthy_opt JS.truthy_string (Bot.TELEGRAM_BOT_TOKEN env)); simpl;
    [|by eexists _, _].
  assert (Bot.offset (Bot.params offset (default 30%Z timeout))
          = (if bool_decide (offset = None ∨ offset = Some 0%Z) then None
             else Bot.toString <$> offset)) as Hoffset.
  { unfold Bot.params, Chats.truthy_Z. cbn [Bot.offset]. destruct offset as [o|].
    - destruct (Z.eqb_spec o 0) as [->|Hne]; cbn [negb fmap option_fmap option_map].
      + rewrite bool_decide_eq_true_2; [done|by right].
      + rewrite bool_decide_eq_false_2; [done|]. intros [[=]|[=]]. done.
    - rewrite bool_decide_eq_true_2; [done|by left]. }
  unfold try_catch, mbind, M_bind, bind, Bot.fetch, reply_updates.
  destruct (Bot.poll env _ _) as [|[|[data|]]] eqn:Hreply; simpl.
  - eexists _, _. split; [reflexivity|]. eexists. simpl. by rewrite Hreply.
  - eexists _, _. split; [reflexivity|]. eexists. simpl. by rewrite Hreply.
  - destruct (Bot.ok data) eqn:Hok; simpl;
      eexists _, _; (split; [reflexivity|]); eexists; simpl; by rewrite Hreply, Hok.
  - eexists _, _. split; [reflexivity|]. eexists. simpl. by rewrite Hreply.
Qed.

End BotProperties.

(** ** The dummy alert *)

Section SendAlertProperties.
Import Eff SendAlert.
Variable Number_toString : JS.number → string.

Lemma dummy_alert_text timestamp :
  Telegram.alert_message Number_toString dummy_deviceName dummy_currentEnergy dummy_limit
    timestamp
  = dummy_text timestamp.
Proof.
  rewrite alert_message_text. unfold alert_text, dummy_text.
  assert (JS.toFixed Number_toString 2 dummy_currentEnergy = "1250.50") as ->
    by (vm_compute; reflexivity).
  assert (JS.toFixed Number_toString 2 dummy_limit = "1000.00") as ->
    by (vm_compute; reflexivity).
  assert (JS.toFixed Number_toString 2 (dummy_currentEnergy - dummy_limit)%float = "250.50")
    as -> by (vm_compute; reflexivity).
  reflexivity.
Qed.

Lemma dummy_requests_cons env start chatId chatIds :
  dummy_requests env start (chatId :: chatIds)
  = {| Telegram.chat_id := chatId; Telegram.text := dummy_text (now_utc env start);
       Telegram.parse_mode := "HTML" |} :: dummy_requests env (S start) chatIds.
Proof.
  unfold dummy_requests. rewrite imap_cons, Nat.add_0_r. f_equal.
  apply imap_ext. intros i chatId' _. simpl. by rewrite Nat.add_succ_r.
Qed.

Local Ltac accepted_reply Hall Hreply :=
  match type of Hreply with
  | sendMessage _ ?n ?req = _ =>
      let body := fresh "body" in
      let Hbody := fresh "Hbody" in
      let Hok := fresh "Hok" in
      destruct (Hall n req) as (body & Hbody & Hok);
      rewrite Hreply in Hbody; try done; injection Hbody as <-; congruence
  end.

Lemma dummy_alertChat_run env n chatId s :
  ∃ n' s',
    alertChat Number_toString env n chatId s = Ret n' s' ∧
    posted s' = posted s ++ dummy_requests env (length (posted s)) [chatId] ∧
    n ≤ n' ≤ S n ∧
    (accepts_all env → n' = S n).
Proof.
  unfold alertChat, sendEnergyAlert, try_catch, mbind, M_bind, bind, console_log, modify,
    fetch. simpl. rewrite dummy_alert_text.
  destruct (sendMessage env (length (posted s)) _) as [|[|[body|]]] eqn:Hreply; simpl.
  - eexists _, _. split; [reflexivity|]. simpl. rewrite dummy_requests_cons.
    repeat split; try done; try lia.
    intros Hall. accepted_reply Hall Hreply.
  - eexists _, _. split; [reflexivity|]. simpl. rewrite dummy_requests_cons.
    repeat split; try done; try lia.
    intros Hall. accepted_reply Hall Hreply.
  - destruct (Telegram.ok body) eqn:Hok; simpl;
      eexists _, _; (split; [reflexivity|]); simpl; rewrite dummy_requests_cons;
      repeat split; try done; try lia.
    intros Hall. accepted_reply Hall Hreply.
  - eexists _, _. split; [reflexivity|]. simpl. rewrite dummy_requests_cons.
    repeat split; try done; try lia.
    intros Hall. accepted_reply Hall Hreply.
Qed.

Lemma broadcast_loop env chatIds :
  ∀ n s, ∃ n' s',
    foldM (alertChat Number_toString env) chatIds n s = Ret n' s' ∧
    posted s' = posted s ++ dummy_requests env (length (posted s)) chatIds ∧
    n ≤ n' ≤ n + length chatIds ∧
    (accepts_all env → n' = n + length chatIds).
Proof.
  induction chatIds as [|chatId chatIds IH]; intros n s; cbn [foldM length].
  - exists n, s. unfold dummy_requests. simpl. rewrite (right_id_L [] (++)).
    repeat split; try done; lia.
  - unfold bind.
    destruct (dummy_alertChat_run env n chatId s) as (n1 & s1 & -> & Hposted1 & Hn1 & Hall1).
    destruct (IH n1 s1) as (n2 & s2 & -> & Hposted2 & Hn2 & Hall2).
    exists n2, s2. split; [done|]. rewrite dummy_requests_cons.
    rewrite Hposted2, Hposted1, dummy_requests_cons, length_app. simpl.
    rewrite <- (assoc_L (++)). simpl. rewrite Nat.add_1_r.
    repeat split; try done; try lia.
    intros Hall. rewrite Hall2, Hall1 by done. lia.
Qed.

(** X17. The dummy alert.  Every run of the script ends without throwing.
    A run that completes has posted one message to every registered chat, in
    the order of the registry's keys, each with the alert text for the dummy
    device: 1250.50, 1000.00 and 250.50 kWh.  It reports the number of chats
    and the number of messages the Bot API accepted, which is at most the
    number of chats; every other run posts nothing. *)
Theorem testSendAlert_broadcast env s :
  ∃ run s',
    testSendAlert Number_toString env s = Ret run s' ∧
    match run with
    | Completed totalChats alertsSent =>
        ∃ chats,
          telegram_active_chats env = Alerts.Got (Some chats) ∧
          totalChats = size chats ∧ alertsSent ≤ totalChats ∧
          (accepts_all env → alertsSent = totalChats) ∧
          posted s'
          = posted s ++ dummy_requests env (length (posted s))
                          (JS.parseInt <$> JS.keys chats)
    | _ => posted s' = posted s
    end ∧
    (∀ chats,
       send_alert_configured env →
       telegram_active_chats env = Alerts.Got (Some chats) →
       ∃ alertsSent, run = Completed (size chats) alertsSent).
Proof.
  unfold testSendAlert, send_alert_configured.
  destruct (JS.truthy_opt JS.truthy_string (TELEGRAM_BOT_TOKEN env)); simpl;
    [|eexists _, _; split; [reflexivity|]; split; [done|]; by intros ? [[=] _]].
  destruct (JS.truthy_opt JS.truthy_string (FIREBASE_DB_URL env)); simpl;
    [|eexists _, _; split; [reflexivity|]; split; [done|]; by intros ? [_ [=]]].
  unfold try_catch. unfold mbind at 1, M_bind at 1, bind at 1, getFirebaseData.
  destruct (telegram_active_chats env) as [|[chats|]]; simpl;
    [eexists _, _; split; [reflexivity|]; split; [done|]; by intros ? _ [=]
    | |eexists _, _; split; [reflexivity|]; split; [done|]; by intros ? _ [=]].
  unfold mbind at 1, M_bind at 1, bind at 1, console_log at 1, modify at 1.
  unfold mbind at 1, M_bind at 1, bind at 1.
  match goal with |- context [foldM _ ?l 0 ?s0] =>
    destruct (broadcast_loop env l 0 s0) as (n' & s1 & -> & Hposted & Hn & Hall)
  end. simpl in *.
  unfold mbind, M_bind, bind, console_log, modify. simpl.
  eexists _, _. split; [reflexivity|].
  rewrite length_fmap, keys_length in *. split.
  - exists chats. repeat split; try done; lia.
  - intros ? _ [= <-]. by eexists.
Qed.

End SendAlertProperties.

(** ** The devices of a user *)

Section DevicesProperties.
Import Eff Devices.

Lemma field_name_doc_id itemId : ChatStore.field_name itemId = true → doc_id itemId = true.
Proof.
  unfold ChatStore.field_name, doc_id. intros [Hne Hchars]%andb_true_iff.
  rewrite Hne. simpl. apply forallb_forall. intros c Hc.
  rewrite forallb_forall in Hchars. specialize (Hchars c Hc).
  apply negb_true_iff, bool_decide_eq_false in Hchars. apply negb_true_iff.
  destruct (Ascii.eqb_spec c "/") as [->|]; [|done].
  destruct Hchars. repeat constructor.
Qed.

Lemma arrayUnion_elem x l : x ∈ arrayUnion x l.
Proof.
  unfold arrayUnion. case_bool_decide; [done|]. apply elem_of_app. right.
  by apply list_elem_of_singleton.
Qed.

Lemma arrayUnion_NoDup x l : NoDup l → NoDup (arrayUnion x l).
Proof.
  unfold arrayUnion. case_bool_decide; [done|]. intros Hnd.
  apply NoDup_app. split; [done|]. split; [|apply NoDup_singleton].
  intros y Hy ->%list_elem_of_singleton. done.
Qed.

Lemma arrayUnion_idemp x l : arrayUnion x (arrayUnion x l) = arrayUnion x l.
Proof.
  unfold arrayUnion at 1. rewrite bool_decide_eq_true_2; [done|apply arrayUnion_elem].
Qed.

Lemma filter_all {A} (P : A → Prop) `{∀ x, Decision (P x)} (l : list A) :
  (∀ y, y ∈ l → P y) → filter P l = l.
Proof.
  induction l as [|y l IH]; intros Hall; [done|].
  rewrite filter_cons_True by (apply Hall; by apply elem_of_cons; left).
  f_equal. apply IH. intros z Hz. apply Hall. by apply elem_of_cons; right.
Qed.

Lemma arrayRemove_arrayUnion x l : x ∉ l → arrayRemove x (arrayUnion x l) = l.
Proof.
  intros Hx. unfold arrayUnion, arrayRemove. rewrite bool_decide_eq_false_2 by done.
  rewrite filter_app, filter_cons_False, filter_nil, (right_id_L [] (++)) by tauto.
  apply filter_all. by intros y Hy ->.
Qed.

Lemma arrayRemove_not_elem x l : x ∉ arrayRemove x l.
Proof. unfold arrayRemove. by intros [? _]%list_elem_of_filter. Qed.

(** What a served [addDevice] does when both documents exist. *)
Lemma addDevice_run w userId itemId customName u d :
  devices_served w →
  usable userId itemId →
  Migrate.user_data (firestore w) !! userId = Some u →
  Migrate.item_data (firestore w) !! itemId = Some d →
  addDevice userId itemId customName w
  = Ret tt
      (set_item_data
         (<[itemId := set_user_ids (arrayUnion userId) d]> (Migrate.item_data (firestore w)))
         (set_user_data
            (<[userId := set_device itemId customName u]> (Migrate.user_data (firestore w)))
            w)).
Proof.
  intros Hserved [Huser Hitem] Hu Hd.
  unfold addDevice, try_catch, mbind, M_bind, bind, doc, getDoc_item, devices_field,
    updateDoc_user, updateDoc_item.
  rewrite (field_name_doc_id itemId Hitem), Huser, Hitem. simpl.
  rewrite !Hserved, Hd. simpl. rewrite Hserved, Hu. simpl. rewrite Hserved, Hd. done.
Qed.

(** X18. Adding a device links both ways.  With the requests served, ids
    that are usable in paths, and both documents there, [addDevice] returns;
    afterwards the user lists the device under the custom name and the device
    lists the user, once; no other document changes. *)
Theorem addDevice_links w userId itemId customName :
  devices_served w →
  usable userId itemId →
  known w userId itemId →
  ∃ w',
    addDevice userId itemId customName w = Ret tt w' ∧
    lists_device w' userId itemId customName ∧
    lists_user w' itemId userId ∧
    (∀ d d', Migrate.item_data (firestore w) !! itemId = Some d →
             Migrate.item_data (firestore w') !! itemId = Some d' →
             NoDup (Migrate.Doc.user_ids d) → NoDup (Migrate.Doc.user_ids d')) ∧
    (∀ id, id ≠ userId →
       Migrate.user_data (firestore w') !! id = Migrate.user_data (firestore w) !! id) ∧
    (∀ id, id ≠ itemId →
       Migrate.item_data (firestore w') !! id = Migrate.item_data (firestore w) !! id) ∧
    Migrate.daily (firestore w') = Migrate.daily (firestore w) ∧
    Migrate.telegram_active_chats (firestore w')
    = Migrate.telegram_active_chats (firestore w).
Proof.
  intros Hserved Husable [[u Hu] [d Hd]].
  rewrite (addDevice_run w userId itemId customName u d) by done.
  eexists. split; [reflexivity|]. simpl. split_and!; try done.
  - eexists. split; [apply lookup_insert_eq|]. simpl. apply lookup_insert_eq.
  - eexists. split; [apply lookup_insert_eq|]. simpl. apply arrayUnion_elem.
  - intros d0 d' Hd0 Hd' Hnd. rewrite lookup_insert_eq in Hd'. injection Hd' as <-.
    simpl. apply arrayUnion_NoDup. congruence.
  - intros id Hid. by rewrite lookup_insert_ne.
  - intros id Hid. by rewrite lookup_insert_ne.
Qed.

(** X19. How [addDevice] fails.  For a device id that is not in the store it
    throws [Device ID does not exist] and writes nothing; for a user without
    document it throws and writes nothing; and when the write to the device
    is rejected it throws after the user's list was written: the user then
    lists the device while the device does not list the user. *)
Theorem addDevice_failures w userId itemId customName :
  usable userId itemId →
  rejects w (GetDoc "item-data" itemId) = false →
  (Migrate.item_data (firestore w) !! itemId = None →
   addDevice userId itemId customName w = Throw (JS.Error "Device ID does not exist") w) ∧
  (is_Some (Migrate.item_data (firestore w) !! itemId) →
   Migrate.user_data (firestore w) !! userId = None →
   ∃ e, addDevice userId itemId customName w = Throw e w) ∧
  (∀ d,
     Migrate.item_data (firestore w) !! itemId = Some d →
     is_Some (Migrate.user_data (firestore w) !! userId) →
     rejects w (UpdateDoc "user-data" userId) = false →
     rejects w (UpdateDoc "item-data" itemId) = true →
     ∃ e w',
       addDevice userId itemId customName w = Throw e w' ∧
       lists_device w' userId itemId customName ∧
       Migrate.item_data (firestore w') = Migrate.item_data (firestore w)).
Proof.
  intros [Huser Hitem] Hget.
  unfold addDevice, try_catch, mbind, M_bind, bind, doc, getDoc_item, devices_field,
    updateDoc_user, updateDoc_item.
  rewrite (field_name_doc_id itemId Hitem), Huser, Hitem. simpl. rewrite Hget.
  split_and!.
  - by intros ->.
  - intros [d ->] Hnone. simpl. destruct (rejects w (UpdateDoc "user-data" userId)).
    + by eexists.
    + rewrite Hnone. by eexists.
  - intros d -> [u Hu] Hput_user Hput_item. simpl. rewrite Hput_user, Hu. simpl.
    rewrite Hput_item. eexists _, _. split; [reflexivity|]. simpl. split; [|done].
    eexists. split; [apply lookup_insert_eq|]. apply lookup_insert_eq.
Qed.

(** X20. Adding twice is adding once: a second [addDevice] with the same
    arguments leaves the store as the first one did. *)
Theorem addDevice_twice w userId itemId customName :
  devices_served w →
  usable userId itemId →
  known w userId itemId →
  ∃ w',
    addDevice userId itemId customName w = Ret tt w' ∧
    addDevice userId itemId customName w' = Ret tt w'.
Proof.
  intros Hserved Husable [[u Hu] [d Hd]].
  rewrite (addDevice_run w userId itemId customName u d) by done.
  eexists. split; [reflexivity|].
  erewrite addDevice_run; [|done..|simpl; apply lookup_insert_eq|simpl; apply lookup_insert_eq].
  f_equal. unfold set_item_data, set_user_data. simpl. f_equal. f_equal.
  - rewrite insert_insert_eq. f_equal. unfold set_device. simpl. by rewrite insert_insert_eq.
  - rewrite insert_insert_eq. f_equal. unfold set_user_ids. simpl.
    by rewrite arrayUnion_idemp.
Qed.

(** What a served [deleteDevice] does when both documents exist. *)
Lemma deleteDevice_run w userId itemId u d :
  devices_served w →
  usable userId itemId →
  Migrate.user_data (firestore w) !! userId = Some u →
  Migrate.item_data (firestore w) !! itemId = Some d →
  deleteDevice userId itemId w
  = Ret tt
      (set_item_data
         (<[itemId := set_user_ids (arrayRemove userId) d]> (Migrate.item_data (firestore w)))
         (set_user_data
            (<[userId := delete_device itemId u]> (Migrate.user_data (firestore w)))
            w)).
Proof.
  intros Hserved [Huser Hitem] Hu Hd.
  unfold deleteDevice, try_catch, mbind, M_bind, bind, doc, devices_field,
    updateDoc_user, updateDoc_item.
  rewrite (field_name_doc_id itemId Hitem), Huser, Hitem. simpl.
  rewrite !Hserved, Hu. simpl. rewrite Hserved, Hd. done.
Qed.

(** X21. Deleting undoes adding.  When the user did not list the device and
    the device did not list the user, [addDevice] followed by [deleteDevice]
    leaves the store exactly as it was; and after any [deleteDevice] the user
    does not list the device and the device does not list the user. *)
Theorem deleteDevice_undoes_addDevice w userId itemId customName :
  devices_served w →
  usable userId itemId →
  known w userId itemId →
  ∃ w1 w2,
    addDevice userId itemId customName w = Ret tt w1 ∧
    deleteDevice userId itemId w1 = Ret tt w2 ∧
    (∀ name, ¬ lists_device w2 userId itemId name) ∧
    ¬ lists_user w2 itemId userId ∧
    ((∀ name, ¬ lists_device w userId itemId name) → ¬ lists_user w itemId userId →
     firestore w2 = firestore w).
Proof.
  intros Hserved Husable [[u Hu] [d Hd]].
  rewrite (addDevice_run w userId itemId customName u d) by done.
  eexists _, _. split; [reflexivity|].
  erewrite deleteDevice_run; [|done..|simpl; apply lookup_insert_eq|simpl; apply lookup_insert_eq].
  split; [reflexivity|]. simpl. split_and!.
  - intros name (u' & Hu' & Hname). simpl in Hu'. rewrite lookup_insert_eq in Hu'.
    injection Hu' as <-. simpl in Hname. by rewrite lookup_delete_eq in Hname.
  - intros (d' & Hd' & Hin). simpl in Hd'. rewrite lookup_insert_eq in Hd'.
    injection Hd' as <-. simpl in Hin. by apply arrayRemove_not_elem in Hin.
  - intros Hnot_listed Hnot_user. rewrite !insert_insert_eq.
    assert (Migrate.Doc.devices u !! itemId = None) as Hfresh.
    { destruct (Migrate.Doc.devices u !! itemId) as [name|] eqn:Hname; [|done].
      destruct (Hnot_listed name). by exists u. }
    assert (userId ∉ Migrate.Doc.user_ids d) as Hfresh'.
    { intros Hin. apply Hnot_user. by exists d. }
    assert (delete_device itemId (set_device itemId customName u) = u) as ->.
    { unfold delete_device, set_device. simpl. rewrite delete_insert_id by done. by destruct u. }
    assert (set_user_ids (arrayRemove userId) (set_user_ids (arrayUnion userId) d) = d) as ->.
    { unfold set_user_ids. simpl. rewrite arrayRemove_arrayUnion by done. by destruct d. }
    rewrite !insert_id by done. by destruct (firestore w).
Qed.


Lemma updateDoc_item_run w itemId f d :
  devices_served w →
  Migrate.item_data (firestore w) !! itemId = Some d →
  updateDoc_item itemId f w
  = Ret tt (set_item_data (<[itemId := f d]> (Migrate.item_data (firestore w))) w).
Proof. intros Hserved Hd. unfold updateDoc_item. by rewrite Hserved, Hd. Qed.

(** X23. The settings of a device.  [setEnergyLimit] and [toggleDevice]
    change the one field they name: the limit that was set is the limit
    [getDeviceMetadata] reads next, beside the fields as they were, and the
    two settings can be made in either order.  None of the three creates a
    document: for a device that is not in the store they throw and write
    nothing. *)
Theorem device_settings w itemId limit newState :
  devices_served w →
  doc_id itemId = true →
  (∀ d,
     Migrate.item_data (firestore w) !! itemId = Some d →
     ∃ w1 w2,
       setEnergyLimit itemId limit w = Ret tt w1 ∧
       getDeviceMetadata itemId w1 = Ret (set_energyLimit limit d) w1 ∧
       toggleDevice itemId newState w1 = Ret tt w2 ∧
       getDeviceMetadata itemId w2 = Ret (set_isOn newState (set_energyLimit limit d)) w2 ∧
       Migrate.user_data (firestore w2) = Migrate.user_data (firestore w) ∧
       ∃ w1',
         toggleDevice itemId newState w = Ret tt w1' ∧
         setEnergyLimit itemId limit w1' = Ret tt w2) ∧
  (Migrate.item_data (firestore w) !! itemId = None →
   (∃ e, setEnergyLimit itemId limit w = Throw e w) ∧
   (∃ e, toggleDevice itemId newState w = Throw e w) ∧
   getDeviceMetadata itemId w = Throw (JS.Error "Device not found") w).
Proof.
  intros Hserved Hid.
  unfold setEnergyLimit, toggleDevice, getDeviceMetadata, try_catch, mbind, M_bind, bind,
    doc, getDoc_item.
  rewrite Hid. simpl. split.
  - intros d Hd. rewrite (updateDoc_item_run w itemId (set_energyLimit limit) d) by done.
    rewrite (updateDoc_item_run w itemId (set_isOn newState) d) by done.
    eexists _, _. split; [reflexivity|]. simpl. rewrite Hserved, lookup_insert_eq.
    split; [reflexivity|].
    erewrite updateDoc_item_run; [|done|simpl; apply lookup_insert_eq].
    split; [reflexivity|]. simpl. rewrite Hserved, lookup_insert_eq.
    split; [reflexivity|]. split; [done|].
    eexists. split; [reflexivity|].
    erewrite updateDoc_item_run; [|done|simpl; apply lookup_insert_eq].
    f_equal. unfold set_item_data. simpl. by rewrite !insert_insert_eq.
  - intros Hnone. unfold updateDoc_item. rewrite !Hserved, Hnone. simpl.
    split_and!; by eexists.
Qed.

End DevicesProperties.

(** ** The readings of the chart *)

Section SortProperties.
Context {A : Type} (compare : A → A → Z).

(** [x] may stand before [y]. *)
Let before (x y : A) : Prop := (compare x y ≤ 0)%Z.

Lemma insert_sorted_Permutation x l : JS.insert_sorted compare x l ≡ₚ x :: l.
Proof.
  induction l as [|y l IH]; [done|]. simpl.
  destruct (compare x y <=? 0)%Z; [done|]. rewrite IH. apply Permutation_swap.
Qed.

Lemma sort_Permutation l : JS.sort compare l ≡ₚ l.
Proof.
  induction l as [|x l IH]; [done|]. cbn [JS.sort foldr]. fold (JS.sort compare l).
  by rewrite insert_sorted_Permutation, IH.
Qed.

Hypothesis before_total : ∀ x y, before x y ∨ before y x.
Hypothesis before_trans : ∀ x y z, before x y → before y z → before x z.

Lemma insert_sorted_StronglySorted x l :
  StronglySorted before l → StronglySorted before (JS.insert_sorted compare x l).
Proof.
  induction 1 as [|y l Hl IH Hy]; simpl; [by repeat constructor|].
  destruct (Z.leb_spec (compare x y) 0) as [Hle|Hgt].
  - constructor; [by constructor|]. constructor; [done|].
    eapply Forall_impl; [exact Hy|]. intros z Hz. by apply (before_trans x y z).
  - constructor; [done|]. rewrite insert_sorted_Permutation.
    constructor; [|done]. destruct (before_total x y) as [Hxy|Hyx]; [|done].
    unfold before in Hxy. lia.
Qed.

Lemma sort_StronglySorted l : StronglySorted before (JS.sort compare l).
Proof.
  induction l as [|x l IH]; [constructor|]. cbn [JS.sort foldr]. fold (JS.sort compare l).
  by apply insert_sorted_StronglySorted.
Qed.

End SortProperties.

Section ChartProperties.
Import Devices.

Lemma id_gt_lt a b : id_gt a b = true ↔ OrderedTypeEx.String_as_OT.lt b a.
Proof.
  unfold id_gt. rewrite <- OrderedTypeEx.String_as_OT.cmp_lt.
  unfold OrderedTypeEx.String_as_OT.cmp. rewrite (String.compare_antisym b a).
  destruct (String.compare a b); simpl; split; congruence.
Qed.

Lemma not_newer_total a b : not_newer a b ∨ not_newer b a.
Proof.
  unfold not_newer.
  destruct (id_gt a.1 b.1) eqn:Hab; [|by left]. right.
  destruct (id_gt b.1 a.1) eqn:Hba; [|done].
  apply id_gt_lt in Hab, Hba.
  destruct (OrderedTypeEx.String_as_OT.lt_not_eq _ _
              (OrderedTypeEx.String_as_OT.lt_trans _ _ _ Hab Hba)). done.
Qed.

Lemma not_newer_trans a b c : not_newer a b → not_newer b c → not_newer a c.
Proof.
  unfold not_newer. intros Hab Hbc.
  destruct (id_gt a.1 c.1) eqn:Hac; [|done]. apply id_gt_lt in Hac.
  assert (∀ x y, id_gt x y = false → x = y ∨ OrderedTypeEx.String_as_OT.lt x y) as Hle.
  { intros x y Hxy. unfold id_gt in Hxy.
    destruct (String.compare x y) eqn:Hcmp; [| |done].
    - left. by apply OrderedTypeEx.String_as_OT.cmp_eq.
    - right. by apply OrderedTypeEx.String_as_OT.cmp_lt. }
  destruct (Hle _ _ Hab) as [Heq|Hlt], (Hle _ _ Hbc) as [Heq'|Hlt'].
  - rewrite Heq, Heq' in Hac. by destruct (OrderedTypeEx.String_as_OT.lt_not_eq _ _ Hac).
  - rewrite Heq in Hac.
    by destruct (OrderedTypeEx.String_as_OT.lt_not_eq _ _
                   (OrderedTypeEx.String_as_OT.lt_trans _ _ _ Hac Hlt')).
  - rewrite <- Heq' in Hac.
    by destruct (OrderedTypeEx.String_as_OT.lt_not_eq _ _
                   (OrderedTypeEx.String_as_OT.lt_trans _ _ _ Hac Hlt)).
  - by destruct (OrderedTypeEx.String_as_OT.lt_not_eq _ _
                   (OrderedTypeEx.String_as_OT.lt_trans _ _ _ Hac
                      (OrderedTypeEx.String_as_OT.lt_trans _ _ _ Hlt Hlt'))).
Qed.

(** The comparator puts [a] before [b] exactly when [b] is not newer. *)
Lemma by_id_desc_before a b : (by_id_desc a b ≤ 0)%Z ↔ not_newer b a.
Proof.
  unfold by_id_desc, not_newer.
  destruct (id_gt a.1 b.1) eqn:Hab.
  - split; [|lia]. intros _. destruct (not_newer_total a b) as [H|H]; unfold not_newer in H;
      congruence.
  - destruct (id_gt b.1 a.1); split; (lia || done).
Qed.

Lemma StronglySorted_reverse {B} (R : relation B) l :
  StronglySorted R l → StronglySorted (flip R) (reverse l).
Proof.
  induction 1 as [|x l Hl IH Hx]; [constructor|]. rewrite reverse_cons.
  apply StronglySorted_app. split_and!; [|done|repeat constructor].
  intros y z Hy ->%list_elem_of_singleton. rewrite elem_of_reverse in Hy.
  unfold flip. rewrite Forall_forall in Hx. by apply Hx.
Qed.

Lemma StronglySorted_weaken {B} (R R' : relation B) l :
  (∀ x y, R x y → R' x y) → StronglySorted R l → StronglySorted R' l.
Proof.
  intros HR. induction 1 as [|x l Hl IH Hx]; constructor; [done|].
  eapply Forall_impl; [exact Hx|]. intros y. apply HR.
Qed.

Lemma slice0_take {B} end_ (l : list B) : ∃ n, slice0 end_ l = take n l.
Proof. unfold slice0. destruct (end_ <? 0)%Z; by eexists. Qed.

(** X24. The readings shown.  Of the documents of a device's [daily]
    collection the chart is given the newest ones by document id, oldest
    first: the list is in ascending order of id, no reading left out is newer
    than a reading shown, and [maxResults] readings are shown when there are
    that many (a negative [maxResults] leaves out that many of the oldest). *)
Theorem dailyReadings_latest maxResults docs :
  let shown := dailyReadings maxResults docs in
  StronglySorted not_newer shown ∧
  (∃ rest, docs ≡ₚ shown ++ rest ∧ ∀ a b, a ∈ shown → b ∈ rest → not_newer b a) ∧
  Z.of_nat (length shown)
  = (if (maxResults <? 0)%Z then Z.max 0 (Z.of_nat (length docs) + maxResults)
     else Z.min maxResults (Z.of_nat (length docs))).
Proof.
  unfold dailyReadings. simpl.
  set (sorted := JS.sort by_id_desc docs).
  assert (StronglySorted (flip not_newer) sorted) as Hsorted.
  { eapply StronglySorted_weaken;
      [|apply (sort_StronglySorted by_id_desc)].
    - intros a b Hab. by apply by_id_desc_before.
    - intros a b. destruct (not_newer_total a b) as [H|H]; [right|left];
        by apply by_id_desc_before.
    - intros a b c ?%by_id_desc_before ?%by_id_desc_before. apply by_id_desc_before.
      by eapply not_newer_trans. }
  assert (sorted ≡ₚ docs) as Hperm by apply sort_Permutation.
  assert (length sorted = length docs) as Hlen by by rewrite Hperm.
  destruct (slice0_take maxResults sorted) as [n Hn].
  split_and!.
  - rewrite Hn. apply (StronglySorted_reverse (flip not_newer)).
    rewrite <- (take_drop n sorted) in Hsorted.
    by apply StronglySorted_app_1_l in Hsorted.
  - exists (drop n sorted). split.
    + by rewrite reverse_Permutation, Hn, take_drop.
    + intros a b Ha Hb. rewrite elem_of_reverse, Hn in Ha.
      rewrite <- (take_drop n sorted) in Hsorted.
      exact (StronglySorted_app_1_elem_of (flip not_newer) _ _ a b Hsorted Ha Hb).
  - rewrite length_reverse. unfold slice0. rewrite <- Hlen.
    destruct (Z.ltb_spec maxResults 0); rewrite length_take; lia.
Qed.

End ChartProperties.

(** ** Migration under failures, and what is stored *)

Section PartialMigration.
Import Eff Migrate.
#[local] Arguments Nat.leb : simpl never.
#[local] Arguments Nat.ltb : simpl never.

Lemma migrateUser_run t userId user w :
  ∃ t' w',
    migrateUser t (userId, user) w = Ret t' w' ∧
    (if rejects w (FsSet "user-data" userId)
     then migratedCount t' = migratedCount t ∧ errorCount t' = S (errorCount t) ∧
          firestore w' = firestore w
     else migratedCount t' = S (migratedCount t) ∧ errorCount t' = errorCount t ∧
          firestore w' = put_user userId (user_doc user) (firestore w)) ∧
    rejects w' = rejects w ∧ rtdb w' = rtdb w.
Proof.
  unfold migrateUser, try_catch, mbind, M_bind, bind, doc_set.
  destruct (rejects w (FsSet "user-data" userId)); simpl; by eexists _, _.
Qed.

Lemma users_loop_run l :
  NoDup l.*1 →
  ∀ t w, ∃ t' w',
    foldM migrateUser l t w = Ret t' w' ∧
    errorCount t' = errorCount t + length (filter (user_refused w) l.*1) ∧
    migratedCount t' + errorCount t' = migratedCount t + errorCount t + length l ∧
    (∀ id user, (id, user) ∈ l →
       user_data (firestore w') !! id
       = if rejects w (FsSet "user-data" id) then user_data (firestore w) !! id
         else Some (user_doc user)) ∧
    (∀ id, id ∉ l.*1 → user_data (firestore w') !! id = user_data (firestore w) !! id) ∧
    item_data (firestore w') = item_data (firestore w) ∧
    daily (firestore w') = daily (firestore w) ∧
    telegram_active_chats (firestore w') = telegram_active_chats (firestore w) ∧
    rejects w' = rejects w ∧ rtdb w' = rtdb w.
Proof.
  induction l as [|[userId user] l IH]; intros Hnd t w; cbn [foldM].
  - exists t, w. split_and!; try done; [simpl; lia..|]. by intros ?? ?%elem_of_nil.
  - cbn [fmap list_fmap fst] in *. apply NoDup_cons in Hnd as [Hnotin Hnd]. unfold bind at 1.
    destruct (migrateUser_run t userId user w) as (t1 & w1 & -> & Hstep & Hrej1 & Hdb1).
    destruct (IH Hnd t1 w1)
      as (t' & w' & -> & Herr & Hsum & Hin & Hout & Hitems & Hdaily & Htg & Hrej & Hdb).
    exists t', w'. split; [done|].
    assert (filter (user_refused w1) l.*1 = filter (user_refused w) l.*1) as Hfilter.
    { apply list_filter_iff. intros id. unfold user_refused. by rewrite Hrej1. }
    rewrite Hfilter in Herr.
    destruct (rejects w (FsSet "user-data" userId)) eqn:Hw;
      destruct Hstep as (Hm1 & He1 & Hfs1); rewrite Hfs1 in *.
    + rewrite filter_cons_True by done. simpl. split_and!; try congruence; try lia.
      * intros id u [[= -> ->]|Hl]%elem_of_cons.
        -- rewrite Hw. by apply Hout.
        -- rewrite <- Hrej1. by apply Hin.
      * intros id [Hne Hnot]%not_elem_of_cons. by apply Hout.
    + rewrite filter_cons_False by (unfold user_refused; by rewrite Hw). simpl in *.
      split_and!; try congruence; try lia.
      * intros id u [[= -> ->]|Hl]%elem_of_cons.
        -- rewrite Hw, (Hout _ Hnotin). apply lookup_insert_eq.
        -- rewrite (Hin _ _ Hl), Hrej1.
           destruct (rejects w (FsSet "user-data" id)); [|done].
           apply lookup_insert_ne. intros <-. apply Hnotin.
           apply list_elem_of_fmap. by exists (userId, u).
      * intros id [Hne Hnot]%not_elem_of_cons. rewrite (Hout _ Hnot).
        by apply lookup_insert_ne.
Qed.

(** X25. A refused write does not stop the users migrator.  When the users
    are read, [migrateUsers] returns for every pattern of refused writes:
    each user counts once, as migrated or as an error; the errors are the
    users whose write is refused; the destination holds the document of
    every other user of the source, and is otherwise as it was. *)
Theorem migrateUsers_partial w :
  rejects w (RtdbOnce "users") = false →
  ∃ t w',
    migrateUsers w = Ret t w' ∧
    errorCount t = length (filter (user_refused w) (JS.keys (source_users w))) ∧
    migratedCount t + errorCount t = size (source_users w) ∧
    (∀ id,
       user_data (firestore w') !! id
       = match source_users w !! id with
         | Some user =>
             if rejects w (FsSet "user-data" id) then user_data (firestore w) !! id
             else Some (user_doc user)
         | None => user_data (firestore w) !! id
         end) ∧
    item_data (firestore w') = item_data (firestore w) ∧
    daily (firestore w') = daily (firestore w) ∧
    telegram_active_chats (firestore w') = telegram_active_chats (firestore w).
Proof.
  intros Hread. unfold migrateUsers, mbind, M_bind, bind, once. rewrite Hread.
  fold (source_users w).
  destruct (users_loop_run (JS.entries (source_users w)) (keys_NoDup _)
              {| migratedCount := 0; errorCount := 0 |} w)
    as (t & w' & -> & Herr & Hsum & Hin & Hout & Hitems & Hdaily & Htg & _).
  exists t, w'. split; [done|]. split; [exact Herr|].
  split; [simpl in Hsum; rewrite Hsum; apply length_map_to_list|].
  split; [|done]. intros id.
  destruct (source_users w !! id) as [user|] eqn:Hid.
  - apply Hin. by apply elem_of_map_to_list.
  - apply Hout. intros Hk. apply elem_of_keys, elem_of_dom in Hk as [u Hu]. congruence.
Qed.

(** *** The registry *)

(** X26. The registry migrator never throws.  When its three requests are
    served, the destination's registry document is the source's list of chats
    and polling cursor (an empty list and 0 where the source has none), and
    the chats are counted; when one of them fails, the error is returned
    with a count of 0 and the destination is left as it was. *)
Theorem migrateTelegramData_copies w :
  ∃ r w',
    migrateTelegramData w = Ret r w' ∧
    frame w' = frame w ∧ daily (firestore w') = daily (firestore w) ∧
    if bool_decide (Forall (λ io, rejects w io = false) registry_requests)
    then telegram_active_chats (firestore w') = Some (source_registry w) ∧
         chatCount r = size (Doc.chats (source_registry w)) ∧ error r = None
    else firestore w' = firestore w ∧ chatCount r = 0 ∧ is_Some (error r).
Proof.
  unfold migrateTelegramData, try_catch, mbind, M_bind, bind, once, doc_set,
    registry_requests.
  destruct (rejects w (RtdbOnce "telegram/active_chats")) eqn:H1; simpl.
  { eexists _, _. split; [reflexivity|]. rewrite bool_decide_eq_false_2.
    - by destruct w as [? []].
    - intros [? _]%Forall_cons. congruence. }
  destruct (rejects w (RtdbOnce "telegram/last_update_id")) eqn:H2; simpl.
  { eexists _, _. split; [reflexivity|]. rewrite bool_decide_eq_false_2.
    - by destruct w as [? []].
    - intros (_ & [? _]%Forall_cons)%Forall_cons. congruence. }
  destruct (rejects w (FsSet "telegram" "active_chats")) eqn:H3; simpl.
  { eexists _, _. split; [reflexivity|]. rewrite bool_decide_eq_false_2.
    - by destruct w as [? []].
    - intros (_ & (_ & [? _]%Forall_cons)%Forall_cons)%Forall_cons. congruence. }
  eexists _, _. split; [reflexivity|]. rewrite bool_decide_eq_true_2.
  - split_and!; try done. simpl. unfold JS.keys, JS.entries.
    by rewrite length_fmap, length_map_to_list.
  - by repeat constructor.
Qed.

(** *** The readings that are stored *)

Lemma queue_cons deviceId entry l :
  queue deviceId (entry :: l)
  = if is_empty_reading entry.2 then queue deviceId l
    else (deviceId, entry.1, reading_doc (default ∅ entry.2)) :: queue deviceId l.
Proof.
  unfold queue. rewrite filter_cons.
  case_decide as Hentry; unfold nonempty_entry in Hentry.
  - by rewrite Hentry.
  - by destruct (is_empty_reading entry.2).
Qed.

Lemma readings_loop_queue deviceId l :
  ∀ v w,
    committed (batch w) = false →
    Vars.batchCount v + count_nonempty l < 500 →
    ∃ v' w',
      foldM (migrateReading deviceId) l v w = Ret v' w' ∧
      batch w' = {| writes := writes (batch w) ++ queue deviceId l; committed := false |} ∧
      Vars.batchCount v' = Vars.batchCount v + count_nonempty l ∧
      Vars.errorCount v' = Vars.errorCount v ∧
      firestore w' = firestore w ∧ rejects w' = rejects w ∧ commits w' = commits w ∧
      clock w' = clock w.
Proof.
  induction l as [|entry l IH]; intros v w Hc Hroom; cbn [foldM].
  - exists v, w. rewrite app_nil_r. split_and!; try done.
    destruct (batch w); simpl in *; by subst.
  - rewrite count_nonempty_cons in *. rewrite queue_cons. unfold bind.
    destruct (is_empty_reading entry.2) eqn:Hempty.
    + rewrite migrateReading_empty by done. by apply IH.
    + rewrite migrateReading_queued by (done || (by rewrite Hc) || lia).
      destruct (IH (counted v) (queued deviceId entry w))
        as (v' & w' & -> & Hbatch & Hcount & Herr & Hfs & Hrej & Hcommits & Hclock);
        [done|simpl; lia|].
      exists v', w'. split; [done|]. rewrite Hbatch. simpl. rewrite <- app_assoc.
      simpl in Hcount. split_and!; try done. lia.
Qed.

(** What a batch of writes to one device leaves in the destination. *)
Lemma foldl_put_daily deviceId ws :
  Forall (λ wr, wr.1.1 = deviceId) ws →
  NoDup ws.*1.*2 →
  ∀ fs,
    let fs' := foldl put_daily fs ws in
    user_data fs' = user_data fs ∧ item_data fs' = item_data fs ∧
    telegram_active_chats fs' = telegram_active_chats fs ∧
    (∀ other, other ≠ deviceId → daily fs' !! other = daily fs !! other) ∧
    (∀ ts d, (deviceId, ts, d) ∈ ws →
       default ∅ (daily fs' !! deviceId) !! ts = Some d) ∧
    (∀ ts, ts ∉ ws.*1.*2 →
       default ∅ (daily fs' !! deviceId) !! ts = default ∅ (daily fs !! deviceId) !! ts).
Proof.
  induction 1 as [|[[dev ts0] d0] ws Hdev _ IH]; intros Hnd fs; simpl in *.
  { split_and!; try done. by intros ?? ?%elem_of_nil. }
  subst dev. apply NoDup_cons in Hnd as [Hnotin Hnd].
  destruct (IH Hnd (put_daily fs (deviceId, ts0, d0)))
    as (Hu & Hi & Ht & Hother & Hin & Hout).
  simpl in *. split_and!; try done.
  - intros other Hne. rewrite (Hother _ Hne). by apply lookup_insert_ne.
  - intros ts d [[= -> ->]|Hl]%elem_of_cons; [|by apply Hin].
    rewrite (Hout _ Hnotin), lookup_insert_eq. simpl. apply lookup_insert_eq.
  - intros ts [Hne Hnot]%not_elem_of_cons. rewrite (Hout _ Hnot), lookup_insert_eq. simpl.
    by apply lookup_insert_ne.
Qed.

Lemma queue_device deviceId l : Forall (λ wr, wr.1.1 = deviceId) (queue deviceId l).
Proof. unfold queue. apply Forall_fmap, Forall_forall. by intros []. Qed.

Lemma queue_timestamps deviceId l : (queue deviceId l).*1.*2 = (filter nonempty_entry l).*1.
Proof.
  unfold queue. rewrite <- !list_fmap_compose. by apply list_fmap_ext.
Qed.

Lemma length_queue deviceId l : length (queue deviceId l) = count_nonempty l.
Proof. unfold queue, count_nonempty. apply length_fmap. Qed.

(** X27. The readings that are stored.  For a device with fewer than 500
    non-empty readings, when every request is served, the readings migrator
    stores each non-empty reading of the source under its timestamp, the six
    fields copied (a missing or zero field as 0), in one commit; readings
    already in the destination under other timestamps, the readings of other
    devices and the rest of the destination are left as they were, and no
    error is counted. *)
Theorem migrateDeviceReadings_stores v deviceId readingsMap w :
  all_served w →
  non_empty_readings readingsMap < 500 →
  ∃ v' w',
    migrateDeviceReadings v (deviceId, readingsMap) w = Ret v' w' ∧
    (∀ timestamp,
       stored_readings w' deviceId !! timestamp
       = match readingsMap !! timestamp with
         | Some reading =>
             if is_empty_reading reading then stored_readings w deviceId !! timestamp
             else Some (reading_doc (default ∅ reading))
         | None => stored_readings w deviceId !! timestamp
         end) ∧
    (∀ other, other ≠ deviceId →
       daily (firestore w') !! other = daily (firestore w) !! other) ∧
    beside_daily w' = beside_daily w ∧
    Vars.errorCount v' = Vars.errorCount v ∧
    commits w'
    = commits w ++ (if (0 <? non_empty_readings readingsMap)%nat
                    then [(non_empty_readings readingsMap, true)] else []).
Proof.
  intros Hserved Hfit. unfold migrateDeviceReadings, new_batch.
  unfold mbind at 1, M_bind at 1, bind at 1, modify at 1.
  unfold mbind at 1, M_bind at 1, bind at 1.
  set (l := JS.entries readingsMap). unfold non_empty_readings in *. fold l in Hfit |- *.
  edestruct (readings_loop_queue deviceId l)
    as (v1 & w1 & -> & Hbatch & Hcount & Herr & Hfs & Hrej & Hcommits & Hclock);
    [| |]; simpl; [done|exact Hfit|].
  simpl in Hbatch, Hcount, Herr, Hfs, Hrej, Hcommits.
  assert (∀ ts,
    (∀ r, readingsMap !! ts = Some r → is_empty_reading r = false →
       (deviceId, ts, reading_doc (default ∅ r)) ∈ queue deviceId l) ∧
    ((∀ r, readingsMap !! ts = Some r → is_empty_reading r = true) →
       ts ∉ (queue deviceId l).*1.*2)) as Hqueue.
  { intros ts. split.
    - intros r Hr Hne. unfold queue. apply list_elem_of_fmap. exists (ts, r). split; [done|].
      apply list_elem_of_filter. split; [done|]. by apply elem_of_map_to_list.
    - intros Hempty. rewrite queue_timestamps.
      intros ([ts' r] & -> & [Hne Hin]%list_elem_of_filter)%list_elem_of_fmap.
      apply elem_of_map_to_list in Hin. unfold nonempty_entry in Hne. simpl in *.
      rewrite (Hempty _ Hin) in Hne. done. }
  assert (NoDup (queue deviceId l).*1.*2) as Hnd.
  { rewrite queue_timestamps.
    apply (sublist_NoDup _ l.*1); [|apply fmap_sublist, sublist_filter].
    apply NoDup_fst_map_to_list. }
  unfold mbind at 1, M_bind at 1, bind at 1. rewrite Hcount. simpl.
  destruct (Nat.ltb_spec 0 (count_nonempty l)) as [Hpos|Hzero].
  - unfold try_catch, mbind, M_bind, bind, batch_commit, console_log, modify.
    rewrite Hrej, Hserved. simpl. rewrite ?Hbatch, ?Hfs, ?Hcommits. simpl.
    destruct (foldl_put_daily deviceId (queue deviceId l) (queue_device _ _) Hnd (firestore w))
      as (Hu & Hi & Ht & Hother & Hin & Hout).
    simpl in *. eexists _, _. split; [reflexivity|]. simpl.
    unfold stored_readings, beside_daily. simpl. rewrite length_queue.
    split_and!; try done; [|by rewrite Hu, Hi, Ht].
    intros ts. destruct (Hqueue ts) as [Hq1 Hq2].
    destruct (readingsMap !! ts) as [r|] eqn:Hr.
    + destruct (is_empty_reading r) eqn:Hempty.
      * apply Hout, Hq2. by intros ? [= <-].
      * apply Hin, Hq1; done.
    + apply Hout, Hq2. by intros ? [=].
  - unfold mbind, M_bind, bind, console_log, modify. simpl.
    eexists _, _. split; [reflexivity|]. simpl.
    unfold stored_readings, beside_daily. simpl. rewrite Hfs, Hcommits, app_nil_r.
    split_and!; try done.
    intros ts. destruct (readingsMap !! ts) as [r|] eqn:Hr; [|done].
    destruct (is_empty_reading r) eqn:Hempty; [done|].
    destruct (Hqueue ts) as [Hq1 _]. specialize (Hq1 r Hr Hempty).
    assert (length (queue deviceId l) = 0) as Hlen by (rewrite length_queue; lia).
    destruct (queue deviceId l); [by apply elem_of_nil in Hq1|done].
Qed.

End PartialMigration.

(** ** The properties on the sample inputs *)

Lemma saved_chat_is_listed_witness :
  ∃ w',
    Chats.saveActiveChatId_rtdb 42 (Some "alice") (Some "Alice") registered = Eff.Ret tt w' ∧
    ∀ W, ChatStore.active_chats W = Chats.active_chats w' →
         ChatStore.rejects W (ChatStore.RtdbGet "telegram/active_chats") = false →
      ∃ ids W',
        ChatStore.getAllActiveChatIds_rtdb W = Eff.Ret ids W' ∧ Some 42%Z ∈ ids.
Proof.
  destruct (saved_chat_is_listed registered 42 (Some "alice") (Some "Alice"))
    as [_ (w' & Hrun & Hlisted)].
  - intros io. reflexivity.
  - exists w'. split; [exact Hrun|]. intros W Hchats Hread.
    destruct (Hlisted W Hchats Hread) as (ids & W' & Hids & Hin & _).
    exists ids, W'. split; [exact Hids|exact Hin].
Defined.

Lemma removeInactiveChats_rtdb_removes_witness :
  ∃ n w',
    ChatStore.removeInactiveChats_rtdb 30 sample_store = Eff.Ret n w' ∧
    ChatStore.active_chats w'
    = filter (λ e, ¬ stale (ChatStore.cutoffTime later 30) e.2)
        (ChatStore.active_chats sample_store) ∧
    size (ChatStore.active_chats sample_store) = n + size (ChatStore.active_chats w').
Proof.
  destruct (removeInactiveChats_rtdb_removes sample_store 30)
    as (n & w' & Hrun & Hchats & Hsize & _).
  - intros io. reflexivity.
  - exists n, w'. split; [exact Hrun|]. split; [exact Hchats|exact Hsize].
Defined.

Lemma sample_doc_no_null : no_null sample_doc.
Proof.
  intros k entry Hk. unfold sample_doc in Hk. simpl in Hk.
  apply lookup_insert_Some in Hk as [[_ <-]|[_ [_ <-]%lookup_singleton_Some]]; by eexists.
Qed.

Lemma sample_doc_plain_keys : plain_keys sample_doc.
Proof.
  intros k [entry Hk]%elem_of_dom. unfold sample_doc in Hk. simpl in Hk.
  apply lookup_insert_Some in Hk as [[<- _]|[_ [<- _]%lookup_singleton_Some]]; reflexivity.
Qed.

Lemma removeInactiveChats_nulls_witness :
  ∃ w' d',
    ChatStore.removeInactiveChats 30 sample_store
    = Eff.Ret (size (filter (λ e, from_option (stale (ChatStore.cutoffTime later 30)) false e.2)
                       (ChatStore.chats sample_doc))) w' ∧
    ChatStore.doc w' = Some d' ∧
    ChatStore.chats d' = nulled (ChatStore.cutoffTime later 30) <$> ChatStore.chats sample_doc ∧
    dom (ChatStore.chats d') = dom (ChatStore.chats sample_doc).
Proof.
  destruct (removeInactiveChats_nulls sample_store sample_doc 30)
    as (w' & d' & Hrun & Hdoc & Hchats & Hdom & _).
  - intros io. reflexivity.
  - reflexivity.
  - apply sample_doc_no_null.
  - apply sample_doc_plain_keys.
  - exists w', d'. split; [exact Hrun|]. split; [exact Hdoc|]. split; [exact Hchats|exact Hdom].
Defined.

Lemma removeInactiveChats_after_null_witness :
  ∃ w',
    ChatStore.removeInactiveChats 30 marked_store = Eff.Ret 0 w' ∧
    ChatStore.doc w' = ChatStore.doc marked_store ∧
    ChatStore.active_chats w' = ChatStore.active_chats marked_store ∧
    ChatStore.console w' = ChatStore.console marked_store ++ ["Error removing inactive chats"].
Proof.
  apply (removeInactiveChats_after_null marked_store marked_doc "7" 30).
  - reflexivity.
  - reflexivity.
  - vm_compute. reflexivity.
Defined.

Lemma discovery_resumes_witness :
  Discovery.polled
    (Eff.state_of
       (Discovery.testTelegramDiscovery discovery_env
          (Eff.state_of (Discovery.testTelegramDiscovery discovery_env first_run))))
  = Discovery.polled (Eff.state_of (Discovery.testTelegramDiscovery discovery_env first_run))
    ++ [{| Bot.timeout := "30"; Bot.offset := Some (Bot.toString (5 + 1)) |}].
Proof.
  apply (discovery_resumes discovery_env discovery_env first_run 1 1 5).
  - vm_compute. reflexivity.
  - lia.
  - split; reflexivity.
  - reflexivity.
Defined.

Lemma home_served devices : devices_served (home devices).
Proof. intros io. reflexivity. Qed.

Lemma home_usable : usable "u1" "dev1".
Proof. split; reflexivity. Qed.

Lemma home_known devices : known (home devices) "u1" "dev1".
Proof. split; eexists; apply lookup_singleton_eq. Qed.

Lemma addDevice_links_witness :
  ∃ w',
    Devices.addDevice "u1" "dev1" "AC" (home ∅) = Eff.Ret tt w' ∧
    lists_device w' "u1" "dev1" "AC" ∧
    lists_user w' "dev1" "u1".
Proof.
  destruct (addDevice_links (home ∅) "u1" "dev1" "AC") as (w' & Hrun & Hdevice & Huser & _).
  - apply home_served.
  - apply home_usable.
  - apply home_known.
  - exists w'. split; [exact Hrun|]. split; [exact Hdevice|exact Huser].
Defined.

Lemma addDevice_failures_witness :
  Devices.addDevice "u1" "dev9" "AC" (home ∅)
  = Eff.Throw (JS.Error "Device ID does not exist") (home ∅).
Proof.
  destruct (addDevice_failures (home ∅) "u1" "dev9" "AC") as (Hmissing & _).
  - split; reflexivity.
  - reflexivity.
  - apply Hmissing. vm_compute. reflexivity.
Defined.

Lemma addDevice_twice_witness :
  ∃ w',
    Devices.addDevice "u1" "dev1" "AC" (home ∅) = Eff.Ret tt w' ∧
    Devices.addDevice "u1" "dev1" "AC" w' = Eff.Ret tt w'.
Proof.
  apply (addDevice_twice (home ∅) "u1" "dev1" "AC").
  - apply home_served.
  - apply home_usable.
  - apply home_known.
Defined.

Lemma deleteDevice_undoes_addDevice_witness :
  ∃ w1 w2,
    Devices.addDevice "u1" "dev1" "AC" (home ∅) = Eff.Ret tt w1 ∧
    Devices.deleteDevice "u1" "dev1" w1 = Eff.Ret tt w2 ∧
    Devices.firestore w2 = Devices.firestore (home ∅).
Proof.
  destruct (deleteDevice_undoes_addDevice (home ∅) "u1" "dev1" "AC")
    as (w1 & w2 & Hadd & Hdelete & _ & _ & Hsame).
  - apply home_served.
  - apply home_usable.
  - apply home_known.
  - exists w1, w2. split; [exact Hadd|]. split; [exact Hdelete|]. apply Hsame.
    + intros name (u & Hu & Hname). simpl in Hu. apply lookup_singleton_Some in Hu as [_ <-].
      simpl in Hname. by rewrite lookup_empty in Hname.
    + intros (d & Hd & Hin). simpl in Hd. apply lookup_singleton_Some in Hd as [_ <-].
      simpl in Hin. by apply elem_of_nil in Hin.
Defined.


Lemma device_settings_witness :
  ∃ w1 w2,
    Devices.setEnergyLimit "dev1" 1500%float (home ∅) = Eff.Ret tt w1 ∧
    Devices.getDeviceMetadata "dev1" w1
    = Eff.Ret (Devices.set_energyLimit 1500%float sample_item) w1 ∧
    Devices.toggleDevice "dev1" false w1 = Eff.Ret tt w2 ∧
    Devices.getDeviceMetadata "dev1" w2
    = Eff.Ret (Devices.set_isOn false (Devices.set_energyLimit 1500%float sample_item)) w2.
Proof.
  destruct (device_settings (home ∅) "dev1" 1500%float false) as (Hsettings & _).
  - apply home_served.
  - reflexivity.
  - destruct (Hsettings sample_item) as (w1 & w2 & Hset & Hget & Htoggle & Hget' & _).
    + apply lookup_singleton_eq.
    + exists w1, w2. split; [exact Hset|]. split; [exact Hget|].
      split; [exact Htoggle|exact Hget'].
Defined.

Lemma migrateUsers_partial_witness :
  ∃ t w',
    Migrate.migrateUsers (rejecting_u2 (world_of two_users_db)) = Eff.Ret t w' ∧
    Migrate.errorCount t
    = length (filter (user_refused (rejecting_u2 (world_of two_users_db)))
                (JS.keys (source_users (rejecting_u2 (world_of two_users_db))))) ∧
    Migrate.migratedCount t + Migrate.errorCount t
    = size (source_users (rejecting_u2 (world_of two_users_db))).
Proof.
  destruct (migrateUsers_partial (rejecting_u2 (world_of two_users_db)))
    as (t & w' & Hrun & Herrors & Hsum & _).
  - reflexivity.
  - exists t, w'. split; [exact Hrun|]. split; [exact Herrors|exact Hsum].
Defined.

Lemma migrateDeviceReadings_stores_witness :
  ∃ v' w',
    Migrate.migrateDeviceReadings zero_vars ("dev1", readings_with_empty) (world_of empty_rtdb)
    = Eff.Ret v' w' ∧
    (∀ timestamp,
       stored_readings w' "dev1" !! timestamp
       = match readings_with_empty !! timestamp with
         | Some reading =>
             if Migrate.is_empty_reading reading
             then stored_readings (world_of empty_rtdb) "dev1" !! timestamp
             else Some (Migrate.reading_doc (default ∅ reading))
         | None => stored_readings (world_of empty_rtdb) "dev1" !! timestamp
         end) ∧
    Migrate.Vars.errorCount v' = Migrate.Vars.errorCount zero_vars.
Proof.
  destruct (migrateDeviceReadings_stores zero_vars "dev1" readings_with_empty
              (world_of empty_rtdb)) as (v' & w' & Hrun & Hstored & _ & _ & Herrors & _).
  - intros io. reflexivity.
  - vm_compute. lia.
  - exists v', w'. split; [exact Hrun|]. split; [exact Hstored|exact Herrors].
Defined.
